(** * A shallow embedding of the todo command-line task manager

    The development follows the Go sources: package [taskdata] (the task
    store and its validation), and package [cmd] (the list, mark and delete
    views).  Go's [int] is the 64-bit two's-complement integer, written as a
    [Z] with the wrap-around spelled out; a Go [string] is a sequence of
    bytes, written as a Rocq [string]; a slice is a [list]; a Go map from
    strings is a [gmap string]. *)

From Stdlib Require Import ZArith List Ascii String Lia Permutation Sorted.
From Stdlib Require Import PrimFloat Uint63.
From stdpp Require Import base option list strings gmap.

(** ** Go's [int] *)
Module GoInt.
Local Open Scope Z_scope.

Definition minInt : Z := - 2 ^ 63.
Definition maxInt : Z := 2 ^ 63 - 1.

(** Reduction of a mathematical integer to the value an [int] holds. *)
Definition wrap (z : Z) : Z := (z + 2 ^ 63) mod 2 ^ 64 - 2 ^ 63.

Definition add (a b : Z) : Z := wrap (a + b).
Definition sub (a b : Z) : Z := wrap (a - b).
Definition mul (a b : Z) : Z := wrap (a * b).
(** Go's [/] truncates toward zero; the divisor is non-zero at every call
    site of the program. *)
Definition div (a b : Z) : Z := wrap (Z.quot a b).
Definition incr (a : Z) : Z := add a 1.

Definition inRange (z : Z) : Prop := minInt <= z <= maxInt.
End GoInt.

(** ** Package [strings] and string comparison *)
Module strings.

(** The functions of package [strings] that work on Unicode code points.
    They belong to Go's library, whose case and white-space tables are not
    part of the program, so the program is read relative to them. *)
Class Unicode := {
  ToLower : string → string;
  TrimSpace : string → string;
  Fields : string → list string
}.

(** [strings.HasPrefix s prefix]. *)
Fixpoint HasPrefix (s prefix : string) : bool :=
  match prefix, s with
  | EmptyString, _ => true
  | String _ _, EmptyString => false
  | String p prefix', String c s' =>
      if Ascii.eqb c p then HasPrefix s' prefix' else false
  end.

(** [strings.Contains s substr]. *)
Fixpoint Contains (s substr : string) : bool :=
  if HasPrefix s substr then true
  else match s with
       | EmptyString => false
       | String _ s' => Contains s' substr
       end.

(** [strings.ReplaceAll s old new] for a non-empty [old]: the non-overlapping
    occurrences of [old] are replaced from left to right.  [skip] counts
    the bytes of a matched occurrence still to be dropped. *)
Fixpoint replaceFrom (old new : string) (skip : nat) (s : string) : string :=
  match s with
  | EmptyString => EmptyString
  | String c s' =>
      match skip with
      | S k => replaceFrom old new k s'
      | O =>
          if HasPrefix s old
          then String.append new (replaceFrom old new (String.length old - 1) s')
          else String c (replaceFrom old new 0 s')
      end
  end.

Definition ReplaceAll (s old new : string) : string :=
  match old with
  | EmptyString => s
  | _ => replaceFrom old new 0 s
  end.

(** Go's [a < b] on strings: lexicographic on bytes. *)
Fixpoint lt (a b : string) : bool :=
  match a, b with
  | _, EmptyString => false
  | EmptyString, String _ _ => true
  | String x a', String y b' =>
      if (N_of_ascii x <? N_of_ascii y)%N then true
      else if (N_of_ascii y <? N_of_ascii x)%N then false
      else lt a' b'
  end.

Definition isEmpty (s : string) : bool :=
  match s with EmptyString => true | _ => false end.

(** *** The instance for ASCII text

    On strings made of ASCII bytes the three functions below are the ones
    of Go's library; they are what the examples are evaluated with. *)
Definition asciiLower (c : ascii) : ascii :=
  let n := N_of_ascii c in
  if ((65 <=? n) && (n <=? 90))%N then ascii_of_N (n + 32) else c.

Fixpoint asciiToLower (s : string) : string :=
  match s with
  | EmptyString => EmptyString
  | String c s' => String (asciiLower c) (asciiToLower s')
  end.

(** The ASCII white space of Go: tab, line feed, vertical tab, form feed,
    carriage return and space. *)
Definition asciiSpace (c : ascii) : bool :=
  let n := N_of_ascii c in
  (((9 <=? n) && (n <=? 13)) || (n =? 32))%N.

Fixpoint trimLeft (s : string) : string :=
  match s with
  | String c s' => if asciiSpace c then trimLeft s' else s
  | EmptyString => EmptyString
  end.

(** Drops trailing white space: a byte is kept when it is not white space
    or when something is kept after it. *)
Fixpoint trimRight (s : string) : string :=
  match s with
  | EmptyString => EmptyString
  | String c s' =>
      match trimRight s' with
      | EmptyString => if asciiSpace c then EmptyString else String c EmptyString
      | r => String c r
      end
  end.

Definition asciiTrimSpace (s : string) : string := trimRight (trimLeft s).

(** [cur] is the field being read, in reverse. *)
Fixpoint fieldsFrom (cur : list ascii) (s : string) : list string :=
  let flush (k : list string) :=
    match cur with
    | [] => k
    | _ => string_of_list_ascii (rev cur) :: k
    end in
  match s with
  | EmptyString => flush []
  | String c s' =>
      if asciiSpace c then flush (fieldsFrom [] s')
      else fieldsFrom (c :: cur) s'
  end.

Definition asciiFields (s : string) : list string := fieldsFrom [] s.

Definition asciiUnicode : Unicode :=
  {| ToLower := asciiToLower; TrimSpace := asciiTrimSpace; Fields := asciiFields |}.

(** [strings.Split s sep] for a separator of one byte: the pieces of [s]
    between the occurrences of [sep].  [cur] is the piece being read, in
    reverse. *)
Fixpoint splitFrom (sep : ascii) (cur : list ascii) (s : string) : list string :=
  match s with
  | EmptyString => [string_of_list_ascii (rev cur)]
  | String c s' =>
      if Ascii.eqb c sep
      then string_of_list_ascii (rev cur) :: splitFrom sep [] s'
      else splitFrom sep (c :: cur) s'
  end.

Definition Split (s : string) (sep : ascii) : list string := splitFrom sep [] s.

(** *** What the program relies on from the library

    Two facts about [strings.ToLower] that hold for every Go string: on a
    string of ASCII bytes it lowers the letters A to Z and keeps the rest,
    and its result never holds one of the bytes A to Z. *)
Definition isUpper (c : ascii) : bool :=
  let n := N_of_ascii c in ((65 <=? n) && (n <=? 90))%N.

Definition isASCII (s : string) : bool :=
  forallb (λ c, (N_of_ascii c <? 128)%N) (list_ascii_of_string s).

Definition noUpper (s : string) : bool :=
  forallb (λ c, negb (isUpper c)) (list_ascii_of_string s).

Class UnicodeLaws (u : Unicode) : Prop := {
  ToLower_ascii : ∀ s, isASCII s = true → ToLower s = asciiToLower s;
  ToLower_noUpper : ∀ s, noUpper (ToLower s) = true
}.

End strings.

(** ** Package [time]

    A [Time] is an instant, counted in seconds and nanoseconds from the Unix
    epoch, together with the [Location] it is displayed in.  A [Location]
    is given by its zone lookup: for an instant, the offset east of UTC in
    seconds and the bounds of the period in which that offset applies.  The
    calendar arithmetic of the library is written over mathematical
    integers, with days counted from 1 January of year 1. *)
Module time.
Local Open Scope Z_scope.

Definition Location : Type := Z → Z * Z * Z.

Definition alpha : Z := - 2 ^ 63.
Definition omega : Z := 2 ^ 63 - 1.

Definition UTC : Location := λ _, (0, alpha, omega).
Definition FixedZone (offset : Z) : Location := λ _, (offset, alpha, omega).

Record Time := { sec : Z; nsec : Z; loc : Location }.

Definition secondsPerDay : Z := 86400.
Definition daysPer400Years : Z := 146097.
Definition daysPer100Years : Z := 36524.
Definition daysPer4Years : Z := 1461.
(** Days from 1 January of year 1 to the Unix epoch. *)
Definition unixEpochDay : Z := 719162.

Definition isLeap (year : Z) : bool :=
  (year mod 4 =? 0) && (negb (year mod 100 =? 0) || (year mod 400 =? 0)).

(** [daysBefore[m]]: the days of a non-leap year before month [m+1]. *)
Definition daysBefore (m : Z) : Z :=
  match m with
  | 0 => 0 | 1 => 31 | 2 => 59 | 3 => 90 | 4 => 120 | 5 => 151 | 6 => 181
  | 7 => 212 | 8 => 243 | 9 => 273 | 10 => 304 | 11 => 334 | _ => 365
  end.

Definition daysIn (m year : Z) : Z :=
  if (m =? 2) && isLeap year then 29 else daysBefore m - daysBefore (m - 1).

(** Days from 1 January of year 1 to 1 January of [year]. *)
Definition daysSinceEpoch (year : Z) : Z :=
  let y := year - 1 in
  let n400 := y / 400 in
  let y := y - 400 * n400 in
  let n100 := y / 100 in
  let y := y - 100 * n100 in
  let n4 := y / 4 in
  let y := y - 4 * n4 in
  daysPer400Years * n400 + daysPer100Years * n100 + daysPer4Years * n4 + 365 * y.

(** The days from 1 January of year 1 to a date: the days before the year,
    before the month (one more after February in a leap year) and before
    the day. *)
Definition dayNumber (year month day : Z) : Z :=
  daysSinceEpoch year + daysBefore (month - 1)
  + (if isLeap year && (3 <=? month) then 1 else 0) + (day - 1).

(** [norm hi lo base]: carries [lo] into [hi] until [0 <= lo < base]. *)
Definition norm (hi lo base : Z) : Z * Z := (hi + lo / base, lo mod base).

(** [time.Date]. *)
Definition Date (year month day hour min sec nsec : Z) (l : Location) : Time :=
  let '(year, m) := norm year (month - 1) 12 in
  let month := m + 1 in
  let '(sec, nsec) := norm sec nsec 1000000000 in
  let '(min, sec) := norm min sec 60 in
  let '(hour, min) := norm hour min 60 in
  let '(day, hour) := norm day hour 24 in
  let d := dayNumber year month day in
  let unix := (d - unixEpochDay) * secondsPerDay + hour * 3600 + min * 60 + sec in
  let '(offset, start, end_) := l unix in
  let unix :=
    if offset =? 0 then unix
    else
      let utc := unix - offset in
      let offset :=
        if (utc <? start) || (end_ <=? utc) then fst (fst (l utc)) else offset in
      unix - offset in
  {| sec := unix; nsec := nsec; loc := l |}.

(** Seconds of the wall clock shown by [t], counted from year 1. *)
Definition abs (t : Time) : Z :=
  sec t + fst (fst (loc t (sec t))) + unixEpochDay * secondsPerDay.

(** The year and the day within the year (from 0) of a day number. *)
Definition absYear (d : Z) : Z * Z :=
  let n := d / daysPer400Years in
  let y := 400 * n in
  let d := d - daysPer400Years * n in
  let n := d / daysPer100Years in
  let n := n - n / 4 in
  let y := y + 100 * n in
  let d := d - daysPer100Years * n in
  let n := d / daysPer4Years in
  let y := y + 4 * n in
  let d := d - daysPer4Years * n in
  let n := d / 365 in
  let n := n - n / 4 in
  let y := y + n in
  let d := d - 365 * n in
  (y + 1, d).

(** [absDate]: year, month, day of the month and day of the year (from 0). *)
Definition absDate (a : Z) : Z * Z * Z * Z :=
  let '(year, yday) := absYear (a / secondsPerDay) in
  if isLeap year && (yday =? 31 + 29 - 1) then (year, 2, 29, yday)
  else
    let day := if isLeap year && (31 + 29 - 1 <? yday) then yday - 1 else yday in
    let month := day / 31 in
    let end_ := daysBefore (month + 1) in
    let '(month, begin) :=
      if end_ <=? day then (month + 1, end_) else (month, daysBefore month) in
    (year, month + 1, day - begin + 1, yday).

Definition Year (t : Time) : Z := fst (fst (fst (absDate (abs t)))).
Definition Month (t : Time) : Z := snd (fst (fst (absDate (abs t)))).
Definition Day (t : Time) : Z := snd (fst (absDate (abs t))).
Definition YearDay (t : Time) : Z := snd (absDate (abs t)) + 1.

(** [t.Clock()]: hour, minute and second within the day. *)
Definition Clock (t : Time) : Z * Z * Z :=
  let s := abs t mod secondsPerDay in
  (s / 3600, (s mod 3600) / 60, s mod 60).

Definition Before (t u : Time) : bool :=
  (sec t <? sec u) || ((sec t =? sec u) && (nsec t <? nsec u)).

Definition After (t u : Time) : bool :=
  (sec u <? sec t) || ((sec t =? sec u) && (nsec u <? nsec t)).

(** [t.AddDate(years, months, days)]. *)
Definition AddDate (t : Time) (years months days : Z) : Time :=
  let '(hour, min, s) := Clock t in
  Date (Year t + years) (Month t + months) (Day t + days) hour min s (nsec t) (loc t).

(** *** Parsing with the layout ["2006-01-02"] *)

Definition isDigit (c : ascii) : bool :=
  let n := N_of_ascii c in ((48 <=? n) && (n <=? 57))%N.

Definition digit (c : ascii) : Z := Z.of_N (N_of_ascii c) - 48.

(** [getnum s true]: exactly two digits are read. *)
Definition getnum2 (s : string) : option (Z * string) :=
  match s with
  | String a (String b rest) =>
      if isDigit a && isDigit b then Some (digit a * 10 + digit b, rest) else None
  | _ => None
  end.

(** The year of the layout: the next four bytes, all digits. *)
Definition getnum4 (s : string) : option (Z * string) :=
  match s with
  | String a (String b (String c (String d rest))) =>
      if isDigit a && isDigit b && isDigit c && isDigit d
      then Some (((digit a * 10 + digit b) * 10 + digit c) * 10 + digit d, rest)
      else None
  | _ => None
  end.

(** [skip value "-"]. *)
Definition skipDash (s : string) : option string :=
  match s with
  | String c rest => if Ascii.eqb c "-" then Some rest else None
  | EmptyString => None
  end.

(** The fields [time.Parse] reads with the layout ["2006-01-02"]: a year of
    four digits, a month and a day of two, with dashes between and nothing
    after; the month and then the day are checked against the calendar.
    [None] stands for a non-nil error. *)
Definition parseFields (value : string) : option (Z * Z * Z) :=
  '(year, value) ← getnum4 value;
  value ← skipDash value;
  '(month, value) ← getnum2 value;
  if (month <=? 0) || (12 <? month) then None else
  value ← skipDash value;
  '(day, value) ← getnum2 value;
  if negb (strings.isEmpty value) then None else
  if (day <? 1) || (daysIn month year <? day) then None else
  Some (year, month, day).

(** [time.Parse("2006-01-02", value)]: the date read, at midnight in UTC. *)
Definition Parse (value : string) : option Time :=
  '(year, month, day) ← parseFields value;
  Some (Date year month day 0 0 0 0 UTC).

(** *** Writing a date with the layout ["2006-01-02"] *)

Definition digitChar (n : Z) : ascii := ascii_of_N (Z.to_N (48 + n)).

Definition twoDigits (n : Z) : string :=
  String (digitChar (n / 10)) (String (digitChar (n mod 10)) EmptyString).

(** The text of a date whose year has at most four digits: the year on
    four digits, the month and the day on two, with dashes between. *)
Definition dateText (year month day : Z) : string :=
  String.append (twoDigits (year / 100))
    (String.append (twoDigits (year mod 100))
       (String "-" (String.append (twoDigits month) (String "-" (twoDigits day))))).

End time.

(** ** Package [strconv] *)
Module strconv.
Local Open Scope Z_scope.

(** The value of a run of decimal digits after [n]; [None] when a byte is
    not a digit. *)
Fixpoint digits (n : Z) (s : string) : option Z :=
  match s with
  | EmptyString => Some n
  | String ch s' =>
      if time.isDigit ch then digits (n * 10 + time.digit ch) s' else None
  end.

(** [strconv.Atoi]: an optional sign and at least one decimal digit, for a
    value an [int] holds.  [None] stands for a non-nil error. *)
Definition Atoi (s : string) : option Z :=
  match s with
  | EmptyString => None
  | String s0 rest =>
      let body := if Ascii.eqb s0 "-" || Ascii.eqb s0 "+" then rest else s in
      match body with
      | EmptyString => None
      | _ =>
          n ← digits 0 body;
          let n := if Ascii.eqb s0 "-" then - n else n in
          if (GoInt.minInt <=? n) && (n <=? GoInt.maxInt) then Some n else None
      end
  end.

End strconv.


(** ** Package [taskdata] *)
Module taskdata.
Import strings.
Local Open Scope Z_scope.

Record Task := {
  ID : Z;
  Description : string;
  DueDate : string;
  Priority : string;
  Completed : bool
}.

Record TaskStore := {
  Tasks : list Task;
  NextID : Z
}.

(** The errors the package builds with [fmt.Errorf]. *)
Inductive error :=
| ErrInvalidPriority (priority : string)
| ErrInvalidDateFormat (date : string)
| ErrInvalidDate (date : string)
| ErrTaskNotFound (id : Z).

(** The store [LoadTasks] creates when there is no data file. *)
Definition emptyStore : TaskStore := {| Tasks := []; NextID := 1 |}.

Definition withCompleted (completed : bool) (t : Task) : Task :=
  {| ID := ID t; Description := Description t; DueDate := DueDate t;
     Priority := Priority t; Completed := completed |}.

(** The regular expression [^\d{4}-\d{2}-\d{2}$]. *)
Definition dateRegexMatchString (date : string) : bool :=
  match list_ascii_of_string date with
  | [y1; y2; y3; y4; s1; m1; m2; s2; d1; d2] =>
      time.isDigit y1 && time.isDigit y2 && time.isDigit y3 && time.isDigit y4
      && Ascii.eqb s1 "-" && time.isDigit m1 && time.isDigit m2
      && Ascii.eqb s2 "-" && time.isDigit d1 && time.isDigit d2
  | _ => false
  end.

(** [ValidateDate]; [None] is the nil error. *)
Definition ValidateDate (date : string) : option error :=
  if isEmpty date then None
  else if negb (dateRegexMatchString date) then Some (ErrInvalidDateFormat date)
  else match time.Parse date with
       | None => Some (ErrInvalidDate date)
       | Some _ => None
       end.

Section WithUnicode.
Context `{!Unicode}.

Definition validPriorities : list string :=
  ["low"; "L"; "N"; "normal"; "H"; "high"]%string.

(** [ValidatePriority]: the lower-cased priority is looked for in the
    list of valid priorities. *)
Definition ValidatePriority (priority : string) : option error :=
  let priority := ToLower priority in
  if existsb (String.eqb priority) validPriorities then None
  else Some (ErrInvalidPriority priority).

(** [AddTask]: the result (the new task or an error) and the store
    after the call. *)
Definition AddTask (store : TaskStore) (description dueDate priority : string)
  : (error + Task) * TaskStore :=
  match ValidateDate dueDate with
  | Some err => (inl err, store)
  | None =>
      match ValidatePriority priority with
      | Some err => (inl err, store)
      | None =>
          let task := {| ID := NextID store; Description := description;
                         DueDate := dueDate; Priority := ToLower priority;
                         Completed := false |} in
          (inr task,
           {| Tasks := Tasks store ++ [task];
              NextID := GoInt.incr (NextID store) |})
      end
  end.
End WithUnicode.

(** The loop of [CompleteTask] from index [i] on, [rest] being the tasks
    still to be visited; the assignment goes to element [i] of the
    store's slice. *)
Fixpoint CompleteTaskFrom (store : TaskStore) (id : Z) (i : nat) (rest : list Task)
  : option error * TaskStore :=
  match rest with
  | [] => (Some (ErrTaskNotFound id), store)
  | task :: rest' =>
      if ID task =? id
      then (None, {| Tasks := alter (withCompleted true) i (Tasks store);
                     NextID := NextID store |})
      else CompleteTaskFrom store id (S i) rest'
  end.

Definition CompleteTask (store : TaskStore) (id : Z) : option error * TaskStore :=
  CompleteTaskFrom store id 0%nat (Tasks store).

End taskdata.

(** ** Package [sort]

    [sort.Slice] is Go's library sort.  It is not stable, and where it puts
    elements that compare equal is not part of its contract, so the program
    is read relative to any implementation that honours the contract: the
    result is a rearrangement of the slice, and it is ordered whenever the
    comparison is a strict weak order. *)
Module sort.

Record StrictWeakOrder {A : Type} (less : A → A → bool) : Prop := {
  less_irrefl : ∀ x, less x x = false;
  less_trans : ∀ x y z, less x y = true → less y z = true → less x z = true;
  less_neg_trans : ∀ x y z, less x y = false → less y z = false → less x z = false
}.

(** No element is smaller than one placed before it. *)
Definition Ordered {A : Type} (less : A → A → bool) (l : list A) : Prop :=
  StronglySorted (λ x y, less y x = false) l.

Class Sorter := {
  Slice : ∀ A : Type, (A → A → bool) → list A → list A
}.
Global Arguments Slice {_ _} _ _.

Class SorterContract (sorter : Sorter) : Prop := {
  Slice_permutation : ∀ A less (l : list A), Permutation (Slice less l) l;
  Slice_ordered : ∀ A less (l : list A),
    StrictWeakOrder less → Ordered less (Slice less l)
}.

(** The insertion sort [sort.Slice] itself runs on short slices: each
    element moves toward the front while it is smaller than the element
    before it.  [sorted] is the sorted prefix, nearest element first. *)
Fixpoint insertBack {A : Type} (less : A → A → bool) (x : A) (sorted : list A) : list A :=
  match sorted with
  | [] => [x]
  | y :: sorted' =>
      if less x y then y :: insertBack less x sorted' else x :: sorted
  end.

Definition insertionSort {A : Type} (less : A → A → bool) (l : list A) : list A :=
  rev (fold_left (λ sorted x, insertBack less x sorted) l []).

Definition insertionSorter : Sorter := {| Slice := @insertionSort |}.

(** The sorted prefix of the insertion sort, read from its end: no element
    is smaller than one further from the end. *)
Definition Descending {A : Type} (less : A → A → bool) (l : list A) : Prop :=
  StronglySorted (λ x y, less x y = false) l.

End sort.

(** ** Package [cmd] *)
Module cmd.
Import strings taskdata.
Local Open Scope Z_scope.

(** *** The list view *)

Record filterOptions := {
  timeFilter : string;
  priority : string;
  showCompleted : bool;
  showPending : bool;
  showOverdue : bool;
  showDueSoon : bool;
  showNoDate : bool
}.

(** The start of the calendar day [t] shows, in [t]'s location. *)
Definition startOfDay (t : time.Time) : time.Time :=
  time.Date (time.Year t) (time.Month t) (time.Day t) 0 0 0 0 (time.loc t).

Definition isOverdue (task : Task) (now : time.Time) : bool :=
  if Completed task || isEmpty (DueDate task) then false
  else match time.Parse (DueDate task) with
       | None => false
       | Some dueDate =>
           let today := startOfDay now in
           let taskDate := startOfDay dueDate in
           time.Before taskDate today
       end.

Definition isDueSoon (task : Task) (now : time.Time) : bool :=
  if Completed task || isEmpty (DueDate task) then false
  else match time.Parse (DueDate task) with
       | None => false
       | Some dueDate =>
           let threeDaysFromNow := time.AddDate now 0 0 3 in
           negb (time.Before dueDate now) && negb (time.After dueDate threeDaysFromNow)
       end.

Definition isSameDay (date1 date2 : time.Time) : bool :=
  (time.Year date1 =? time.Year date2) && (time.Month date1 =? time.Month date2)
  && (time.Day date1 =? time.Day date2).

Definition isInWeekRange (date now : time.Time) : bool :=
  let startOfRange := startOfDay now in
  let endOfRange := time.AddDate startOfRange 0 0 6 in
  let normalizedDate := startOfDay date in
  negb (time.Before normalizedDate startOfRange)
  && negb (time.After normalizedDate endOfRange).

Definition isSameMonth (date1 date2 : time.Time) : bool :=
  (time.Year date1 =? time.Year date2) && (time.Month date1 =? time.Month date2).

Definition matchesTimeFilter (task : Task) (timeFilter : string) (now : time.Time) : bool :=
  if String.eqb timeFilter "all" then true
  else if isEmpty (DueDate task) then true
  else match time.Parse (DueDate task) with
       | None => false
       | Some dueDate =>
           if String.eqb timeFilter "today" then isSameDay dueDate now
           else if String.eqb timeFilter "week" then isInWeekRange dueDate now
           else if String.eqb timeFilter "month" then isSameMonth dueDate now
           else true
       end.

(** The map literal of the two comparison functions; a key that is absent
    reads as 0. *)
Definition priorityOrder : gmap string Z :=
  {[ "high"%string := 3; "normal"%string := 2; "low"%string := 1 ]}.

Definition priorityRank (p : string) : Z := default 0 (priorityOrder !! p).

(** The comparison handed to [sort.Slice] by [filterTasks]. *)
Definition filterLess (a b : Task) : bool :=
  if negb (Bool.eqb (Completed a) (Completed b)) then negb (Completed a)
  else if negb (priorityRank (Priority a) =? priorityRank (Priority b))
  then priorityRank (Priority b) <? priorityRank (Priority a)
  else if negb (isEmpty (DueDate a)) && negb (isEmpty (DueDate b))
  then lt (DueDate a) (DueDate b)
  else if negb (isEmpty (DueDate a)) then true
  else false.

Definition getDueSoonTasks (tasks : list Task) (now : time.Time) : list Task :=
  List.filter (λ task, negb (Completed task) && isDueSoon task now) tasks.

Section WithLibrary.
Context `{!Unicode} `{!sort.Sorter}.

Definition matchesPriority (task : Task) (priority : string) : bool :=
  let priority := ToLower priority in
  let priority :=
    if String.eqb priority "h" then "high"%string
    else if String.eqb priority "n" then "normal"%string
    else if String.eqb priority "l" then "low"%string
    else priority in
  String.eqb (Priority task) priority.

(** The body of the loop of [filterTasks]: [true] when the task reaches
    the [append], [false] when one of the [continue]s is taken. *)
Definition passesFilters (opts : filterOptions) (now : time.Time) (task : Task) : bool :=
  if showOverdue opts && negb (isOverdue task now) then false
  else if showDueSoon opts && negb (isDueSoon task now) then false
  else if showNoDate opts && negb (isEmpty (DueDate task)) then false
  else if negb (showOverdue opts) && negb (showDueSoon opts) && negb (showNoDate opts)
          && negb (matchesTimeFilter task (timeFilter opts) now) then false
  else if negb (isEmpty (priority opts)) && negb (matchesPriority task (priority opts))
  then false
  else if showCompleted opts && negb (showPending opts)
  then (if negb (Completed task) then false else true)
  else if showPending opts && negb (showCompleted opts)
  then (if Completed task then false else true)
  else true.

Fixpoint filterLoop (opts : filterOptions) (now : time.Time)
    (tasks filtered : list Task) : list Task :=
  match tasks with
  | [] => filtered
  | task :: tasks' =>
      if passesFilters opts now task
      then filterLoop opts now tasks' (filtered ++ [task])
      else filterLoop opts now tasks' filtered
  end.

(** [filterTasks]; [now] is the value of [time.Now()]. *)
Definition filterTasks (tasks : list Task) (opts : filterOptions) (now : time.Time)
  : list Task :=
  sort.Slice filterLess (filterLoop opts now tasks []).
End WithLibrary.

(** *** The mark view *)

Definition isTaskOverdue (task : Task) (now : time.Time) : bool :=
  if Completed task || isEmpty (DueDate task) then false
  else match time.Parse (DueDate task) with
       | None => false
       | Some dueDate =>
           let today := startOfDay now in
           let taskDate := startOfDay dueDate in
           time.Before taskDate today
       end.

Definition isTaskDueToday (task : Task) (now : time.Time) : bool :=
  if isEmpty (DueDate task) then false
  else match time.Parse (DueDate task) with
       | None => false
       | Some dueDate =>
           (time.Year dueDate =? time.Year now)
           && (time.YearDay dueDate =? time.YearDay now)
       end.

Definition calculateTaskHealthScore (total completed overdue highPriorityPending : Z) : Z :=
  if total =? 0 then 100
  else
    let completionBonus := GoInt.div (GoInt.mul completed 100) total in
    let overduePenalty := GoInt.mul overdue 20 in
    let highPriorityPenalty := GoInt.mul highPriorityPending 10 in
    let score := GoInt.sub (GoInt.sub completionBonus overduePenalty) highPriorityPenalty in
    let score := if score <? 0 then 0 else score in
    let score := if 100 <? score then 100 else score in
    score.

(** The counters of [analyzeTaskPatterns]. *)
Record patternCounts := {
  completedTasks : Z;
  overdueTasks : Z;
  todayTasks : Z;
  highPriorityPending : Z
}.

Definition countTask (now : time.Time) (c : patternCounts) (task : Task) : patternCounts :=
  if Completed task
  then {| completedTasks := GoInt.incr (completedTasks c);
          overdueTasks := overdueTasks c;
          todayTasks := todayTasks c;
          highPriorityPending := highPriorityPending c |}
  else
    {| completedTasks := completedTasks c;
       overdueTasks :=
         if isTaskOverdue task now then GoInt.incr (overdueTasks c) else overdueTasks c;
       todayTasks :=
         if isTaskDueToday task now then GoInt.incr (todayTasks c) else todayTasks c;
       highPriorityPending :=
         if String.eqb (Priority task) "high"
         then GoInt.incr (highPriorityPending c) else highPriorityPending c |}.

Definition countPatterns (tasks : list Task) (now : time.Time) : patternCounts :=
  fold_left (countTask now) tasks
    {| completedTasks := 0; overdueTasks := 0; todayTasks := 0; highPriorityPending := 0 |}.

(** [analyzeTaskPatterns]: the health score it prints. *)
Definition analyzeTaskPatterns (store : TaskStore) (now : time.Time) : Z :=
  let totalTasks := Z.of_nat (length (Tasks store)) in
  let c := countPatterns (Tasks store) now in
  calculateTaskHealthScore totalTasks (completedTasks c) (overdueTasks c)
    (highPriorityPending c).

(** The loop of [updateTaskCompletion], as for [CompleteTask]. *)
Fixpoint updateTaskCompletionFrom (store : TaskStore) (id : Z) (completed : bool)
    (i : nat) (rest : list Task) : option error * TaskStore :=
  match rest with
  | [] => (Some (ErrTaskNotFound id), store)
  | task :: rest' =>
      if ID task =? id
      then (None, {| Tasks := alter (withCompleted completed) i (Tasks store);
                     NextID := NextID store |})
      else updateTaskCompletionFrom store id completed (S i) rest'
  end.

Definition updateTaskCompletion (store : TaskStore) (id : Z) (completed : bool)
  : option error * TaskStore :=
  updateTaskCompletionFrom store id completed 0%nat (Tasks store).

(** *** The delete view *)

(** [getOverdueTasks]; [now] is the value of [time.Now()]. *)
Definition overdueForDeletion (now : time.Time) (task : Task) : bool :=
  if Completed task || isEmpty (DueDate task) then false
  else match time.Parse (DueDate task) with
       | None => false
       | Some dueDate => time.Before dueDate now
       end.

Definition getOverdueTasks (tasks : list Task) (now : time.Time) : list Task :=
  List.filter (overdueForDeletion now) tasks.

(** The loop of [deleteTaskByID]: the first task with the identifier is cut
    out of the store's slice. *)
Fixpoint deleteTaskByIDFrom (store : TaskStore) (id : Z) (i : nat) (rest : list Task)
  : bool * TaskStore :=
  match rest with
  | [] => (false, store)
  | task :: rest' =>
      if ID task =? id
      then (true, {| Tasks := take i (Tasks store) ++ drop (S i) (Tasks store);
                     NextID := NextID store |})
      else deleteTaskByIDFrom store id (S i) rest'
  end.

Definition deleteTaskByID (store : TaskStore) (id : Z) : bool * TaskStore :=
  deleteTaskByIDFrom store id 0%nat (Tasks store).

Definition shouldKeepExisting (existing new : Task) : bool :=
  if negb (isEmpty (DueDate existing)) && isEmpty (DueDate new) then true
  else if isEmpty (DueDate existing) && negb (isEmpty (DueDate new)) then false
  else priorityRank (Priority new) <=? priorityRank (Priority existing).

(** [float64(n)] for a count, which is not negative. *)
Definition float64 (n : Z) : float := PrimFloat.of_uint63 (Uint63.of_Z n).

Section WithUnicode.
Context `{!Unicode}.

(** The description as [findDuplicateTasks] compares it. *)
Definition normalizeDescription (description : string) : string :=
  ReplaceAll (ToLower (TrimSpace description)) "  " " ".

(** One round of the loop of [findDuplicateTasks]. *)
Definition findDuplicateStep (st : list Task * gmap string Task) (task : Task)
  : list Task * gmap string Task :=
  let '(duplicates, seen) := st in
  if Completed task then st
  else
    let normalized := normalizeDescription (Description task) in
    match seen !! normalized with
    | Some existing =>
        if shouldKeepExisting existing task
        then (duplicates ++ [task], seen)
        else (duplicates ++ [existing], <[normalized := task]> seen)
    | None => (duplicates, <[normalized := task]> seen)
    end.

Definition findDuplicateTasks (tasks : list Task) : list Task :=
  fst (fold_left findDuplicateStep tasks ([], ∅)).

(** The pattern words of [calculateSimilarityScore] found in the text. *)
Definition countMatches (words patternWords : list string) : Z :=
  fold_left
    (λ matches pw,
       if existsb (λ tw, HasPrefix tw pw || Contains tw pw) words
       then GoInt.incr matches else matches)
    patternWords 0.

#[warnings="-inexact-float"]
Definition calculateSimilarityScore (text pattern : string) : float :=
  let text := ToLower text in
  let pattern := ToLower pattern in
  if String.eqb text pattern then 1.0%float
  else if Contains text pattern then 0.8%float
  else
    let words := Fields text in
    let patternWords := Fields pattern in
    let matches := countMatches words patternWords in
    if (0 <? length patternWords)%nat
    then (float64 matches / float64 (Z.of_nat (length patternWords)) * 0.6)%float
    else 0.0%float.

(** *** What the loop of [findDuplicateTasks] maintains *)

Definition isPending (task : Task) : bool := negb (Completed task).

(** The key under which [findDuplicateTasks] files a task. *)
Definition duplicateKey (task : Task) : string := normalizeDescription (Description task).

(** [visited] being the pending tasks seen so far: the keys of [seen] are
    the keys of the visited tasks, the tasks it holds and the duplicates are
    visited tasks, and there is a duplicate exactly when two visited tasks
    share a key. *)
Record duplicatesInvariant (st : list Task * gmap string Task) (visited : list Task) : Prop := {
  seen_keys : ∀ k, is_Some (st.2 !! k) ↔ In k (map duplicateKey visited);
  seen_visited : ∀ k t, st.2 !! k = Some t → In t visited;
  duplicates_visited : ∀ t, In t st.1 → In t visited;
  duplicates_nil : st.1 = [] ↔ NoDup (map duplicateKey visited)
}.
End WithUnicode.

(** *** Counting tasks *)

(** The number of tasks of a list that satisfy a test. *)
Definition countWhere (p : Task → bool) (tasks : list Task) : Z :=
  Z.of_nat (length (List.filter p tasks)).

Definition isPendingOverdue (now : time.Time) (task : Task) : bool :=
  negb (Completed task) && isTaskOverdue task now.

Definition isPendingDueToday (now : time.Time) (task : Task) : bool :=
  negb (Completed task) && isTaskDueToday task now.

Definition isPendingHigh (task : Task) : bool :=
  negb (Completed task) && String.eqb (Priority task) "high".

(** *** More of the list view *)

Definition getTimeFilter (week month all : bool) : string :=
  if week then "week" else if month then "month" else if all then "all" else "today".

Definition getCriticalTasks (tasks : list Task) (now : time.Time) : list Task :=
  List.filter
    (λ task, negb (Completed task)
             && (isOverdue task now
                 || (String.eqb (Priority task) "high" && isDueSoon task now)))
    tasks.

Definition getTodayTasks (tasks : list Task) (now : time.Time) : list Task :=
  List.filter
    (λ task, negb (Completed task) && negb (isEmpty (DueDate task))
             && match time.Parse (DueDate task) with
                | Some dueDate => isSameDay dueDate now
                | None => false
                end)
    tasks.

Definition getQuickWins (tasks : list Task) : list Task :=
  List.filter
    (λ task, negb (Completed task) && String.eqb (Priority task) "low"
             && isEmpty (DueDate task))
    tasks.

Definition getOverdueTasksWithTime (tasks : list Task) (now : time.Time) : list Task :=
  List.filter (λ task, isOverdue task now) tasks.

Definition getNoDateTasks (tasks : list Task) : list Task :=
  List.filter (λ task, negb (Completed task) && isEmpty (DueDate task)) tasks.

Definition getHighPriorityPendingCount (tasks : list Task) : Z :=
  fold_left
    (λ count task,
       if negb (Completed task) && String.eqb (Priority task) "high"
       then GoInt.incr count else count)
    tasks 0.

(** [getPriorityBreakdown]: the counts for high, normal and low. *)
Definition getPriorityBreakdown (tasks : list Task) : Z * Z * Z :=
  fold_left
    (λ '(high, normal, low) task,
       if Completed task then (high, normal, low)
       else if String.eqb (Priority task) "high" then (GoInt.incr high, normal, low)
       else if String.eqb (Priority task) "normal" then (high, GoInt.incr normal, low)
       else if String.eqb (Priority task) "low" then (high, normal, GoInt.incr low)
       else (high, normal, low))
    tasks (0, 0, 0).

(** The counters of [displayInsights]. *)
Module insights.
Record counts := {
  total : Z;
  completed : Z;
  pending : Z;
  overdue : Z;
  dueSoon : Z;
  noDate : Z
}.
End insights.

Definition countInsight (now : time.Time) (c : insights.counts) (task : Task)
  : insights.counts :=
  if Completed task
  then {| insights.total := insights.total c;
          insights.completed := GoInt.incr (insights.completed c);
          insights.pending := insights.pending c;
          insights.overdue := insights.overdue c;
          insights.dueSoon := insights.dueSoon c;
          insights.noDate := insights.noDate c |}
  else
    {| insights.total := insights.total c;
       insights.completed := insights.completed c;
       insights.pending := GoInt.incr (insights.pending c);
       insights.overdue :=
         if isOverdue task now then GoInt.incr (insights.overdue c)
         else insights.overdue c;
       insights.dueSoon :=
         if isOverdue task now then insights.dueSoon c
         else if isDueSoon task now then GoInt.incr (insights.dueSoon c)
         else insights.dueSoon c;
       insights.noDate :=
         if isEmpty (DueDate task) then GoInt.incr (insights.noDate c)
         else insights.noDate c |}.

(** [displayInsights]: the counters it prints; [now] is the value of
    [time.Now()]. *)
Definition displayInsights (store : TaskStore) (now : time.Time) : insights.counts :=
  fold_left (countInsight now) (Tasks store)
    {| insights.total := Z.of_nat (length (Tasks store));
       insights.completed := 0; insights.pending := 0; insights.overdue := 0;
       insights.dueSoon := 0; insights.noDate := 0 |}.

(** The three counters of [displayStatistics]: due today, this week and
    this month. *)
Definition countStatistics (now : time.Time) (c : Z * Z * Z) (task : Task) : Z * Z * Z :=
  let '(todayCount, thisWeekCount, thisMonthCount) := c in
  if negb (Completed task) && negb (isEmpty (DueDate task))
  then match time.Parse (DueDate task) with
       | None => c
       | Some dueDate =>
           (if isSameDay dueDate now then GoInt.incr todayCount else todayCount,
            if isInWeekRange dueDate now then GoInt.incr thisWeekCount else thisWeekCount,
            if isSameMonth dueDate now then GoInt.incr thisMonthCount else thisMonthCount)
       end
  else c.

Definition displayStatistics (store : TaskStore) (now : time.Time) : Z * Z * Z :=
  fold_left (countStatistics now) (Tasks store) (0, 0, 0).

(** *** More of the mark view *)

(** The error of the three field updates, built with
    [fmt.Errorf("task not found")]. *)
Inductive updateError := TaskNotFound.

Definition withDueDate (newDue : string) (t : Task) : Task :=
  {| ID := ID t; Description := Description t; DueDate := newDue;
     Priority := Priority t; Completed := Completed t |}.

Definition withPriority (newPriority : string) (t : Task) : Task :=
  {| ID := ID t; Description := Description t; DueDate := DueDate t;
     Priority := newPriority; Completed := Completed t |}.

Definition withDescription (newDesc : string) (t : Task) : Task :=
  {| ID := ID t; Description := newDesc; DueDate := DueDate t;
     Priority := Priority t; Completed := Completed t |}.

(** The loop shared by [updateTaskDueDate], [updateTaskPriority] and
    [updateTaskDescription]: the field of element [i] of the store's slice
    is assigned for the first task with the identifier. *)
Fixpoint updateTaskFieldFrom (assign : Task → Task) (store : TaskStore) (id : Z)
    (i : nat) (rest : list Task) : option updateError * TaskStore :=
  match rest with
  | [] => (Some TaskNotFound, store)
  | task :: rest' =>
      if ID task =? id
      then (None, {| Tasks := alter assign i (Tasks store); NextID := NextID store |})
      else updateTaskFieldFrom assign store id (S i) rest'
  end.

Definition updateTaskDueDate (store : TaskStore) (id : Z) (newDue : string)
  : option updateError * TaskStore :=
  updateTaskFieldFrom (withDueDate newDue) store id 0%nat (Tasks store).

Definition updateTaskPriority (store : TaskStore) (id : Z) (newPriority : string)
  : option updateError * TaskStore :=
  updateTaskFieldFrom (withPriority newPriority) store id 0%nat (Tasks store).

Definition updateTaskDescription (store : TaskStore) (id : Z) (newDesc : string)
  : option updateError * TaskStore :=
  updateTaskFieldFrom (withDescription newDesc) store id 0%nat (Tasks store).

Definition getPendingTasks (store : TaskStore) : list Task :=
  List.filter (λ task, negb (Completed task)) (Tasks store).

(** [markAllTasks]: the count it prints and the store it saves. *)
Definition markAllTasks (store : TaskStore) (tasks : list Task) (undone : bool)
  : Z * TaskStore :=
  fold_left
    (λ '(count, store) task,
       match updateTaskCompletion store (ID task) (negb undone) with
       | (None, store) => (GoInt.incr count, store)
       | (Some _, store) => (count, store)
       end)
    tasks (0, store).

Definition getQuickWinTasks (store : TaskStore) : list Task :=
  List.filter
    (λ task, negb (Completed task) && String.eqb (Priority task) "low"
             && isEmpty (DueDate task))
    (Tasks store).

Definition getHighImpactTasks (store : TaskStore) (now : time.Time) : list Task :=
  List.filter (λ task, negb (Completed task) && String.eqb (Priority task) "high")
    (Tasks store).

Definition getOverdueTasksForRecovery (store : TaskStore) (now : time.Time) : list Task :=
  List.filter (λ task, isTaskOverdue task now) (Tasks store).

Definition getOldCompletedTasksForCleanup (store : TaskStore) : list Task :=
  List.filter (λ task, Completed task) (Tasks store).

Definition getStaleTasksForReview (store : TaskStore) (now : time.Time) : list Task :=
  List.filter
    (λ task, negb (Completed task) && isEmpty (DueDate task)
             && String.eqb (Priority task) "low")
    (Tasks store).

Definition getTodayTasksForCompletion (store : TaskStore) (now : time.Time) : list Task :=
  List.filter (λ task, negb (Completed task) && isTaskDueToday task now) (Tasks store).

Definition getHighPriorityPendingTasks (store : TaskStore) : list Task :=
  List.filter (λ task, negb (Completed task) && String.eqb (Priority task) "high")
    (Tasks store).

Definition getUpcomingDeadlines (store : TaskStore) (now : time.Time) : list Task :=
  let nextWeek := time.AddDate now 0 0 7 in
  List.filter
    (λ task, negb (Completed task) && negb (isEmpty (DueDate task))
             && match time.Parse (DueDate task) with
                | Some dueDate => time.After dueDate now && time.Before dueDate nextWeek
                | None => false
                end)
    (Tasks store).

(** [analyzePriorityDistribution]; a key that is absent reads as 0. *)
Definition analyzePriorityDistribution (store : TaskStore) : gmap string Z :=
  fold_left
    (λ dist task,
       if Completed task then dist
       else <[Priority task := GoInt.incr (default 0 (dist !! Priority task))]> dist)
    (Tasks store)
    {[ "high"%string := 0; "normal"%string := 0; "low"%string := 0 ]}.

(** How a call of [editTaskProperties] ends; the store is saved in the
    case [EditSaved] only. *)
Inductive editResult :=
| EditNotFound
| EditInvalidDueDate (err : error)
| EditInvalidPriority (err : error)
| EditSaved
| EditNoChanges.

Section MarkView.
Context `{!Unicode}.

Definition findTaskByIDOrName (store : TaskStore) (identifier : string) : option Task :=
  let byID :=
    match strconv.Atoi identifier with
    | Some id => List.find (λ task, ID task =? id) (Tasks store)
    | None => None
    end in
  match byID with
  | Some task => Some task
  | None =>
      let searchTerm := ToLower identifier in
      List.find (λ task, Contains (ToLower (Description task)) searchTerm) (Tasks store)
  end.

(** [editTaskProperties]: how the call ends and the store, in memory, at
    that point. *)
Definition editTaskProperties (store : TaskStore)
    (identifier newDue newPriority newDesc : string) : editResult * TaskStore :=
  match findTaskByIDOrName store identifier with
  | None => (EditNotFound, store)
  | Some task =>
      let dueStep :=
        if negb (isEmpty newDue)
        then match ValidateDate newDue with
             | Some err => inl err
             | None => inr (snd (updateTaskDueDate store (ID task) newDue), true)
             end
        else inr (store, false) in
      match dueStep with
      | inl err => (EditInvalidDueDate err, store)
      | inr (store, updated) =>
          let priorityStep :=
            if negb (isEmpty newPriority)
            then match ValidatePriority newPriority with
                 | Some err => inl err
                 | None =>
                     inr (snd (updateTaskPriority store (ID task) (ToLower newPriority)),
                          true)
                 end
            else inr (store, updated) in
          match priorityStep with
          | inl err => (EditInvalidPriority err, store)
          | inr (store, updated) =>
              let '(store, updated) :=
                if negb (isEmpty newDesc)
                then (snd (updateTaskDescription store (ID task) newDesc), true)
                else (store, updated) in
              if updated then (EditSaved, store) else (EditNoChanges, store)
          end
      end
  end.

(** [markTask]: whether the store is saved, and the store.  [confirmed] is
    the answer [confirmAction] gets when it asks. *)
Definition markTask (store : TaskStore) (identifier : string)
    (undone force confirmed : bool) : bool * TaskStore :=
  match findTaskByIDOrName store identifier with
  | None => (false, store)
  | Some task =>
      if negb force && negb confirmed then (false, store)
      else match updateTaskCompletion store (ID task) (negb undone) with
           | (Some _, store) => (false, store)
           | (None, store) => (true, store)
           end
  end.

(** [markSelectedTasks]: the count it prints and the store it saves. *)
Definition markSelectedTasks (store : TaskStore) (tasks : list Task) (input : string)
    (undone : bool) : Z * TaskStore :=
  fold_left
    (λ '(count, store) sel,
       let sel := TrimSpace sel in
       match strconv.Atoi sel with
       | Some idx =>
           if (0 <? idx) && (idx <=? Z.of_nat (length tasks))
           then match tasks !! Z.to_nat (idx - 1) with
                | Some task =>
                    match updateTaskCompletion store (ID task) (negb undone) with
                    | (None, store) => (GoInt.incr count, store)
                    | (Some _, store) => (count, store)
                    end
                | None => (count, store)
                end
           else (count, store)
       | None => (count, store)
       end)
    (Split input ",") (0, store).

(** [performBatchOperations]: the store it saves, [None] when it returns
    before saving.  [input] is the line read when [force] is not set. *)
Definition performBatchOperations (store : TaskStore) (undone force : bool)
    (input : string) : option TaskStore :=
  let pendingTasks := getPendingTasks store in
  if (length pendingTasks =? 0)%nat then None
  else if negb force
  then
    let input := TrimSpace input in
    if String.eqb input "all"
    then Some (snd (markAllTasks store pendingTasks undone))
    else Some (snd (markSelectedTasks store pendingTasks input undone))
  else Some (snd (markAllTasks store pendingTasks undone)).
(** The task [editTaskProperties] leaves in place of [task]. *)
Definition edited (newDue newPriority newDesc : string) (task : Task) : Task :=
  {| ID := ID task;
     Description := if isEmpty newDesc then Description task else newDesc;
     DueDate := if isEmpty newDue then DueDate task else newDue;
     Priority := if isEmpty newPriority then Priority task else ToLower newPriority;
     Completed := Completed task |}.
End MarkView.

(** *** More of the delete view *)

Definition getCompletedTasks (tasks : list Task) : list Task :=
  List.filter (λ task, Completed task) tasks.

Definition getOldCompletedTasks (tasks : list Task) : list Task :=
  List.filter (λ task, Completed task) tasks.

Definition getCompletedHighPriorityTasks (tasks : list Task) : list Task :=
  List.filter (λ task, Completed task && String.eqb (Priority task) "high") tasks.

Definition findTaskByID (tasks : list Task) (id : Z) : option Task :=
  List.find (λ task, ID task =? id) tasks.

(** [deleteTasks]: the number of tasks deleted and the store; the store is
    saved when the number is positive.  [tasks] holds the elements of a
    slice whose array is apart from the store's, as the slices are that the
    callers build with [append]; [shared.deleteTasks] below is the function
    on the slices that may share the array of the store. *)
Definition deleteTasks (store : TaskStore) (tasks : list Task) : Z * TaskStore :=
  fold_left
    (λ '(deleted, store) task,
       match deleteTaskByID store (ID task) with
       | (true, store) => (GoInt.incr deleted, store)
       | (false, store) => (deleted, store)
       end)
    tasks (0, store).

Definition getOverdueHighPriorityTasks (tasks : list Task) (now : time.Time) : list Task :=
  List.filter
    (λ task, negb (Completed task) && String.eqb (Priority task) "high"
             && negb (isEmpty (DueDate task))
             && match time.Parse (DueDate task) with
                | Some dueDate =>
                    let today :=
                      time.Date (time.Year now) (time.Month now) (time.Day now)
                        0 0 0 0 (time.loc now) in
                    let taskDate :=
                      time.Date (time.Year dueDate) (time.Month dueDate) (time.Day dueDate)
                        0 0 0 0 (time.loc dueDate) in
                    time.Before taskDate today
                | None => false
                end)
    tasks.

Definition getOldCompletedTasksSmart (tasks : list Task) (now : time.Time) : list Task :=
  List.filter (λ task, Completed task) tasks.

Definition getLowImpactTasks (tasks : list Task) : list Task :=
  List.filter
    (λ task, negb (Completed task) && String.eqb (Priority task) "low"
             && isEmpty (DueDate task))
    tasks.

Definition getAncientLowPriorityTasks (tasks : list Task) (now : time.Time) : list Task :=
  let monthAgo := time.AddDate now 0 (-1) 0 in
  List.filter
    (λ task, negb (Completed task) && String.eqb (Priority task) "low"
             && negb (isEmpty (DueDate task))
             && match time.Parse (DueDate task) with
                | Some dueDate => time.Before dueDate monthAgo
                | None => false
                end)
    tasks.

(** [groupTasksForBatch]; a group that is absent reads as the nil slice. *)
Definition groupTasksForBatch (tasks : list Task) : gmap string (list Task) :=
  fold_left
    (λ groups task,
       if Completed task
       then <["Completed Tasks"%string :=
                default [] (groups !! "Completed Tasks"%string) ++ [task]]> groups
       else if String.eqb (Priority task) "low" && isEmpty (DueDate task)
       then <["Low Priority Tasks Without Dates"%string :=
                default [] (groups !! "Low Priority Tasks Without Dates"%string)
                ++ [task]]> groups
       else groups)
    tasks ∅.

Definition min (a b : Z) : Z := if a <? b then a else b.

Module SmartSuggestion.
Record t := {
  Category : string;
  Tasks : list Task;
  Score : Z;
  Reason : string;
  Impact : string
}.
End SmartSuggestion.

(** The comparison handed to [sort.Slice] by [getUltraSmartSuggestions]. *)
Definition suggestionLess (a b : SmartSuggestion.t) : bool :=
  SmartSuggestion.Score b <? SmartSuggestion.Score a.

(** The comparison handed to [sort.Slice] by [findTasksByNameFuzzy]. *)
Definition matchLess (a b : Task * float) : bool := PrimFloat.ltb (snd b) (snd a).

(** The last loop of [findTasksByNameFuzzy]: the tasks of the candidates
    are collected until there are five. *)
Fixpoint topMatches (candidates : list (Task * float)) (matches : list Task) : list Task :=
  match candidates with
  | [] => matches
  | candidate :: candidates' =>
      let matches := matches ++ [fst candidate] in
      if (5 <=? length matches)%nat then matches else topMatches candidates' matches
  end.

Section DeleteView.
Context `{!Unicode} `{!sort.Sorter}.

Definition findTasksByName (tasks : list Task) (name : string) : list Task :=
  let searchTerm := ToLower name in
  List.filter (λ task, Contains (ToLower (Description task)) searchTerm) tasks.

Definition vagueKeywords : list string :=
  ["stuff"; "things"; "misc"; "todo"; "remember"; "check"; "fix"; "update"]%string.

Definition getVagueTasks (tasks : list Task) : list Task :=
  List.filter
    (λ task,
       if Completed task then false
       else
         let desc := ToLower (Description task) in
         if (String.length desc <? 10)%nat then true
         else existsb (λ keyword, Contains desc keyword) vagueKeywords)
    tasks.

(** [getUltraSmartSuggestions]; [now] is the value of [time.Now()]. *)
Definition getUltraSmartSuggestions (store : TaskStore) (now : time.Time)
  : list SmartSuggestion.t :=
  let suggestions := [] in
  let overdueTasks := getOverdueHighPriorityTasks (Tasks store) now in
  let suggestions :=
    if (0 <? length overdueTasks)%nat
    then suggestions ++
         [{| SmartSuggestion.Category := "Stale High Priority Tasks";
             SmartSuggestion.Tasks := overdueTasks;
             SmartSuggestion.Score := 85;
             SmartSuggestion.Reason := "These high-priority tasks are overdue. Consider if they're still relevant or need rescheduling.";
             SmartSuggestion.Impact := "high" |}]
    else suggestions in
  let oldCompleted := getOldCompletedTasksSmart (Tasks store) now in
  let suggestions :=
    if (0 <? length oldCompleted)%nat
    then suggestions ++
         [{| SmartSuggestion.Category := "Archive-Ready Completed Tasks";
             SmartSuggestion.Tasks := oldCompleted;
             SmartSuggestion.Score := 90;
             SmartSuggestion.Reason := "Completed tasks taking up mental space. Safe to clean up for better focus.";
             SmartSuggestion.Impact := "low" |}]
    else suggestions in
  let duplicates := findDuplicateTasks (Tasks store) in
  let suggestions :=
    if (0 <? length duplicates)%nat
    then suggestions ++
         [{| SmartSuggestion.Category := "Duplicate Tasks";
             SmartSuggestion.Tasks := duplicates;
             SmartSuggestion.Score := 95;
             SmartSuggestion.Reason := "Found tasks with very similar descriptions. Eliminating duplicates improves clarity.";
             SmartSuggestion.Impact := "medium" |}]
    else suggestions in
  let lowImpactTasks := getLowImpactTasks (Tasks store) in
  let suggestions :=
    if (3 <? length lowImpactTasks)%nat
    then suggestions ++
         [{| SmartSuggestion.Category := "Low-Impact Tasks";
             SmartSuggestion.Tasks := take 3 lowImpactTasks;
             SmartSuggestion.Score := 60;
             SmartSuggestion.Reason := "Low priority tasks without deadlines. Consider if they're still needed.";
             SmartSuggestion.Impact := "low" |}]
    else suggestions in
  let vagueTasks := getVagueTasks (Tasks store) in
  let suggestions :=
    if (0 <? length vagueTasks)%nat
    then suggestions ++
         [{| SmartSuggestion.Category := "Unclear Tasks";
             SmartSuggestion.Tasks := vagueTasks;
             SmartSuggestion.Score := 70;
             SmartSuggestion.Reason := "Tasks with vague descriptions may need clarification or removal.";
             SmartSuggestion.Impact := "medium" |}]
    else suggestions in
  let ancientTasks := getAncientLowPriorityTasks (Tasks store) now in
  let suggestions :=
    if (0 <? length ancientTasks)%nat
    then suggestions ++
         [{| SmartSuggestion.Category := "Ancient Low Priority Tasks";
             SmartSuggestion.Tasks := ancientTasks;
             SmartSuggestion.Score := 80;
             SmartSuggestion.Reason := "Low priority tasks overdue by more than a month. Likely no longer relevant.";
             SmartSuggestion.Impact := "low" |}]
    else suggestions in
  sort.Slice suggestionLess suggestions.

Definition getAdvancedSmartSuggestions (store : TaskStore) (now : time.Time)
  : list SmartSuggestion.t :=
  let suggestions := getUltraSmartSuggestions store now in
  map
    (λ suggestion,
       {| SmartSuggestion.Category := SmartSuggestion.Category suggestion;
          SmartSuggestion.Tasks := SmartSuggestion.Tasks suggestion;
          SmartSuggestion.Score :=
            min (GoInt.add (SmartSuggestion.Score suggestion) 10) 100;
          SmartSuggestion.Reason :=
            String.append "Smart analysis detected: " (SmartSuggestion.Reason suggestion);
          SmartSuggestion.Impact := SmartSuggestion.Impact suggestion |})
    suggestions.

#[warnings="-inexact-float"]
Definition findTasksByNameFuzzy (tasks : list Task) (name : string) : list Task :=
  let searchTerm := ToLower name in
  let candidates :=
    fold_left
      (λ candidates task,
         let score := calculateSimilarityScore (Description task) searchTerm in
         if PrimFloat.ltb 0.3%float score then candidates ++ [(task, score)] else candidates)
      tasks [] in
  let candidates := sort.Slice matchLess candidates in
  topMatches candidates [].

(** [deleteByIDOrName]: whether a task is deleted and the store saved, and
    the store.  [confirmed] is the answer [confirmDeletion] gets when it
    asks, [input] the line read when several tasks match. *)
Definition deleteByIDOrName (store : TaskStore) (identifier : string)
    (force confirmed : bool) (input : string) : bool * TaskStore :=
  match strconv.Atoi identifier with
  | Some id =>
      match findTaskByID (Tasks store) id with
      | None => (false, store)
      | Some task =>
          if negb force && negb confirmed then (false, store)
          else deleteTaskByID store id
      end
  | None =>
      let matches := findTasksByName (Tasks store) identifier in
      match matches with
      | [] => (false, store)
      | [task] =>
          if negb force && negb confirmed then (false, store)
          else deleteTaskByID store (ID task)
      | _ =>
          match strconv.Atoi (TrimSpace input) with
          | None => (false, store)
          | Some choice =>
              if (choice <? 1) || (Z.of_nat (length matches) <? choice) then (false, store)
              else match matches !! Z.to_nat (choice - 1) with
                   | Some selectedTask => deleteTaskByID store (ID selectedTask)
                   | None => (false, store)
                   end
          end
      end
  end.

(** [deleteByIDOrNameSmart], with the same inputs. *)
Definition deleteByIDOrNameSmart (store : TaskStore) (identifier : string)
    (force confirmed : bool) (input : string) : bool * TaskStore :=
  match strconv.Atoi identifier with
  | Some _ => deleteByIDOrName store identifier force confirmed input
  | None =>
      let matches := findTasksByNameFuzzy (Tasks store) identifier in
      match matches with
      | [] => (false, store)
      | [task] =>
          if negb force && negb confirmed then (false, store)
          else deleteTaskByID store (ID task)
      | _ =>
          match strconv.Atoi (TrimSpace input) with
          | None => (false, store)
          | Some choice =>
              if (choice <? 1) || (Z.of_nat (length matches) <? choice) then (false, store)
              else match matches !! Z.to_nat (choice - 1) with
                   | Some selectedTask => deleteTaskByID store (ID selectedTask)
                   | None => (false, store)
                   end
          end
      end
  end.
End DeleteView.

(** *** The add command *)

Section AddCommand.
Context `{!Unicode}.

(** The loop of [addRun]: the count of tasks added and the store. *)
Definition addLoop (dueDate priority : string) (st : Z * TaskStore) (taskDesc : string)
  : Z * TaskStore :=
  let '(successCount, store) := st in
  if isEmpty taskDesc then st
  else match AddTask store taskDesc dueDate priority with
       | (inl _, store) => (successCount, store)
       | (inr _, store) => (GoInt.incr successCount, store)
       end.

(** [addRun] on the store it loads: the count, and the store, which is
    saved when the count is positive. *)
Definition addRun (store : TaskStore) (args : list string) (dueDate priority : string)
  : Z * TaskStore :=
  fold_left (addLoop dueDate priority) args (0, store).

(** The tasks [addRun] appends for the descriptions [descs], the first of
    them getting the identifier [next]. *)
Definition added (dueDate priority : string) (next : Z) (descs : list string) : list Task :=
  imap (λ i description,
          {| ID := next + Z.of_nat i; Description := description; DueDate := dueDate;
             Priority := ToLower priority; Completed := false |})
    descs.
End AddCommand.

(** *** Slices that share the array of the store

    [deleteTaskByID] cuts a task out with
    [append(store.Tasks[:i], store.Tasks[i+1:]...)]: the tasks after it move
    down the array of [store.Tasks], in place, and the slice gets one
    shorter.  A slice that is read while this happens sees the moves when it
    is a window of that array, as [deleteTasks] would, handed [store.Tasks]
    itself. *)
Module shared.

(** The store with the array behind [store.Tasks]: the slice holds the
    first [len] elements of [array], the length of [array] is its
    capacity. *)
Record Memory := {
  array : list Task;
  len : nat;
  nextID : Z
}.

(** The store as the rest of the program reads it. *)
Definition store (m : Memory) : TaskStore :=
  {| Tasks := take (len m) (array m); NextID := nextID m |}.

(** A slice of tasks: one whose array is apart from the store's, given by
    its elements, or the window [low, high) of the array of the store. *)
Inductive Slice :=
| Apart (tasks : list Task)
| Window (low high : nat).

Definition size (s : Slice) : nat :=
  match s with
  | Apart tasks => length tasks
  | Window low high => (high - low)%nat
  end.

(** Element [k] of the slice, read now. *)
Definition index (m : Memory) (s : Slice) (k : nat) : option Task :=
  match s with
  | Apart tasks => tasks !! k
  | Window low _ => array m !! (low + k)%nat
  end.

(** The loop of [deleteTaskByID] on the array: the tasks after element [i]
    move down by one place, the last place of the slice keeps its task. *)
Fixpoint deleteTaskByIDFrom (m : Memory) (id : Z) (i : nat) (rest : list Task)
  : bool * Memory :=
  match rest with
  | [] => (false, m)
  | task :: rest' =>
      if ID task =? id
      then (true, {| array := take i (array m) ++ drop (S i) (take (len m) (array m))
                              ++ drop (len m - 1)%nat (array m);
                     len := (len m - 1)%nat;
                     nextID := nextID m |})
      else deleteTaskByIDFrom m id (S i) rest'
  end.

Definition deleteTaskByID (m : Memory) (id : Z) : bool * Memory :=
  deleteTaskByIDFrom m id 0%nat (take (len m) (array m)).

(** [deleteTasks]: the [range] fixes the length of [tasks] at the start
    and reads element [k] in round [k].  A slice within its array has every
    such element. *)
Definition deleteTasks (m : Memory) (tasks : Slice) : Z * Memory :=
  fold_left
    (λ '(deleted, m) k,
       match index m tasks k with
       | Some task =>
           match deleteTaskByID m (ID task) with
           | (true, m) => (GoInt.incr deleted, m)
           | (false, m) => (deleted, m)
           end
       | None => (deleted, m)
       end)
    (seq 0 (size tasks)) (0, m).

End shared.

End cmd.

(** ** Sessions

    A run of the program loads the store, performs one operation on it and
    saves it; a session is a sequence of such operations, starting from the
    store [LoadTasks] creates. *)
Module session.
Import strings taskdata cmd.

Inductive operation :=
| Add (description dueDate priority : string)
| Delete (id : Z)
| Complete (id : Z)
| UpdateCompletion (id : Z) (completed : bool).

Section WithUnicode.
Context `{!Unicode}.

Definition step (store : TaskStore) (op : operation) : TaskStore :=
  match op with
  | Add description dueDate priority => snd (AddTask store description dueDate priority)
  | Delete id => snd (deleteTaskByID store id)
  | Complete id => snd (CompleteTask store id)
  | UpdateCompletion id completed => snd (updateTaskCompletion store id completed)
  end.

Definition run (ops : list operation) (store : TaskStore) : TaskStore :=
  fold_left step ops store.
End WithUnicode.

(** The identifiers of the store are pairwise distinct and below the
    counter. *)
Definition identifiersFresh (store : TaskStore) : Prop :=
  NoDup (map ID (Tasks store)) ∧ Forall (λ task, (ID task < NextID store)%Z) (Tasks store).

(** The invariant that carries the induction over a session: moreover the
    counter is positive and has grown by at most one for each operation so
    far, [k] of them. *)
Definition boundedFresh (k : Z) (store : TaskStore) : Prop :=
  identifiersFresh store ∧ (1 <= NextID store <= 1 + k)%Z.

End session.

(** ** Runs of the program

    A run of the program loads the store, executes one command on it and
    may save it; the next run loads what the last one saved. *)
Module program.
Import strings taskdata cmd.
Local Open Scope Z_scope.

Inductive command :=
| AddCmd (args : list string) (dueDate priority : string)
| MarkCmd (identifier : string) (undone force confirmed : bool)
| EditCmd (identifier newDue newPriority newDesc : string)
| BatchCmd (undone force : bool) (input : string)
| DeleteCmd (identifier : string) (force confirmed : bool) (input : string)
| DeleteCompletedCmd.

Section WithLibrary.
Context `{!Unicode} `{!sort.Sorter}.

(** The store on disk after a run that found [store] there. *)
Definition exec (store : TaskStore) (c : command) : TaskStore :=
  match c with
  | AddCmd args dueDate priority =>
      let '(successCount, store') := addRun store args dueDate priority in
      if 0 <? successCount then store' else store
  | MarkCmd identifier undone force confirmed =>
      let '(saved, store') := markTask store identifier undone force confirmed in
      if saved then store' else store
  | EditCmd identifier newDue newPriority newDesc =>
      match editTaskProperties store identifier newDue newPriority newDesc with
      | (EditSaved, store') => store'
      | _ => store
      end
  | BatchCmd undone force input =>
      default store (performBatchOperations store undone force input)
  | DeleteCmd identifier force confirmed input =>
      let '(saved, store') := deleteByIDOrNameSmart store identifier force confirmed input in
      if saved then store' else store
  | DeleteCompletedCmd =>
      let '(deleted, store') := deleteTasks store (getCompletedTasks (Tasks store)) in
      if 0 <? deleted then store' else store
  end.

Definition run (commands : list command) (store : TaskStore) : TaskStore :=
  fold_left exec commands store.
End WithLibrary.

(** The number of descriptions a command is given to add. *)
Definition descriptions (c : command) : nat :=
  match c with
  | AddCmd args _ _ => length args
  | _ => 0%nat
  end.

(** A task as [AddTask] accepts it: the due date is empty or a date of the
    calendar, the priority is one of the three names. *)
Definition validTask (task : Task) : Prop :=
  (DueDate task = EmptyString ∨ is_Some (time.Parse (DueDate task)))
  ∧ (Priority task = "low" ∨ Priority task = "normal" ∨ Priority task = "high")%string.

End program.


(** * Properties *)

(** ** Arithmetic of [int] *)
Section GoIntFacts.
Local Open Scope Z_scope.

Lemma wrap_inRange z : GoInt.inRange z → GoInt.wrap z = z.
Proof.
  unfold GoInt.inRange, GoInt.minInt, GoInt.maxInt, GoInt.wrap. intros Hz.
  rewrite Z.mod_small; lia.
Qed.

Lemma incr_below_max z : GoInt.minInt <= z < GoInt.maxInt → GoInt.incr z = z + 1.
Proof.
  intros Hz. unfold GoInt.incr, GoInt.add. apply wrap_inRange.
  unfold GoInt.inRange in *. lia.
Qed.
End GoIntFacts.

(** ** The task store *)
Section StoreFacts.
Import strings taskdata cmd.
Local Open Scope Z_scope.

Lemma withCompleted_ID c t : ID (withCompleted c t) = ID t.
Proof. reflexivity. Qed.

Lemma alter_withCompleted_IDs c i (l : list Task) :
  map ID (alter (withCompleted c) i l) = map ID l.
Proof.
  revert i. induction l as [|t l IH]; intros [|i]; simpl; try reflexivity.
  f_equal. apply IH.
Qed.

(** The loop of the two completion updates, once the tasks already visited
    are known not to bear the identifier. *)
Lemma updateTaskCompletionFrom_found store id c pre task post :
  Tasks store = pre ++ task :: post →
  ID task = id →
  ∀ visited rest, pre = visited ++ rest →
    Forall (λ t, ID t ≠ id) rest →
    updateTaskCompletionFrom store id c (length visited) (rest ++ task :: post)
    = (None, {| Tasks := pre ++ withCompleted c task :: post; NextID := NextID store |}).
Proof.
  intros Hstore Hid visited rest. revert visited.
  induction rest as [|t rest IH]; intros visited Hpre Hrest; simpl.
  - rewrite app_nil_r in Hpre. subst visited.
    rewrite (proj2 (Z.eqb_eq _ _) Hid). do 2 f_equal.
    rewrite Hstore. clear. induction pre as [|p pre IH]; simpl; [reflexivity|].
    f_equal. apply IH.
  - inversion Hrest as [|? ? Ht Hrest']; subst.
    rewrite (proj2 (Z.eqb_neq _ _) Ht).
    specialize (IH (visited ++ [t])). rewrite length_app in IH. simpl in IH.
    replace (length visited + 1)%nat with (S (length visited)) in IH by lia.
    apply IH; [|assumption]. rewrite <- app_assoc. reflexivity.
Qed.

Lemma updateTaskCompletionFrom_missing store id c i rest :
  Forall (λ t, ID t ≠ id) rest →
  updateTaskCompletionFrom store id c i rest = (Some (ErrTaskNotFound id), store).
Proof.
  revert i. induction rest as [|t rest IH]; intros i Hrest; simpl; [reflexivity|].
  inversion Hrest as [|? ? Ht Hrest']; subst.
  rewrite (proj2 (Z.eqb_neq _ _) Ht). apply IH. assumption.
Qed.

Lemma CompleteTaskFrom_update store id i rest :
  CompleteTaskFrom store id i rest = updateTaskCompletionFrom store id true i rest.
Proof.
  revert i. induction rest as [|t rest IH]; intros i; simpl; [reflexivity|].
  destruct (ID t =? id); [reflexivity|apply IH].
Qed.

(** Every list of tasks either has a first task with the identifier or has
    none. *)
Lemma first_with_ID id (l : list Task) :
  Forall (λ t, ID t ≠ id) l
  ∨ ∃ pre task post, l = pre ++ task :: post ∧ ID task = id ∧ Forall (λ t, ID t ≠ id) pre.
Proof.
  induction l as [|t l IH]; [left; constructor|].
  destruct (Z.eq_dec (ID t) id) as [Heq|Hne].
  - right. exists [], t, l. repeat split; [assumption|constructor].
  - destruct IH as [Hall|(pre & task & post & -> & Hid & Hpre)].
    + left. constructor; assumption.
    + right. exists (t :: pre), task, post. repeat split; [assumption|].
      constructor; assumption.
Qed.

Lemma deleteTaskByIDFrom_found store id pre task post :
  Tasks store = pre ++ task :: post →
  ID task = id →
  ∀ visited rest, pre = visited ++ rest →
    Forall (λ t, ID t ≠ id) rest →
    deleteTaskByIDFrom store id (length visited) (rest ++ task :: post)
    = (true, {| Tasks := pre ++ post; NextID := NextID store |}).
Proof.
  intros Hstore Hid visited rest. revert visited.
  induction rest as [|t rest IH]; intros visited Hpre Hrest; simpl.
  - rewrite app_nil_r in Hpre. subst visited.
    rewrite (proj2 (Z.eqb_eq _ _) Hid). do 2 f_equal.
    rewrite Hstore, take_app_length, drop_app_ge by lia.
    replace (S (length pre) - length pre)%nat with 1%nat by lia. reflexivity.
  - inversion Hrest as [|? ? Ht Hrest']; subst.
    rewrite (proj2 (Z.eqb_neq _ _) Ht).
    specialize (IH (visited ++ [t])). rewrite length_app in IH. simpl in IH.
    replace (length visited + 1)%nat with (S (length visited)) in IH by lia.
    apply IH; [|assumption]. rewrite <- app_assoc. reflexivity.
Qed.

Lemma deleteTaskByIDFrom_missing store id i rest :
  Forall (λ t, ID t ≠ id) rest →
  deleteTaskByIDFrom store id i rest = (false, store).
Proof.
  revert i. induction rest as [|t rest IH]; intros i Hrest; simpl; [reflexivity|].
  inversion Hrest as [|? ? Ht Hrest']; subst.
  rewrite (proj2 (Z.eqb_neq _ _) Ht). apply IH. assumption.
Qed.

End StoreFacts.

Section StoreTheorems.
Import strings taskdata cmd.
Local Open Scope Z_scope.

(** C6. [AddTask] is atomic on error: when the due date or the priority is
    refused it returns an error and the store is the one it was given;
    otherwise it appends exactly one task, whose identifier is the former
    [NextID], whose priority is the lower-cased input, which is not
    completed, and the counter moves on by one. *)
Theorem AddTask_atomic `{!Unicode} (store : TaskStore) (description dueDate priority : string) :
  ((ValidateDate dueDate ≠ None ∨ ValidatePriority priority ≠ None) →
   ∃ err, AddTask store description dueDate priority = (inl err, store))
  ∧ (ValidateDate dueDate = None → ValidatePriority priority = None →
     ∃ task store',
       AddTask store description dueDate priority = (inr task, store')
       ∧ Tasks store' = Tasks store ++ [task]
       ∧ ID task = NextID store
       ∧ Description task = description
       ∧ DueDate task = dueDate
       ∧ Priority task = ToLower priority
       ∧ Completed task = false
       ∧ NextID store' = GoInt.incr (NextID store)
       ∧ (GoInt.minInt <= NextID store < GoInt.maxInt → NextID store' = NextID store + 1)).
Proof.
  unfold AddTask. split.
  - intros Hbad. destruct (ValidateDate dueDate) as [e|]; [eauto|].
    destruct (ValidatePriority priority) as [e|]; [eauto|].
    destruct Hbad as [Hbad|Hbad]; congruence.
  - intros -> ->. eexists _, _. split; [reflexivity|]. simpl.
    repeat split; try reflexivity. apply incr_below_max.
Qed.

(** A month out of range and a one-letter priority are refused; the first
    task of a store gets the identifier 1. *)
Lemma AddTask_atomic_witness :
  (∃ err, @AddTask asciiUnicode emptyStore "pay rent" "2024-13-01" "high" = (inl err, emptyStore))
  ∧ (∃ err, @AddTask asciiUnicode emptyStore "pay rent" "2024-01-31" "H" = (inl err, emptyStore))
  ∧ (∃ task store',
       @AddTask asciiUnicode emptyStore "pay rent" "2024-01-31" "HIGH" = (inr task, store')
       ∧ Tasks store' = [task] ∧ ID task = 1 ∧ Priority task = "high"%string
       ∧ Completed task = false ∧ NextID store' = 2).
Proof.
  pose proof (@AddTask_atomic asciiUnicode emptyStore "pay rent" "2024-13-01" "high") as [H1 _].
  pose proof (@AddTask_atomic asciiUnicode emptyStore "pay rent" "2024-01-31" "H") as [H2 _].
  pose proof (@AddTask_atomic asciiUnicode emptyStore "pay rent" "2024-01-31" "HIGH") as [_ H3].
  split; [apply H1; left; vm_compute; discriminate|].
  split; [apply H2; right; vm_compute; discriminate|].
  destruct (H3 eq_refl eq_refl) as (task & store' & Hadd & Htasks & Hid & _ & _ & Hprio & Hdone & _ & Hnext).
  exists task, store'. repeat split; try assumption.
  apply Hnext. vm_compute. split; [discriminate|reflexivity].
Defined.

(** C9. Updating the completion status for an identifier present in the
    store changes only the [Completed] field of the first task bearing it:
    its other fields, every other task, the order and [NextID] stay; when
    no task bears the identifier an error is returned and the store is
    unchanged. *)
Theorem completion_update_frame (store : TaskStore) (id : Z) :
  (∀ pre task post,
     Tasks store = pre ++ task :: post →
     ID task = id →
     Forall (λ t, ID t ≠ id) pre →
     CompleteTask store id
     = (None,
        {| Tasks := pre ++ {| ID := ID task; Description := Description task;
                              DueDate := DueDate task; Priority := Priority task;
                              Completed := true |} :: post;
           NextID := NextID store |})
     ∧ ∀ flag,
         updateTaskCompletion store id flag
         = (None,
            {| Tasks := pre ++ {| ID := ID task; Description := Description task;
                                  DueDate := DueDate task; Priority := Priority task;
                                  Completed := flag |} :: post;
               NextID := NextID store |}))
  ∧ (Forall (λ t, ID t ≠ id) (Tasks store) →
     CompleteTask store id = (Some (ErrTaskNotFound id), store)
     ∧ ∀ flag, updateTaskCompletion store id flag = (Some (ErrTaskNotFound id), store)).
Proof.
  unfold CompleteTask, updateTaskCompletion. split.
  - intros pre task post Hstore Hid Hpre.
    assert (∀ flag, updateTaskCompletionFrom store id flag 0 (Tasks store)
                    = (None, {| Tasks := pre ++ withCompleted flag task :: post;
                                NextID := NextID store |})) as Hupd.
    { intros flag. rewrite Hstore at 1.
      apply (updateTaskCompletionFrom_found store id flag pre task post Hstore Hid [] pre);
        [reflexivity|assumption]. }
    split; [|exact Hupd]. rewrite CompleteTaskFrom_update. apply Hupd.
  - intros Hmissing. split.
    + rewrite CompleteTaskFrom_update. apply updateTaskCompletionFrom_missing. assumption.
    + intros flag. apply updateTaskCompletionFrom_missing. assumption.
Qed.

(** Of two tasks with other identifiers around it, only the task with the
    identifier 2 is touched. *)
Lemma completion_update_frame_witness :
  let t1 := {| ID := 1; Description := "a"; DueDate := ""; Priority := "low"; Completed := false |} in
  let t2 := {| ID := 2; Description := "b"; DueDate := "2024-01-31"; Priority := "high"; Completed := false |} in
  let t2' := {| ID := 2; Description := "b"; DueDate := "2024-01-31"; Priority := "high"; Completed := true |} in
  let store := {| Tasks := [t1; t2; t1]; NextID := 3 |} in
  CompleteTask store 2 = (None, {| Tasks := [t1; t2'; t1]; NextID := 3 |})
  ∧ updateTaskCompletion store 2 false = (None, store)
  ∧ CompleteTask store 7 = (Some (ErrTaskNotFound 7), store).
Proof.
  intros t1 t2 t2' store.
  pose proof (completion_update_frame store 2) as [Hfound _].
  pose proof (completion_update_frame store 7) as [_ Hmissing].
  specialize (Hfound [t1] t2 [t1] eq_refl eq_refl).
  destruct Hfound as [Hc Hu].
  { repeat constructor. discriminate. }
  destruct Hmissing as [Hm _].
  { repeat constructor; discriminate. }
  split; [exact Hc|]. split; [apply (Hu false)|exact Hm].
Defined.

End StoreTheorems.

Section SessionTheorems.
Import strings taskdata cmd session.
Local Open Scope Z_scope.
Context `{!Unicode}.

Lemma step_Add_store store description dueDate priority :
  let store' := step store (Add description dueDate priority) in
  store' = store
  ∨ ∃ task, ID task = NextID store
      ∧ store' = {| Tasks := Tasks store ++ [task]; NextID := GoInt.incr (NextID store) |}.
Proof.
  simpl. unfold AddTask.
  destruct (ValidateDate dueDate); [left; reflexivity|].
  destruct (ValidatePriority priority); [left; reflexivity|].
  right. eexists. split; [|reflexivity]. reflexivity.
Qed.

Lemma step_Delete_store store id :
  let store' := step store (Delete id) in
  store' = store
  ∨ ∃ pre task post, Tasks store = pre ++ task :: post
      ∧ store' = {| Tasks := pre ++ post; NextID := NextID store |}.
Proof.
  simpl. unfold deleteTaskByID.
  destruct (first_with_ID id (Tasks store)) as [Hall|(pre & task & post & Hstore & Hid & Hpre)].
  - left. rewrite deleteTaskByIDFrom_missing by assumption. reflexivity.
  - right. exists pre, task, post. split; [assumption|].
    pose proof (deleteTaskByIDFrom_found store id pre task post Hstore Hid [] pre eq_refl Hpre)
      as Hfound.
    simpl in Hfound. rewrite <- Hstore in Hfound at 1. rewrite Hfound. reflexivity.
Qed.

Lemma step_update_store store id flag :
  let store' := snd (updateTaskCompletion store id flag) in
  NextID store' = NextID store ∧ map ID (Tasks store') = map ID (Tasks store).
Proof.
  simpl. unfold updateTaskCompletion.
  destruct (first_with_ID id (Tasks store)) as [Hall|(pre & task & post & Hstore & Hid & Hpre)].
  - rewrite updateTaskCompletionFrom_missing by assumption. split; reflexivity.
  - pose proof (updateTaskCompletionFrom_found store id flag pre task post Hstore Hid [] pre
                  eq_refl Hpre) as Hfound.
    simpl in Hfound. rewrite <- Hstore in Hfound at 1. rewrite Hfound.
    simpl. split; [reflexivity|]. rewrite Hstore, !map_app. reflexivity.
Qed.

Lemma identifiersFresh_IDs store store' :
  NextID store' = NextID store →
  map ID (Tasks store') = map ID (Tasks store) →
  identifiersFresh store → identifiersFresh store'.
Proof.
  unfold identifiersFresh. intros Hnext Hids [Hnodup Hlt]. rewrite Hids, Hnext.
  split; [assumption|].
  apply Forall_forall. intros t Ht.
  assert (In (ID t) (map ID (Tasks store))) as Hin.
  { rewrite <- Hids. apply in_map. apply list_elem_of_In. assumption. }
  apply in_map_iff in Hin as (t0 & Heq & Hin0). rewrite <- Heq.
  rewrite Forall_forall in Hlt. apply Hlt. apply list_elem_of_In. assumption.
Qed.

Lemma step_boundedFresh k store op :
  0 <= k → k + 1 < GoInt.maxInt →
  boundedFresh k store → boundedFresh (k + 1) (step store op).
Proof.
  intros Hk Hmax [[Hnodup Hlt] Hnext].
  destruct op as [description dueDate priority|id|id|id flag].
  - destruct (step_Add_store store description dueDate priority) as [->|(task & Hid & ->)].
    + split; [split; assumption|lia].
    + assert (GoInt.incr (NextID store) = NextID store + 1) as Hincr.
      { apply incr_below_max. unfold GoInt.minInt. lia. }
      split; [split|]; simpl; rewrite ?Hincr; [| |lia].
      * rewrite map_app. simpl. apply NoDup_app. split; [assumption|].
        split; [|apply NoDup_singleton].
        intros i Hi Hi'. apply list_elem_of_singleton in Hi'. subst i.
        apply list_elem_of_In, in_map_iff in Hi as (t0 & Heq & Hin0).
        rewrite Forall_forall in Hlt. apply list_elem_of_In, Hlt in Hin0. lia.
      * apply Forall_app. split; [|repeat constructor; lia].
        eapply Forall_impl; [exact Hlt|]. simpl. intros; lia.
  - destruct (step_Delete_store store id) as [->|(pre & task & post & Hstore & ->)].
    + split; [split; assumption|lia].
    + rewrite Hstore in Hnodup, Hlt. split; [split|]; simpl; [| |lia].
      * rewrite map_app in *. simpl in Hnodup.
        apply NoDup_app in Hnodup as (Hpre & Hdisj & Hpost).
        apply NoDup_cons in Hpost as [_ Hpost].
        apply NoDup_app. split; [assumption|]. split; [|assumption].
        intros i Hi Hi'. apply (Hdisj i Hi). right. assumption.
      * apply Forall_app in Hlt as [Hpre Hpost].
        apply Forall_cons in Hpost as [_ Hpost].
        apply Forall_app. split; assumption.
  - simpl. rewrite (surjective_pairing (CompleteTask store id)).
    unfold CompleteTask. rewrite CompleteTaskFrom_update.
    destruct (step_update_store store id true) as [Hn Hids].
    split; [eapply identifiersFresh_IDs; [exact Hn|exact Hids|split; assumption]|].
    simpl in Hn. unfold updateTaskCompletion in Hn. simpl. rewrite Hn. lia.
  - destruct (step_update_store store id flag) as [Hn Hids].
    split; [eapply identifiersFresh_IDs; [exact Hn|exact Hids|split; assumption]|].
    simpl in *. rewrite Hn. lia.
Qed.

Lemma run_boundedFresh ops : ∀ k store,
  0 <= k → k + Z.of_nat (length ops) < GoInt.maxInt →
  boundedFresh k store → boundedFresh (k + Z.of_nat (length ops)) (run ops store).
Proof.
  induction ops as [|op ops IH]; intros k store Hk Hmax Hinv.
  - simpl. rewrite Z.add_0_r. assumption.
  - simpl run. simpl length in *.
    replace (k + Z.of_nat (S (length ops))) with ((k + 1) + Z.of_nat (length ops)) in * by lia.
    apply IH; [lia|assumption|]. apply step_boundedFresh; [assumption|lia|assumption].
Qed.

(** C8. From the empty store, every sequence of additions, deletions by
    identifier and completion updates keeps the identifiers of the store
    pairwise distinct and below [NextID].  The sequences are those that fit
    the counter, an [int]: fewer operations than its largest value. *)
Theorem session_identifiers_fresh (ops : list operation) :
  Z.of_nat (length ops) < GoInt.maxInt →
  identifiersFresh (run ops emptyStore).
Proof.
  intros Hlen.
  apply (run_boundedFresh ops 0 emptyStore); [lia|lia|].
  split; [split; simpl; constructor|simpl; lia].
Qed.

End SessionTheorems.

(** A session of six operations. *)
Lemma session_identifiers_fresh_witness :
  session.identifiersFresh
    (@session.run strings.asciiUnicode
       [session.Add "a" "" "low"; session.Add "b" "2024-01-31" "HIGH";
        session.Complete 1; session.Delete 1; session.Add "c" "" "normal";
        session.UpdateCompletion 2 true] taskdata.emptyStore).
Proof.
  apply (@session_identifiers_fresh strings.asciiUnicode). vm_compute. reflexivity.
Defined.

(** ** The health score *)
Section HealthScore.
Import strings taskdata cmd.
Local Open Scope Z_scope.

Lemma countWhere_cons p t tasks :
  countWhere p (t :: tasks) = (if p t then 1 else 0) + countWhere p tasks.
Proof.
  unfold countWhere. simpl. destruct (p t); simpl length; lia.
Qed.

Lemma countWhere_bounds p tasks : 0 <= countWhere p tasks <= Z.of_nat (length tasks).
Proof.
  unfold countWhere. split; [lia|].
  apply inj_le. induction tasks as [|t tasks IH]; simpl; [lia|].
  destruct (p t); simpl; lia.
Qed.

(** The counters of [analyzeTaskPatterns] count what their names say, as
    long as the slice is short enough for an [int] to count it. *)
Lemma fold_countTask now tasks : ∀ acc,
  0 <= completedTasks acc → 0 <= overdueTasks acc →
  0 <= todayTasks acc → 0 <= highPriorityPending acc →
  completedTasks acc + Z.of_nat (length tasks) <= GoInt.maxInt →
  overdueTasks acc + Z.of_nat (length tasks) <= GoInt.maxInt →
  todayTasks acc + Z.of_nat (length tasks) <= GoInt.maxInt →
  highPriorityPending acc + Z.of_nat (length tasks) <= GoInt.maxInt →
  fold_left (countTask now) tasks acc
  = {| completedTasks := completedTasks acc + countWhere Completed tasks;
       overdueTasks := overdueTasks acc + countWhere (isPendingOverdue now) tasks;
       todayTasks := todayTasks acc + countWhere (isPendingDueToday now) tasks;
       highPriorityPending := highPriorityPending acc + countWhere isPendingHigh tasks |}.
Proof.
  induction tasks as [|t tasks IH]; intros acc Hc Ho Ht Hh Bc Bo Bt Bh.
  - destruct acc. unfold countWhere. simpl. f_equal; lia.
  - simpl length in *. rewrite Nat2Z.inj_succ in *.
    simpl fold_left. rewrite !countWhere_cons.
    assert (∀ z, 0 <= z → z + Z.succ (Z.of_nat (length tasks)) <= GoInt.maxInt →
                 GoInt.incr z = z + 1) as Hincr.
    { intros z Hz Hb. apply incr_below_max. unfold GoInt.minInt. lia. }
    unfold countTask, isPendingOverdue, isPendingDueToday, isPendingHigh.
    destruct (Completed t); simpl negb; simpl andb.
    + rewrite IH; simpl; rewrite ?Hincr by assumption; try lia.
      f_equal; unfold isPendingOverdue, isPendingDueToday, isPendingHigh; lia.
    + rewrite IH; simpl;
        destruct (isTaskOverdue t now), (isTaskDueToday t now),
          (String.eqb (Priority t) "high");
        rewrite ?Hincr by assumption; try lia; f_equal;
        unfold isPendingOverdue, isPendingDueToday, isPendingHigh; lia.
Qed.

Lemma calculateTaskHealthScore_exact total completed overdue high :
  0 < total → total * 100 <= GoInt.maxInt →
  0 <= completed <= total → 0 <= overdue <= total → 0 <= high <= total →
  calculateTaskHealthScore total completed overdue high
  = Z.max 0 (Z.min 100 (completed * 100 / total - 20 * overdue - 10 * high)).
Proof.
  intros Ht Hmax Hc Ho Hh. unfold calculateTaskHealthScore.
  assert (GoInt.maxInt = 9223372036854775807) as Emax by reflexivity.
  assert (GoInt.minInt = -9223372036854775808) as Emin by reflexivity.
  rewrite Emax in Hmax.
  destruct (Z.eqb_spec total 0) as [|_]; [lia|].
  unfold GoInt.div, GoInt.mul, GoInt.sub.
  rewrite (wrap_inRange (completed * 100)) by (unfold GoInt.inRange; rewrite Emin, Emax; lia).
  rewrite Z.quot_div_nonneg by lia.
  assert (0 <= completed * 100 / total <= 100) as Hq.
  { split; [apply Z.div_pos; lia|].
    apply Z.div_le_upper_bound; [lia|lia]. }
  rewrite (wrap_inRange (completed * 100 / total)) by (unfold GoInt.inRange; rewrite Emin, Emax; lia).
  rewrite (wrap_inRange (overdue * 20)) by (unfold GoInt.inRange; rewrite Emin, Emax; lia).
  rewrite (wrap_inRange (high * 10)) by (unfold GoInt.inRange; rewrite Emin, Emax; lia).
  rewrite (wrap_inRange (_ - overdue * 20)) by (unfold GoInt.inRange; rewrite Emin, Emax; lia).
  rewrite (wrap_inRange (_ - high * 10)) by (unfold GoInt.inRange; rewrite Emin, Emax; lia).
  set (score := completed * 100 / total - overdue * 20 - high * 10).
  replace (completed * 100 / total - 20 * overdue - 10 * high) with score
    by (unfold score; lia).
  destruct (Z.ltb_spec score 0);
    [destruct (Z.ltb_spec 100 0)|destruct (Z.ltb_spec 100 score)]; lia.
Qed.

(** C1. For a task collection with [t > 0] tasks, [c] completed, [o] pending
    and overdue and [h] pending with high priority, the health score is
    [(c*100)/t - 20*o - 10*h] clamped between 0 and 100; for [t = 0] it is
    100.  The collections are those whose length, times 100, an [int]
    holds. *)
Theorem health_score (store : TaskStore) (now : time.Time) :
  Z.of_nat (length (Tasks store)) * 100 <= GoInt.maxInt →
  analyzeTaskPatterns store now
  = if Z.of_nat (length (Tasks store)) =? 0 then 100
    else Z.max 0 (Z.min 100
           (countWhere Completed (Tasks store) * 100 / Z.of_nat (length (Tasks store))
            - 20 * countWhere (isPendingOverdue now) (Tasks store)
            - 10 * countWhere isPendingHigh (Tasks store))).
Proof.
  intros Hlen. unfold analyzeTaskPatterns, countPatterns.
  assert (GoInt.maxInt = 9223372036854775807) as Emax by reflexivity.
  rewrite fold_countTask by (simpl; lia). simpl.
  destruct (Z.eqb_spec (Z.of_nat (length (Tasks store))) 0) as [E|E].
  - unfold calculateTaskHealthScore. rewrite E. reflexivity.
  - apply calculateTaskHealthScore_exact; try apply countWhere_bounds; lia.
Qed.

(** Three of four tasks completed, one pending with high priority:
    75 - 10. *)
Lemma health_score_witness :
  let done d := {| ID := 1; Description := d; DueDate := ""; Priority := "low"; Completed := true |} in
  let store :=
    {| Tasks := [done "a"; done "b"; done "c";
                 {| ID := 4; Description := "d"; DueDate := "2024-01-31"; Priority := "high";
                    Completed := false |}];
       NextID := 5 |} in
  analyzeTaskPatterns store {| time.sec := 1705312800; time.nsec := 0; time.loc := time.UTC |} = 65.
Proof.
  intros done store.
  rewrite (health_score store); [reflexivity|vm_compute; discriminate].
Defined.

End HealthScore.

(** ** The calendar

    [absDate] and [time.Date] are inverse to one another: a day number has
    one date, and a date of the calendar has its own day number. *)
Section Calendar.
Local Open Scope Z_scope.

Local Ltac euclid := Z.to_euclidean_division_equations; lia.

Lemma daysSinceEpoch_cycles a b c e :
  0 <= b <= 3 → 0 <= c <= 24 → 0 <= e <= 3 →
  time.daysSinceEpoch (400 * a + 100 * b + 4 * c + e + 1)
  = 146097 * a + 36524 * b + 1461 * c + 365 * e.
Proof.
  intros Hb Hc He. unfold time.daysSinceEpoch. cbv zeta.
  replace (400 * a + 100 * b + 4 * c + e + 1 - 1) with (400 * a + (100 * b + 4 * c + e)) by lia.
  assert ((400 * a + (100 * b + 4 * c + e)) / 400 = a) as ->.
  { symmetry. apply (Z.div_unique _ _ _ (100 * b + 4 * c + e)); lia. }
  replace (400 * a + (100 * b + 4 * c + e) - 400 * a) with (100 * b + (4 * c + e)) by lia.
  assert ((100 * b + (4 * c + e)) / 100 = b) as ->.
  { symmetry. apply (Z.div_unique _ _ _ (4 * c + e)); lia. }
  replace (100 * b + (4 * c + e) - 100 * b) with (4 * c + e) by lia.
  assert ((4 * c + e) / 4 = c) as ->.
  { symmetry. apply (Z.div_unique _ _ _ e); lia. }
  unfold time.daysPer400Years, time.daysPer100Years, time.daysPer4Years. lia.
Qed.

Lemma isLeap_cycles a b c e :
  0 <= b <= 3 → 0 <= c <= 24 → 0 <= e <= 3 →
  time.isLeap (400 * a + 100 * b + 4 * c + e + 1)
  = (e =? 3) && (negb (c =? 24) || (b =? 3)).
Proof.
  intros Hb Hc He. unfold time.isLeap.
  assert ((400 * a + 100 * b + 4 * c + e + 1) mod 4 = (e + 1) mod 4) as ->.
  { replace (400 * a + 100 * b + 4 * c + e + 1) with ((e + 1) + (100 * a + 25 * b + c) * 4) by lia.
    apply Z.mod_add. lia. }
  assert ((400 * a + 100 * b + 4 * c + e + 1) mod 100 = (4 * c + e + 1) mod 100) as ->.
  { replace (400 * a + 100 * b + 4 * c + e + 1) with ((4 * c + e + 1) + (4 * a + b) * 100) by lia.
    apply Z.mod_add. lia. }
  assert ((400 * a + 100 * b + 4 * c + e + 1) mod 400 = (100 * b + 4 * c + e + 1) mod 400) as ->.
  { replace (400 * a + 100 * b + 4 * c + e + 1) with ((100 * b + 4 * c + e + 1) + a * 400) by lia.
    apply Z.mod_add. lia. }
  destruct (Z.eqb_spec e 3) as [->|He3].
  - replace ((3 + 1) mod 4) with 0 by reflexivity. cbn [Z.eqb andb].
    destruct (Z.eqb_spec c 24) as [->|Hc24].
    + replace ((4 * 24 + 3 + 1) mod 100) with 0 by reflexivity. cbn [Z.eqb negb orb].
      destruct (Z.eqb_spec b 3) as [->|Hb3]; [reflexivity|].
      apply Z.eqb_neq. euclid.
    + cbn [negb orb]. replace ((4 * c + 3 + 1) mod 100 =? 0) with false; [reflexivity|].
      symmetry. apply Z.eqb_neq. euclid.
  - cbn [andb]. replace ((e + 1) mod 4 =? 0) with false; [reflexivity|].
    symmetry. apply Z.eqb_neq. euclid.
Qed.

(** [absYear] splits a day number into a year and a day of that year. *)
Lemma absYear_spec n :
  ∃ a b c e yd,
    0 <= b <= 3 ∧ 0 <= c <= 24 ∧ 0 <= e <= 3 ∧
    time.absYear n = (400 * a + 100 * b + 4 * c + e + 1, yd)
    ∧ n = 146097 * a + 36524 * b + 1461 * c + 365 * e + yd
    ∧ 0 <= yd ∧ (yd < 365 ∨ (yd = 365 ∧ e = 3 ∧ (c <> 24 ∨ b = 3))).
Proof.
  unfold time.absYear, time.daysPer400Years, time.daysPer100Years, time.daysPer4Years.
  cbv zeta.
  pose proof (Z.div_mod n 146097 ltac:(lia)) as E1.
  pose proof (Z.mod_pos_bound n 146097 ltac:(lia)) as B1.
  set (a := n / 146097) in *. set (r1 := n mod 146097) in *. clearbody a r1.
  replace (n - 146097 * a) with r1 by lia.
  pose proof (Z.div_mod r1 36524 ltac:(lia)) as E2.
  pose proof (Z.mod_pos_bound r1 36524 ltac:(lia)) as B2.
  set (q100 := r1 / 36524) in *. set (r2 := r1 mod 36524) in *. clearbody q100 r2.
  assert (0 <= q100 <= 4) as Hq100 by lia.
  assert (q100 / 4 = if q100 =? 4 then 1 else 0) as ->.
  { destruct (Z.eqb_spec q100 4) as [->|?]; [reflexivity|]. apply Z.div_small. lia. }
  set (b := q100 - (if q100 =? 4 then 1 else 0)).
  assert (0 <= b <= 3) as Hb by (unfold b; destruct (Z.eqb_spec q100 4); lia).
  set (d2 := r1 - 36524 * b).
  assert (0 <= d2 <= 36524 ∧ (d2 = 36524 → b = 3)) as Hd2
    by (unfold d2, b; destruct (Z.eqb_spec q100 4); lia).
  pose proof (Z.div_mod d2 1461 ltac:(lia)) as E3.
  pose proof (Z.mod_pos_bound d2 1461 ltac:(lia)) as B3.
  set (c := d2 / 1461) in *. set (r3 := d2 mod 1461) in *.
  replace (d2 - 1461 * c) with r3 by lia.
  assert (0 <= c <= 24) as Hc by lia.
  pose proof (Z.div_mod r3 365 ltac:(lia)) as E4.
  pose proof (Z.mod_pos_bound r3 365 ltac:(lia)) as B4.
  set (q1 := r3 / 365) in *. set (r4 := r3 mod 365) in *.
  assert (0 <= q1 <= 4) as Hq1 by lia.
  assert (q1 / 4 = if q1 =? 4 then 1 else 0) as ->.
  { destruct (Z.eqb_spec q1 4) as [->|?]; [reflexivity|]. apply Z.div_small. lia. }
  set (e := q1 - (if q1 =? 4 then 1 else 0)).
  assert (0 <= e <= 3) as He by (unfold e; destruct (Z.eqb_spec q1 4); lia).
  exists a, b, c, e, (r3 - 365 * e).
  split; [exact Hb|]. split; [exact Hc|]. split; [exact He|].
  split; [f_equal; lia|].
  split; [unfold d2 in *; lia|].
  unfold e. destruct (Z.eqb_spec q1 4) as [Hq|Hq]; [|lia].
  split; [lia|]. right. split; [lia|]. split; [lia|].
  destruct (Z.eq_dec c 24) as [Hc24|Hc24]; [right|left; assumption].
  apply Hd2. lia.
Qed.


(** Month and day of the month from the day of a 365-day year. *)
Lemma month_of_day day :
  0 <= day < 365 →
  let month := day / 31 in
  let end_ := time.daysBefore (month + 1) in
  let mb := if end_ <=? day then (month + 1, end_) else (month, time.daysBefore month) in
  0 <= mb.1 <= 11 ∧ mb.2 = time.daysBefore mb.1 ∧ mb.2 <= day < time.daysBefore (mb.1 + 1).
Proof.
  intros Hday. cbv zeta.
  pose proof (Z.div_mod day 31 ltac:(lia)) as E.
  pose proof (Z.mod_pos_bound day 31 ltac:(lia)) as B.
  set (m := day / 31) in *. set (r := day mod 31) in *. clearbody m r.
  assert (m = 0 ∨ m = 1 ∨ m = 2 ∨ m = 3 ∨ m = 4 ∨ m = 5 ∨ m = 6 ∨ m = 7 ∨ m = 8
          ∨ m = 9 ∨ m = 10 ∨ m = 11) as Hm by lia.
  repeat (destruct Hm as [->|Hm]); try subst m; simpl;
    match goal with |- context [?x <=? day] => destruct (Z.leb_spec x day) end;
    simpl; lia.
Qed.

(** [absDate] splits an instant into a date whose day number is the day of
    the instant. *)
Lemma absDate_spec a :
  ∃ y m d yd,
    time.absDate a = (y, m, d, yd)
    ∧ 1 <= m <= 12 ∧ 1 <= d <= 31
    ∧ time.dayNumber y m d = a / time.secondsPerDay.
Proof.
  unfold time.absDate.
  destruct (absYear_spec (a / time.secondsPerDay))
    as (ca & cb & cc & ce & yd & Hb & Hc & He & Habs & Hn & Hyd0 & Hyd).
  rewrite Habs. set (y := 400 * ca + 100 * cb + 4 * cc + ce + 1) in *.
  cbv beta iota zeta.
  assert (time.daysSinceEpoch y = 146097 * ca + 36524 * cb + 1461 * cc + 365 * ce) as Hdays
    by (apply daysSinceEpoch_cycles; assumption).
  assert (time.isLeap y = (ce =? 3) && (negb (cc =? 24) || (cb =? 3))) as Hleap
    by (apply isLeap_cycles; assumption).
  assert (time.isLeap y = false → yd < 365) as Hcommon.
  { intros Hl. destruct Hyd as [?|(-> & -> & Hcb)]; [assumption|].
    rewrite Hleap in Hl. cbn in Hl.
    destruct Hcb as [Hcc| ->].
    - apply Z.eqb_neq in Hcc. rewrite Hcc in Hl. discriminate.
    - rewrite orb_true_r in Hl. discriminate. }
  assert (yd <= 365) as Hle by lia.
  clear Hleap Hyd Habs.
  assert (∀ day adj,
            0 <= day < 365 → day + adj = yd →
            (adj = 0 ∨ (adj = 1 ∧ 59 <= day)) →
            (adj = 1 → time.isLeap y = true) →
            (59 <= day → time.isLeap y = true → adj = 1) →
            ∃ m d,
              (let '(month, begin) :=
                 if time.daysBefore (day / 31 + 1) <=? day
                 then (day / 31 + 1, time.daysBefore (day / 31 + 1))
                 else (day / 31, time.daysBefore (day / 31)) in
               (y, month + 1, day - begin + 1, yd)) = (y, m, d, yd)
              ∧ 1 <= m <= 12 ∧ 1 <= d <= 31
              ∧ time.dayNumber y m d = a / time.secondsPerDay) as Hmonths.
  { intros day adj Hday Hadj Hadj01 Hadj1 Hadj0.
    pose proof (month_of_day day Hday) as Hmonth. cbv zeta in Hmonth.
    destruct (if time.daysBefore (day / 31 + 1) <=? day
              then (day / 31 + 1, time.daysBefore (day / 31 + 1))
              else (day / 31, time.daysBefore (day / 31))) as [m begin].
    cbn [fst snd] in Hmonth. destruct Hmonth as (Hm & -> & Hlo & Hhi).
    exists (m + 1), (day - time.daysBefore m + 1). split; [reflexivity|].
    unfold time.dayNumber. rewrite Hdays. replace (m + 1 - 1) with m by lia.
    assert (m = 0 ∨ m = 1 ∨ m = 2 ∨ m = 3 ∨ m = 4 ∨ m = 5 ∨ m = 6 ∨ m = 7 ∨ m = 8
            ∨ m = 9 ∨ m = 10 ∨ m = 11) as Hcases by lia.
    destruct (time.isLeap y);
      repeat (destruct Hcases as [->|Hcases]); try subst m;
      simpl in Hlo, Hhi |- *; lia. }
  destruct (time.isLeap y) eqn:Hl; cbn [andb].
  - destruct (Z.eqb_spec yd (31 + 29 - 1)) as [->|Hne].
    + exists y, 2, 29, (31 + 29 - 1). split; [reflexivity|].
      unfold time.dayNumber. rewrite Hdays, Hl. simpl. lia.
    + destruct (Z.ltb_spec (31 + 29 - 1) yd) as [Hlate|Hearly].
      * destruct (Hmonths (yd - 1) 1) as (m & d & Heq & Hrest); try lia; try reflexivity.
        exists y, m, d, yd. split; [exact Heq|exact Hrest].
      * destruct (Hmonths yd 0) as (m & d & Heq & Hrest); try lia; try reflexivity.
        exists y, m, d, yd. split; [exact Heq|exact Hrest].
  - specialize (Hcommon eq_refl).
    destruct (Hmonths yd 0) as (m & d & Heq & Hrest); try lia; try discriminate.
    exists y, m, d, yd. split; [exact Heq|exact Hrest].
Qed.


(** [time.Date] on a month, an hour, a minute, a second and a nanosecond
    within their ranges, in a location with a fixed offset. *)
Lemma Date_FixedZone year month day hour min sec nsec offset :
  1 <= month <= 12 → 0 <= hour < 24 → 0 <= min < 60 → 0 <= sec < 60 →
  0 <= nsec < 1000000000 →
  time.Date year month day hour min sec nsec (time.FixedZone offset)
  = {| time.sec := (time.dayNumber year month day - time.unixEpochDay) * time.secondsPerDay
                   + hour * 3600 + min * 60 + sec - offset;
       time.nsec := nsec;
       time.loc := time.FixedZone offset |}.
Proof.
  intros Hmonth Hhour Hmin Hsec Hnsec.
  unfold time.Date, time.norm, time.FixedZone, time.dayNumber. cbv beta iota zeta.
  rewrite (Z.div_small (month - 1) 12), (Z.mod_small (month - 1) 12) by lia.
  rewrite (Z.div_small nsec), (Z.mod_small nsec) by lia.
  rewrite !Z.add_0_r.
  rewrite (Z.div_small sec 60), (Z.mod_small sec 60) by lia.
  rewrite !Z.add_0_r.
  rewrite (Z.div_small min 60), (Z.mod_small min 60) by lia.
  rewrite !Z.add_0_r.
  rewrite (Z.div_small hour 24), (Z.mod_small hour 24) by lia.
  rewrite !Z.add_0_r.
  replace (month - 1 + 1) with month by lia.
  f_equal. cbn [fst].
  destruct (Z.eqb_spec offset 0) as [->|Hne]; [lia|].
  destruct (_ || _); reflexivity.
Qed.

Lemma abs_FixedZone t offset :
  time.loc t = time.FixedZone offset →
  time.abs t = time.sec t + offset + time.unixEpochDay * time.secondsPerDay.
Proof. intros Hloc. unfold time.abs. rewrite Hloc. reflexivity. Qed.

(** The start of the day a time shows, in a location with a fixed offset:
    the local seconds are rounded down to a whole day. *)
Lemma startOfDay_FixedZone t offset :
  time.loc t = time.FixedZone offset →
  cmd.startOfDay t
  = {| time.sec := time.secondsPerDay * ((time.sec t + offset) / time.secondsPerDay) - offset;
       time.nsec := 0;
       time.loc := time.FixedZone offset |}.
Proof.
  intros Hloc. unfold cmd.startOfDay, time.Year, time.Month, time.Day.
  destruct (absDate_spec (time.abs t)) as (y & m & d & yd & -> & Hm & Hd & Hday).
  cbn [fst snd]. rewrite Hloc, Date_FixedZone by lia. f_equal.
  rewrite Hday, (abs_FixedZone t offset Hloc), Z.div_add by discriminate.
  unfold time.secondsPerDay. lia.
Qed.

(** [AddDate] by days keeps the time of day, so in a location with a fixed
    offset it adds whole days of 86400 seconds. *)
Lemma AddDate_days_FixedZone t offset days :
  time.loc t = time.FixedZone offset →
  0 <= time.nsec t < 1000000000 →
  time.AddDate t 0 0 days
  = {| time.sec := time.sec t + time.secondsPerDay * days;
       time.nsec := time.nsec t;
       time.loc := time.FixedZone offset |}.
Proof.
  intros Hloc Hnsec. unfold time.AddDate, time.Clock, time.Year, time.Month, time.Day.
  destruct (absDate_spec (time.abs t)) as (y & m & d & yd & -> & Hm & Hd & Hday).
  cbn [fst snd]. rewrite Hloc, !Z.add_0_r.
  pose proof (Z.mod_pos_bound (time.abs t) time.secondsPerDay eq_refl) as Hs.
  pose proof (Z.div_mod (time.abs t) time.secondsPerDay ltac:(discriminate)) as Habs.
  set (s := time.abs t mod time.secondsPerDay) in *.
  unfold time.secondsPerDay in Hs.
  rewrite Date_FixedZone; try lia.
  - f_equal.
    assert (time.dayNumber y m (d + days) = time.dayNumber y m d + days) as ->
      by (unfold time.dayNumber; lia).
    rewrite Hday.
    assert (s / 3600 * 3600 + s mod 3600 / 60 * 60 + s mod 60 = s) as Hclock.
    { pose proof (Z.div_mod s 3600 ltac:(lia)).
      pose proof (Z.div_mod (s mod 3600) 60 ltac:(lia)).
      pose proof (Z.mod_mod_divide s 3600 60 ltac:(exists 60; reflexivity)) as Hmm.
      rewrite <- Hmm. lia. }
    set (q := time.abs t / time.secondsPerDay) in *.
    rewrite (abs_FixedZone t offset Hloc) in Habs.
    unfold time.secondsPerDay in *. lia.
  - split; [apply Z.div_pos; lia|apply Z.div_lt_upper_bound; lia].
  - pose proof (Z.mod_pos_bound s 3600 ltac:(lia)).
    split; [apply Z.div_pos; lia|apply Z.div_lt_upper_bound; lia].
  - apply Z.mod_pos_bound. lia.
Qed.


(** The days of a year. *)
Lemma daysSinceEpoch_next y :
  time.daysSinceEpoch (y + 1) = time.daysSinceEpoch y + (if time.isLeap y then 366 else 365).
Proof.
  pose proof (Z.div_mod (y - 1) 400 ltac:(lia)) as E1.
  pose proof (Z.mod_pos_bound (y - 1) 400 ltac:(lia)) as B1.
  set (a := (y - 1) / 400) in *. set (r1 := (y - 1) mod 400) in *. clearbody a r1.
  pose proof (Z.div_mod r1 100 ltac:(lia)) as E2.
  pose proof (Z.mod_pos_bound r1 100 ltac:(lia)) as B2.
  set (b := r1 / 100) in *. set (r2 := r1 mod 100) in *. clearbody b r2.
  pose proof (Z.div_mod r2 4 ltac:(lia)) as E3.
  pose proof (Z.mod_pos_bound r2 4 ltac:(lia)) as B3.
  set (c := r2 / 4) in *. set (e := r2 mod 4) in *. clearbody c e.
  assert (0 <= b <= 3) as Hb by lia. assert (0 <= c <= 24) as Hc by lia.
  assert (0 <= e <= 3) as He by lia.
  replace y with (400 * a + 100 * b + 4 * c + e + 1) by lia.
  rewrite (daysSinceEpoch_cycles a b c e), (isLeap_cycles a b c e) by assumption.
  destruct (Z.eqb_spec e 3) as [->|He3]; cbn [andb].
  - destruct (Z.eqb_spec c 24) as [->|Hc24]; cbn [negb orb].
    + destruct (Z.eqb_spec b 3) as [->|Hb3].
      * replace (400 * a + 100 * 3 + 4 * 24 + 3 + 1 + 1)
          with (400 * (a + 1) + 100 * 0 + 4 * 0 + 0 + 1) by lia.
        rewrite daysSinceEpoch_cycles by lia. lia.
      * replace (400 * a + 100 * b + 4 * 24 + 3 + 1 + 1)
          with (400 * a + 100 * (b + 1) + 4 * 0 + 0 + 1) by lia.
        rewrite daysSinceEpoch_cycles by lia. lia.
    + replace (400 * a + 100 * b + 4 * c + 3 + 1 + 1)
        with (400 * a + 100 * b + 4 * (c + 1) + 0 + 1) by lia.
      rewrite daysSinceEpoch_cycles by lia. lia.
  - replace (400 * a + 100 * b + 4 * c + e + 1 + 1)
      with (400 * a + 100 * b + 4 * c + (e + 1) + 1) by lia.
    rewrite daysSinceEpoch_cycles by lia. lia.
Qed.

Lemma daysSinceEpoch_later y k :
  0 <= k → time.daysSinceEpoch (y + 1) <= time.daysSinceEpoch (y + 1 + k).
Proof.
  intros Hk. revert k Hk. apply natlike_ind.
  - rewrite Z.add_0_r. lia.
  - intros k Hk IH. replace (y + 1 + Z.succ k) with ((y + 1 + k) + 1) by lia.
    rewrite (daysSinceEpoch_next (y + 1 + k)).
    destruct (time.isLeap (y + 1 + k)); lia.
Qed.

(** A day number has one year and one day of that year. *)
Lemma absYear_daysSinceEpoch y yd :
  0 <= yd < (if time.isLeap y then 366 else 365) →
  time.absYear (time.daysSinceEpoch y + yd) = (y, yd).
Proof.
  intros Hyd.
  destruct (absYear_spec (time.daysSinceEpoch y + yd))
    as (a & b & c & e & yd' & Hb & Hc & He & -> & Hn & Hyd0 & Hyd').
  set (y' := 400 * a + 100 * b + 4 * c + e + 1).
  assert (time.daysSinceEpoch y + yd = time.daysSinceEpoch y' + yd') as Hsame.
  { unfold y'. rewrite daysSinceEpoch_cycles by assumption. lia. }
  assert (yd' < (if time.isLeap y' then 366 else 365)) as Hyd''.
  { unfold y'. rewrite isLeap_cycles by assumption.
    destruct Hyd' as [?|(-> & -> & Hcb)].
    - destruct (_ && _); lia.
    - cbn [Z.eqb Pos.eqb andb].
      destruct Hcb as [Hcc| ->].
      + apply Z.eqb_neq in Hcc. rewrite Hcc. cbn. lia.
      + rewrite orb_true_r. lia. }
  clear Hn Hyd'.
  assert (y = y') as <-.
  { destruct (Z.lt_trichotomy y y') as [Hlt|[Heq|Hgt]]; [|assumption|].
    - pose proof (daysSinceEpoch_later y (y' - y - 1) ltac:(lia)) as Hlater.
      replace (y + 1 + (y' - y - 1)) with y' in Hlater by lia.
      rewrite daysSinceEpoch_next in Hlater. lia.
    - pose proof (daysSinceEpoch_later y' (y - y' - 1) ltac:(lia)) as Hlater.
      replace (y' + 1 + (y - y' - 1)) with y in Hlater by lia.
      rewrite daysSinceEpoch_next in Hlater. lia. }
  f_equal. lia.
Qed.

(** [absDate] gives back the date of a day number: the date [time.Date] was
    given, when it is a date of the calendar. *)
Lemma absDate_dayNumber year month day secs :
  1 <= month <= 12 → 1 <= day <= time.daysIn month year →
  0 <= secs < time.secondsPerDay →
  ∃ yday,
    time.absDate (time.dayNumber year month day * time.secondsPerDay + secs)
    = (year, month, day, yday).
Proof.
  intros Hmonth Hday Hsecs. unfold time.absDate.
  assert ((time.dayNumber year month day * time.secondsPerDay + secs) / time.secondsPerDay
          = time.dayNumber year month day) as ->.
  { symmetry. apply (Z.div_unique _ _ _ secs); lia. }
  unfold time.dayNumber. rewrite <- !Z.add_assoc.
  set (yd := time.daysBefore (month - 1)
             + ((if time.isLeap year && (3 <=? month) then 1 else 0) + (day - 1))).
  assert (month = 1 ∨ month = 2 ∨ month = 3 ∨ month = 4 ∨ month = 5 ∨ month = 6
          ∨ month = 7 ∨ month = 8 ∨ month = 9 ∨ month = 10 ∨ month = 11 ∨ month = 12)
    as Hcases by lia.
  unfold time.daysIn in Hday.
  rewrite absYear_daysSinceEpoch.
  2:{ unfold yd. destruct (time.isLeap year);
      repeat (destruct Hcases as [->|Hcases]); try subst month; simpl in Hday |- *; lia. }
  exists yd.
  assert (∀ dd, 0 <= dd < 365 →
            time.daysBefore (month - 1) <= dd < time.daysBefore month →
            (let '(m, begin) :=
               if time.daysBefore (dd / 31 + 1) <=? dd
               then (dd / 31 + 1, time.daysBefore (dd / 31 + 1))
               else (dd / 31, time.daysBefore (dd / 31)) in
             (year, m + 1, dd - begin + 1, yd))
            = (year, month, dd - time.daysBefore (month - 1) + 1, yd)) as Hmonths.
  { intros dd Hdd Hin.
    pose proof (month_of_day dd Hdd) as Hmb. cbv zeta in Hmb.
    destruct (if time.daysBefore (dd / 31 + 1) <=? dd
              then (dd / 31 + 1, time.daysBefore (dd / 31 + 1))
              else (dd / 31, time.daysBefore (dd / 31))) as [m begin].
    cbn [fst snd] in Hmb. destruct Hmb as (Hm & -> & Hlo & Hhi).
    assert (m = month - 1) as ->.
    { assert (m = 0 ∨ m = 1 ∨ m = 2 ∨ m = 3 ∨ m = 4 ∨ m = 5 ∨ m = 6 ∨ m = 7 ∨ m = 8
              ∨ m = 9 ∨ m = 10 ∨ m = 11) as Hm' by lia.
      repeat (destruct Hcases as [->|Hcases]); try subst month; simpl in Hin;
        repeat (destruct Hm' as [->|Hm']); try subst m; simpl in Hlo, Hhi; lia. }
    replace (month - 1 + 1) with month by lia. reflexivity. }
  cbv zeta.
  destruct (time.isLeap year) eqn:Hleap; cbn [andb] in *.
  - destruct (Z.eqb_spec yd (31 + 29 - 1)) as [Heq|Hne].
    + assert (month = 2 ∧ day = 29) as [-> ->].
      { unfold yd in Heq.
        repeat (destruct Hcases as [->|Hcases]); try subst month; simpl in Hday, Heq; lia. }
      reflexivity.
    + destruct (Z.ltb_spec (31 + 29 - 1) yd) as [Hlate|Hearly].
      * rewrite Hmonths.
        -- f_equal. f_equal. unfold yd.
           repeat (destruct Hcases as [->|Hcases]); try subst month;
             simpl in Hday, Hlate, Hne |- *; unfold yd in Hlate, Hne; simpl in Hlate, Hne; lia.
        -- unfold yd.
           repeat (destruct Hcases as [->|Hcases]); try subst month;
             simpl in Hday |- *; unfold yd in Hlate, Hne; simpl in Hlate, Hne; lia.
        -- unfold yd.
           repeat (destruct Hcases as [->|Hcases]); try subst month;
             simpl in Hday |- *; unfold yd in Hlate, Hne; simpl in Hlate, Hne; lia.
      * rewrite Hmonths.
        -- f_equal. f_equal. unfold yd.
           repeat (destruct Hcases as [->|Hcases]); try subst month;
             simpl in Hday |- *; unfold yd in Hearly, Hne; simpl in Hearly, Hne; lia.
        -- unfold yd.
           repeat (destruct Hcases as [->|Hcases]); try subst month;
             simpl in Hday |- *; unfold yd in Hearly, Hne; simpl in Hearly, Hne; lia.
        -- unfold yd.
           repeat (destruct Hcases as [->|Hcases]); try subst month;
             simpl in Hday |- *; unfold yd in Hearly, Hne; simpl in Hearly, Hne; lia.
  - rewrite Hmonths.
    + f_equal. f_equal. unfold yd. lia.
    + unfold yd.
      repeat (destruct Hcases as [->|Hcases]); try subst month; simpl in Hday |- *; lia.
    + unfold yd.
      repeat (destruct Hcases as [->|Hcases]); try subst month; simpl in Hday |- *; lia.
Qed.

End Calendar.

(** ** Overdue and due soon *)
Section DueDates.
Import strings taskdata cmd.
Local Open Scope Z_scope.

Lemma isEmpty_true s : isEmpty s = true ↔ s = EmptyString.
Proof. destruct s; simpl; split; congruence. Qed.

Lemma isDigit_digit c : time.isDigit c = true → 0 <= time.digit c <= 9.
Proof.
  unfold time.isDigit, time.digit. rewrite andb_true_iff, !N.leb_le. lia.
Qed.

(** The fields read from a due date are a date of the calendar, in a year
    from 0 to 9999. *)
Lemma parseFields_valid value year month day :
  time.parseFields value = Some (year, month, day) →
  0 <= year <= 9999 ∧ 1 <= month <= 12 ∧ 1 <= day <= time.daysIn month year.
Proof.
  unfold time.parseFields. intros Hparse.
  destruct (time.getnum4 value) as [[y v1]|] eqn:Hyear; [|discriminate].
  cbn [mbind option_bind] in Hparse.
  destruct (time.skipDash v1) as [v2|]; [|discriminate].
  cbn [mbind option_bind] in Hparse.
  destruct (time.getnum2 v2) as [[m v3]|]; [|discriminate].
  cbn [mbind option_bind] in Hparse.
  destruct (Z.leb_spec m 0); [discriminate|].
  destruct (Z.ltb_spec 12 m); [discriminate|]. cbn [orb] in Hparse.
  destruct (time.skipDash v3) as [v4|]; [|discriminate].
  cbn [mbind option_bind] in Hparse.
  destruct (time.getnum2 v4) as [[d v5]|]; [|discriminate].
  cbn [mbind option_bind] in Hparse.
  destruct (negb (isEmpty v5)); [discriminate|].
  destruct (Z.ltb_spec d 1); [discriminate|].
  destruct (Z.ltb_spec (time.daysIn m y) d); [discriminate|]. cbn [orb] in Hparse.
  injection Hparse as <- <- <-. split; [|lia].
  unfold time.getnum4 in Hyear.
  destruct value as [|c1 [|c2 [|c3 [|c4 rest]]]]; try discriminate.
  destruct (time.isDigit c1) eqn:Hc1; [|discriminate].
  destruct (time.isDigit c2) eqn:Hc2; [|discriminate].
  destruct (time.isDigit c3) eqn:Hc3; [|discriminate].
  destruct (time.isDigit c4) eqn:Hc4; [|discriminate].
  cbn [andb] in Hyear. injection Hyear as <- _.
  apply isDigit_digit in Hc1, Hc2, Hc3, Hc4. lia.
Qed.

(** A date that parses is the midnight, in UTC, of the day it names. *)
Lemma Parse_date value dueDate :
  time.Parse value = Some dueDate →
  ∃ year month day,
    time.parseFields value = Some (year, month, day)
    ∧ dueDate = {| time.sec := (time.dayNumber year month day - time.unixEpochDay)
                               * time.secondsPerDay;
                   time.nsec := 0;
                   time.loc := time.UTC |}
    ∧ time.Year dueDate = year ∧ time.Month dueDate = month ∧ time.Day dueDate = day
    ∧ time.Clock dueDate = (0, 0, 0).
Proof.
  unfold time.Parse. intros Hparse.
  destruct (time.parseFields value) as [[[year month] day]|] eqn:Hfields; [|discriminate].
  cbn [mbind option_bind] in Hparse. injection Hparse as <-.
  destruct (parseFields_valid _ _ _ _ Hfields) as (Hyear & Hmonth & Hday).
  exists year, month, day. split; [reflexivity|].
  change time.UTC with (time.FixedZone 0).
  rewrite Date_FixedZone by lia.
  replace ((time.dayNumber year month day - time.unixEpochDay) * time.secondsPerDay
           + 0 * 3600 + 0 * 60 + 0 - 0)
    with ((time.dayNumber year month day - time.unixEpochDay) * time.secondsPerDay) by lia.
  split; [reflexivity|].
  match goal with
  | |- context [time.Year ?t] =>
      assert (time.abs t = time.dayNumber year month day * time.secondsPerDay + 0) as Habs
        by (unfold time.abs, time.FixedZone; cbn [time.sec time.loc fst]; lia)
  end.
  unfold time.Year, time.Month, time.Day, time.Clock. rewrite Habs.
  destruct (absDate_dayNumber year month day 0 Hmonth Hday) as [yday ->];
    [split; [lia|reflexivity]|].
  cbn [fst snd]. repeat split.
  rewrite Z.add_0_r, Z.mod_mul by discriminate. reflexivity.
Qed.

(** A date that parses is a midnight in UTC. *)
Lemma Parse_midnight_UTC value dueDate :
  time.Parse value = Some dueDate →
  time.loc dueDate = time.UTC ∧ time.nsec dueDate = 0
  ∧ time.sec dueDate mod time.secondsPerDay = 0.
Proof.
  intros Hparse.
  destruct (Parse_date _ _ Hparse) as (year & month & day & _ & -> & _).
  cbn [time.sec time.nsec time.loc]. repeat split.
  apply Z.mod_mul. discriminate.
Qed.

Lemma Parse_empty : time.Parse "" = None.
Proof. reflexivity. Qed.

(** C5. A task is due soon exactly when it is not completed, its due date
    parses, and the parsed date is neither before [now] nor after [now]
    plus three days; the parsed date is the midnight, in UTC, of the day
    the due date names; completed tasks and tasks with an empty or
    unparseable due date are never due soon; [getDueSoonTasks] keeps the
    tasks that are due soon; and where the offset from UTC is fixed, [now]
    plus three days is 259200 seconds after [now]. *)
Theorem isDueSoon_iff (task : Task) (now : time.Time) :
  (isDueSoon task now = true ↔
     Completed task = false
     ∧ ∃ dueDate,
         time.Parse (DueDate task) = Some dueDate
         ∧ time.Before dueDate now = false
         ∧ time.After dueDate (time.AddDate now 0 0 3) = false)
  ∧ (∀ dueDate,
       time.Parse (DueDate task) = Some dueDate →
       ∃ year month day,
         time.parseFields (DueDate task) = Some (year, month, day)
         ∧ (time.Year dueDate, time.Month dueDate, time.Day dueDate) = (year, month, day)
         ∧ time.Clock dueDate = (0, 0, 0)
         ∧ time.nsec dueDate = 0
         ∧ time.loc dueDate = time.UTC)
  ∧ (Completed task = true → isDueSoon task now = false)
  ∧ (DueDate task = EmptyString → isDueSoon task now = false)
  ∧ (time.Parse (DueDate task) = None → isDueSoon task now = false)
  ∧ (∀ tasks, In task (getDueSoonTasks tasks now) ↔ In task tasks ∧ isDueSoon task now = true)
  ∧ (∀ offset,
       time.loc now = time.FixedZone offset →
       0 <= time.nsec now < 1000000000 →
       time.sec (time.AddDate now 0 0 3) = time.sec now + 259200
       ∧ time.nsec (time.AddDate now 0 0 3) = time.nsec now).
Proof.
  assert (isDueSoon task now = true ↔
     Completed task = false
     ∧ ∃ dueDate,
         time.Parse (DueDate task) = Some dueDate
         ∧ time.Before dueDate now = false
         ∧ time.After dueDate (time.AddDate now 0 0 3) = false) as Hiff.
  { unfold isDueSoon. destruct (Completed task); cbn [orb].
    { split; [discriminate|intros [? _]; discriminate]. }
    destruct (isEmpty (DueDate task)) eqn:Hempty.
    { apply isEmpty_true in Hempty. rewrite Hempty, Parse_empty.
      split; [discriminate|intros [_ (? & ? & _)]; discriminate]. }
    destruct (time.Parse (DueDate task)) as [dueDate|] eqn:Hparse.
    - rewrite andb_true_iff, !negb_true_iff. split.
      + intros [Hb Ha]. split; [reflexivity|]. exists dueDate. repeat split; assumption.
      + intros [_ (d & Hd & Hb & Ha)]. injection Hd as <-. split; assumption.
    - split; [discriminate|intros [_ (? & ? & _)]; discriminate]. }
  split; [exact Hiff|]. split.
  { intros dueDate Hparse.
    destruct (Parse_date _ _ Hparse) as (year & month & day & Hfields & Hdue & Hy & Hm & Hd & Hclock).
    exists year, month, day. split; [exact Hfields|].
    split; [rewrite Hy, Hm, Hd; reflexivity|]. split; [exact Hclock|].
    rewrite Hdue. split; reflexivity. }
  assert (Completed task = true → isDueSoon task now = false) as Hdone.
  { intros Hc. unfold isDueSoon. rewrite Hc. reflexivity. }
  split; [exact Hdone|]. split; [|split; [|split]].
  - intros He. unfold isDueSoon. rewrite He. cbn [isEmpty]. rewrite orb_true_r. reflexivity.
  - intros Hp. unfold isDueSoon. rewrite Hp.
    destruct (Completed task || isEmpty (DueDate task)); reflexivity.
  - intros tasks. unfold getDueSoonTasks. rewrite filter_In, andb_true_iff, negb_true_iff.
    split; [intros (? & ? & ?); split; assumption|].
    intros [Hin Hsoon]. repeat split; try assumption.
    destruct (Completed task) eqn:Hc; [|reflexivity].
    rewrite Hdone in Hsoon by reflexivity. discriminate.
  - intros offset Hloc Hnsec.
    rewrite (AddDate_days_FixedZone now offset 3 Hloc Hnsec). split; reflexivity.
Qed.

(** A task due in two days is due soon, and is not once completed. *)
Lemma isDueSoon_iff_witness :
  let task := {| ID := 1; Description := "pay rent"; DueDate := "2024-01-17";
                 Priority := "normal"; Completed := false |} in
  let now := {| time.sec := 1705312800; time.nsec := 0; time.loc := time.UTC |} in
  isDueSoon task now = true
  ∧ isDueSoon (withCompleted true task) now = false
  ∧ In task (getDueSoonTasks [withCompleted true task; task] now).
Proof.
  intros task now.
  pose proof (isDueSoon_iff task now) as (Hiff & _ & _ & _ & _ & Hget & _).
  pose proof (isDueSoon_iff (withCompleted true task) now) as (_ & _ & Hdone & _).
  assert (isDueSoon task now = true) as Hsoon.
  { apply (proj2 Hiff). split; [reflexivity|].
    exists {| time.sec := 1705449600; time.nsec := 0; time.loc := time.UTC |}.
    repeat apply conj; vm_compute; reflexivity. }
  split; [exact Hsoon|]. split; [apply Hdone; reflexivity|].
  apply (proj2 (Hget [withCompleted true task; task])).
  split; [right; left; reflexivity|exact Hsoon].
Defined.

(** In a location with a fixed offset, three days from now are 259200
    seconds from now: a task is due soon when its due midnight is not
    before [now] and at most that far away. *)
Lemma isDueSoon_FixedZone task now offset :
  time.loc now = time.FixedZone offset →
  0 <= time.nsec now < 1000000000 →
  (isDueSoon task now = true ↔
     Completed task = false
     ∧ ∃ dueDate,
         time.Parse (DueDate task) = Some dueDate
         ∧ (time.sec now < time.sec dueDate
            ∨ (time.sec now = time.sec dueDate ∧ time.nsec now = 0))
         ∧ time.sec dueDate <= time.sec now + 259200).
Proof.
  intros Hloc Hnsec. unfold isDueSoon.
  destruct (Completed task); cbn [orb].
  { split; [discriminate|intros [? _]; discriminate]. }
  destruct (isEmpty (DueDate task)) eqn:Hempty.
  { apply isEmpty_true in Hempty. rewrite Hempty, Parse_empty.
    split; [discriminate|intros [_ (? & ? & _)]; discriminate]. }
  destruct (time.Parse (DueDate task)) as [dueDate|] eqn:Hparse.
  - destruct (Parse_midnight_UTC _ _ Hparse) as (_ & Hdnsec & _).
    rewrite (AddDate_days_FixedZone now offset 3 Hloc Hnsec).
    unfold time.Before, time.After. cbn [time.sec time.nsec]. rewrite Hdnsec.
    rewrite andb_true_iff, !negb_true_iff, !orb_false_iff, !andb_false_iff,
      !Z.ltb_ge, !Z.eqb_neq.
    unfold time.secondsPerDay. split.
    + intros [Hb Ha]. split; [reflexivity|]. exists dueDate. split; [reflexivity|]. lia.
    + intros [_ (d & Hd & Hfrom & Hto)]. injection Hd as <-. lia.
  - split; [discriminate|intros [_ (? & ? & _)]; discriminate].
Qed.

(** In a location with a fixed offset, a task is overdue for the list view
    when its due midnight, in UTC, is before the midnight of the current
    day, in the location. *)
Lemma isOverdue_FixedZone task now offset :
  time.loc now = time.FixedZone offset →
  (isOverdue task now = true ↔
     Completed task = false
     ∧ ∃ dueDate,
         time.Parse (DueDate task) = Some dueDate
         ∧ time.sec dueDate
           < time.secondsPerDay * ((time.sec now + offset) / time.secondsPerDay) - offset).
Proof.
  intros Hloc. unfold isOverdue.
  destruct (Completed task); cbn [orb].
  { split; [discriminate|intros [? _]; discriminate]. }
  destruct (isEmpty (DueDate task)) eqn:Hempty.
  { apply isEmpty_true in Hempty. rewrite Hempty, Parse_empty.
    split; [discriminate|intros [_ (? & ? & _)]; discriminate]. }
  destruct (time.Parse (DueDate task)) as [dueDate|] eqn:Hparse.
  - destruct (Parse_midnight_UTC _ _ Hparse) as (Hdloc & _ & Hdsec).
    rewrite (startOfDay_FixedZone now offset Hloc), (startOfDay_FixedZone dueDate 0 Hdloc).
    unfold time.Before. cbn [time.sec time.nsec].
    rewrite Z.ltb_irrefl, andb_false_r, orb_false_r, Z.ltb_lt.
    assert (time.secondsPerDay * ((time.sec dueDate + 0) / time.secondsPerDay) - 0
            = time.sec dueDate) as ->.
    { pose proof (Z.div_mod (time.sec dueDate) time.secondsPerDay ltac:(discriminate)).
      rewrite Z.add_0_r. lia. }
    split.
    + intros Hlt. split; [reflexivity|]. exists dueDate. split; [reflexivity|assumption].
    + intros [_ (d & Hd & Hlt)]. injection Hd as <-. assumption.
  - split; [discriminate|intros [_ (? & ? & _)]; discriminate].
Qed.

(** The same in calendar days, the due day being the day of the due
    midnight in UTC and the current day the day [now] shows in its location:
    at UTC and east of it a task is overdue when its due day is before the
    current day; west of UTC it is overdue on its due day as well. *)
Lemma isOverdue_calendar_days task now offset :
  time.loc now = time.FixedZone offset →
  - time.secondsPerDay < offset < time.secondsPerDay →
  (isOverdue task now = true ↔
     Completed task = false
     ∧ ∃ dueDate,
         time.Parse (DueDate task) = Some dueDate
         ∧ if 0 <=? offset
           then time.sec dueDate / time.secondsPerDay
                < (time.sec now + offset) / time.secondsPerDay
           else time.sec dueDate / time.secondsPerDay
                <= (time.sec now + offset) / time.secondsPerDay).
Proof.
  intros Hloc Hoffset. rewrite (isOverdue_FixedZone task now offset Hloc).
  assert (∀ dueDate, time.Parse (DueDate task) = Some dueDate →
            (time.sec dueDate
             < time.secondsPerDay * ((time.sec now + offset) / time.secondsPerDay) - offset
             ↔ if 0 <=? offset
               then time.sec dueDate / time.secondsPerDay
                    < (time.sec now + offset) / time.secondsPerDay
               else time.sec dueDate / time.secondsPerDay
                    <= (time.sec now + offset) / time.secondsPerDay)) as Hdays.
  { intros dueDate Hparse.
    destruct (Parse_midnight_UTC _ _ Hparse) as (_ & _ & Hdsec).
    pose proof (Z.div_mod (time.sec dueDate) time.secondsPerDay ltac:(discriminate)) as Hd.
    rewrite Hdsec in Hd.
    set (dueDay := time.sec dueDate / time.secondsPerDay) in *.
    set (today := (time.sec now + offset) / time.secondsPerDay).
    unfold time.secondsPerDay in *.
    destruct (Z.leb_spec 0 offset); lia. }
  split; intros [Hc (d & Hd & Hlt)]; (split; [exact Hc|]); exists d;
    (split; [exact Hd|]); apply (Hdays d Hd); exact Hlt.
Qed.

(** The list view and the mark view test for overdue tasks with the same
    code. *)
Lemma isOverdue_isTaskOverdue task now : isOverdue task now = isTaskOverdue task now.
Proof. unfold isOverdue, isTaskOverdue. reflexivity. Qed.

(** C7. The due date is optional: the empty date is valid, a task can be
    added with it and keeps it, and a task without a due date is neither
    overdue, for any of the three views, nor due soon. *)
Theorem due_date_optional `{!Unicode} :
  ValidateDate EmptyString = None
  ∧ (∀ store description priority,
       ValidatePriority priority = None →
       ∃ task,
         AddTask store description EmptyString priority
         = (inr task, {| Tasks := Tasks store ++ [task];
                         NextID := GoInt.incr (NextID store) |})
         ∧ DueDate task = EmptyString)
  ∧ (∀ task now,
       DueDate task = EmptyString →
       isOverdue task now = false ∧ isTaskOverdue task now = false
       ∧ overdueForDeletion now task = false
       ∧ isDueSoon task now = false).
Proof.
  split; [reflexivity|]. split.
  - intros store description priority Hprio. unfold AddTask.
    change (ValidateDate EmptyString) with (@None error). cbv iota. rewrite Hprio.
    eexists. split; reflexivity.
  - intros task now He. unfold isOverdue, isTaskOverdue, overdueForDeletion, isDueSoon.
    rewrite He. cbn [isEmpty]. rewrite orb_true_r. repeat split.
Qed.

(** A task added without a due date. *)
Lemma due_date_optional_witness :
  ∃ task,
    @AddTask asciiUnicode emptyStore "water the plants" "" "Low"
    = (inr task, {| Tasks := [task]; NextID := 2 |})
    ∧ DueDate task = EmptyString
    ∧ isOverdue task {| time.sec := 1705312800; time.nsec := 0; time.loc := time.UTC |} = false
    ∧ isDueSoon task {| time.sec := 1705312800; time.nsec := 0; time.loc := time.UTC |} = false.
Proof.
  pose proof (@due_date_optional asciiUnicode) as (_ & Hadd & Hnever).
  destruct (Hadd emptyStore "water the plants"%string "Low"%string eq_refl) as (task & Heq & Hdue).
  exists task. split; [exact Heq|]. split; [exact Hdue|].
  destruct (Hnever task {| time.sec := 1705312800; time.nsec := 0; time.loc := time.UTC |} Hdue)
    as (Ho & _ & _ & Hs).
  split; assumption.
Defined.

(** C3. At ten in the morning of 15 January 2024 in a location five hours
    west of UTC, a pending task due on 15 January 2024 is classified as
    overdue by the list view and by the mark view, although its due day is
    the current day. *)
Theorem isOverdue_due_today_west_of_UTC :
  let task := {| ID := 1; Description := "pay rent"; DueDate := "2024-01-15";
                 Priority := "normal"; Completed := false |} in
  let now := {| time.sec := 1705330800; time.nsec := 0; time.loc := time.FixedZone (-18000) |} in
  (time.Year now, time.Month now, time.Day now, time.Clock now) = (2024, 1, 15, (10, 0, 0))
  ∧ (∃ dueDate, time.Parse (DueDate task) = Some dueDate
       ∧ (time.Year dueDate, time.Month dueDate, time.Day dueDate) = (2024, 1, 15))
  ∧ isOverdue task now = true
  ∧ isTaskOverdue task now = true.
Proof.
  intros task now. apply conj; [vm_compute; reflexivity|]. apply conj.
  - exists {| time.sec := 1705276800; time.nsec := 0; time.loc := time.UTC |}.
    apply conj; vm_compute; reflexivity.
  - apply conj; vm_compute; reflexivity.
Qed.

(** In UTC, every pending task due on the current day is overdue for the
    delete view from the first instant after midnight, and is not overdue
    for the list view. *)
Lemma overdue_due_today_UTC task now dueDate :
  time.loc now = time.UTC →
  Completed task = false →
  time.Parse (DueDate task) = Some dueDate →
  time.sec dueDate / time.secondsPerDay = time.sec now / time.secondsPerDay →
  time.sec dueDate < time.sec now ∨ 0 < time.nsec now →
  isOverdue task now = false ∧ overdueForDeletion now task = true.
Proof.
  intros Hloc Hpending Hparse Hday Hafter. split.
  - destruct (isOverdue task now) eqn:Hover; [|reflexivity].
    apply (isOverdue_calendar_days task now 0 Hloc) in Hover; [|split; reflexivity].
    destruct Hover as [_ (d & Hd & Hlt)]. rewrite Hparse in Hd. injection Hd as <-.
    change (0 <=? 0) with true in Hlt. cbv iota in Hlt. rewrite Z.add_0_r in Hlt. lia.
  - destruct (Parse_midnight_UTC _ _ Hparse) as (_ & Hnsec & Hsec).
    unfold overdueForDeletion. rewrite Hpending, Hparse.
    destruct (isEmpty (DueDate task)) eqn:Hempty.
    { apply isEmpty_true in Hempty. rewrite Hempty, Parse_empty in Hparse. discriminate. }
    cbn [orb]. unfold time.Before. rewrite Hnsec.
    pose proof (Z.div_mod (time.sec dueDate) time.secondsPerDay ltac:(discriminate)) as Hd.
    pose proof (Z.div_mod (time.sec now) time.secondsPerDay ltac:(discriminate)) as Hn.
    pose proof (Z.mod_pos_bound (time.sec now) time.secondsPerDay eq_refl) as Hb.
    rewrite Hsec in Hd. rewrite Hday in Hd.
    destruct (Z.ltb_spec (time.sec dueDate) (time.sec now)); [reflexivity|].
    cbn [orb]. apply andb_true_iff. split; [apply Z.eqb_eq|apply Z.ltb_lt]; lia.
Qed.

(** C10. At ten in the morning of 15 January 2024, UTC, a pending task due
    on 15 January 2024 is not overdue for the list view nor for the mark
    view, and is overdue for the delete view. *)
Theorem overdue_tests_disagree :
  let task := {| ID := 1; Description := "pay rent"; DueDate := "2024-01-15";
                 Priority := "normal"; Completed := false |} in
  let now := {| time.sec := 1705312800; time.nsec := 0; time.loc := time.UTC |} in
  (time.Year now, time.Month now, time.Day now, time.Clock now) = (2024, 1, 15, (10, 0, 0))
  ∧ isOverdue task now = false
  ∧ isTaskOverdue task now = false
  ∧ getOverdueTasks [task] now = [task].
Proof.
  intros task now. repeat apply conj; vm_compute; reflexivity.
Qed.

End DueDates.

(** ** Duplicates *)
Section Duplicates.
Import strings taskdata cmd.
Local Open Scope Z_scope.
Context `{!Unicode}.

Lemma NoDup_snoc {A : Type} (l : list A) (x : A) : NoDup (l ++ [x]) ↔ NoDup l ∧ ¬ In x l.
Proof.
  rewrite NoDup_app. split.
  - intros (Hl & Hdisj & _). split; [assumption|].
    intros Hin. apply (Hdisj x); [apply list_elem_of_In; assumption|].
    apply list_elem_of_singleton. reflexivity.
  - intros [Hl Hx]. split; [assumption|]. split; [|apply NoDup_singleton].
    intros y Hy Hy'. apply list_elem_of_singleton in Hy'. subst y.
    apply Hx, list_elem_of_In. assumption.
Qed.

Lemma findDuplicateStep_invariant st visited task :
  duplicatesInvariant st visited →
  duplicatesInvariant (findDuplicateStep st task)
    (visited ++ if isPending task then [task] else []).
Proof.
  intros [Hkeys Hseen Hdups Hnil]. destruct st as [duplicates seen].
  unfold findDuplicateStep, isPending. cbn [fst snd] in *.
  destruct (Completed task); cbn [negb].
  { rewrite app_nil_r. split; assumption. }
  fold (duplicateKey task).
  destruct (seen !! duplicateKey task) as [existing|] eqn:Hlook.
  - assert (In (duplicateKey task) (map duplicateKey visited)) as Hdup.
    { apply Hkeys. rewrite Hlook. eexists; reflexivity. }
    assert (In existing visited) as Hexisting by (eapply Hseen; eassumption).
    destruct (shouldKeepExisting existing task); split; cbn [fst snd].
    + intros k. rewrite map_app, in_app_iff, Hkeys. cbn [map In]. intuition (subst; auto).
    + intros k t Hk. apply in_or_app. left. eapply Hseen; eassumption.
    + intros t Ht. apply in_app_or in Ht as [Ht|[<-|[]]]; apply in_or_app;
        [left; auto|right; left; reflexivity].
    + rewrite map_app. cbn [map]. rewrite NoDup_snoc. split.
      * intros Heq. destruct duplicates; discriminate.
      * intros [_ Hfresh]. contradiction.
    + intros k. rewrite map_app, in_app_iff. cbn [map In].
      destruct (decide (duplicateKey task = k)) as [<-|Hne].
      * rewrite lookup_insert_eq. split; [auto|eexists; reflexivity].
      * rewrite lookup_insert_ne by assumption. rewrite Hkeys. intuition.
    + intros k t.
      destruct (decide (duplicateKey task = k)) as [<-|Hne].
      * rewrite lookup_insert_eq. intros [= <-]. apply in_or_app. right. left. reflexivity.
      * rewrite lookup_insert_ne by assumption. intros Hk. apply in_or_app. left.
        eapply Hseen; eassumption.
    + intros t Ht. apply in_or_app. left.
      apply in_app_or in Ht as [Ht|[<-|[]]]; auto.
    + rewrite map_app. cbn [map]. rewrite NoDup_snoc. split.
      * intros Heq. destruct duplicates; discriminate.
      * intros [_ Hfresh]. contradiction.
  - assert (¬ In (duplicateKey task) (map duplicateKey visited)) as Hfresh.
    { intros Hin. apply Hkeys in Hin as [t Ht]. congruence. }
    split; cbn [fst snd].
    + intros k. rewrite map_app, in_app_iff. cbn [map In].
      destruct (decide (duplicateKey task = k)) as [<-|Hne].
      * rewrite lookup_insert_eq. split; [auto|eexists; reflexivity].
      * rewrite lookup_insert_ne by assumption. rewrite Hkeys. intuition.
    + intros k t.
      destruct (decide (duplicateKey task = k)) as [<-|Hne].
      * rewrite lookup_insert_eq. intros [= <-]. apply in_or_app. right. left. reflexivity.
      * rewrite lookup_insert_ne by assumption. intros Hk. apply in_or_app. left.
        eapply Hseen; eassumption.
    + intros t Ht. apply in_or_app. left. auto.
    + rewrite map_app. cbn [map]. rewrite NoDup_snoc, Hnil. intuition.
Qed.

Lemma findDuplicateLoop_invariant tasks : ∀ st visited,
  duplicatesInvariant st visited →
  duplicatesInvariant (fold_left findDuplicateStep tasks st)
    (visited ++ List.filter isPending tasks).
Proof.
  induction tasks as [|task tasks IH]; intros st visited Hinv; simpl.
  - rewrite app_nil_r. assumption.
  - apply (findDuplicateStep_invariant _ _ task), IH in Hinv.
    rewrite <- app_assoc in Hinv. destruct (isPending task); exact Hinv.
Qed.

Lemma duplicatesInvariant_start : duplicatesInvariant ([], ∅) [].
Proof.
  split; simpl.
  - intros k. rewrite lookup_empty. split; [intros [? ?]; discriminate|intros []].
  - intros k t. rewrite lookup_empty. discriminate.
  - intros t [].
  - split; [constructor|reflexivity].
Qed.

(** C2, as the code has it.  Two pending tasks are reported as duplicates of
    one another exactly when their normalized descriptions are equal, and
    then [shouldKeepExisting] chooses which of the two is reported; in a
    collection, no task is reported exactly when the normalized
    descriptions of the pending tasks are pairwise distinct, and every
    reported task is a pending task of the collection.  The similarity
    score takes no part. *)
Theorem duplicates_by_normalized_description :
  (∀ a b,
     Completed a = false → Completed b = false →
     findDuplicateTasks [a; b]
     = if String.eqb (normalizeDescription (Description a))
                     (normalizeDescription (Description b))
       then [if shouldKeepExisting a b then b else a]
       else [])
  ∧ (∀ tasks,
       (findDuplicateTasks tasks = []
        ↔ NoDup (map (λ task, normalizeDescription (Description task))
                   (List.filter (λ task, negb (Completed task)) tasks)))
       ∧ ∀ task, In task (findDuplicateTasks tasks) → In task tasks ∧ Completed task = false).
Proof.
  split.
  - intros a b Ha Hb. unfold findDuplicateTasks, findDuplicateStep. simpl.
    rewrite Ha, Hb, lookup_empty, lookup_insert.
    destruct (String.eqb_spec (normalizeDescription (Description a))
                (normalizeDescription (Description b))) as [Heq|Hne].
    + rewrite decide_True by assumption.
      destruct (shouldKeepExisting a b); reflexivity.
    + rewrite decide_False by assumption. reflexivity.
  - intros tasks.
    pose proof (findDuplicateLoop_invariant tasks _ _ duplicatesInvariant_start)
      as [_ _ Hdups Hnil].
    simpl in Hdups, Hnil. split; [exact Hnil|].
    intros task Hin. apply Hdups, filter_In in Hin as [Hin Hpending].
    split; [assumption|]. unfold isPending in Hpending.
    destruct (Completed task); [discriminate|reflexivity].
Qed.

End Duplicates.

(** C2, as the claim has it: were duplicates decided by the similarity score
    of the descriptions, two pairs of pending tasks with the same scores,
    in both directions, would be classified alike.  They are not:
    ["buy  milk"] and ["buy milk"] score 0.6 both ways and are duplicates,
    ["buy milk"] and ["milk buy"] score 0.6 both ways and are not. *)
Lemma duplicates_not_decided_by_similarity :
  ¬ (∀ a b a' b' : taskdata.Task,
       taskdata.Completed a = false → taskdata.Completed b = false →
       taskdata.Completed a' = false → taskdata.Completed b' = false →
       @cmd.calculateSimilarityScore strings.asciiUnicode
         (taskdata.Description a) (taskdata.Description b)
       = @cmd.calculateSimilarityScore strings.asciiUnicode
           (taskdata.Description a') (taskdata.Description b') →
       @cmd.calculateSimilarityScore strings.asciiUnicode
         (taskdata.Description b) (taskdata.Description a)
       = @cmd.calculateSimilarityScore strings.asciiUnicode
           (taskdata.Description b') (taskdata.Description a') →
       (@cmd.findDuplicateTasks strings.asciiUnicode [a; b] = []
        ↔ @cmd.findDuplicateTasks strings.asciiUnicode [a'; b'] = [])).
Proof.
  intros Hclaim.
  pose (mk := λ id description,
          {| taskdata.ID := id; taskdata.Description := description;
             taskdata.DueDate := ""; taskdata.Priority := "normal";
             taskdata.Completed := false |}).
  specialize (Hclaim (mk 1%Z "buy  milk"%string) (mk 2%Z "buy milk"%string)
                (mk 3%Z "buy milk"%string) (mk 4%Z "milk buy"%string)
                eq_refl eq_refl eq_refl eq_refl).
  assert (@cmd.findDuplicateTasks strings.asciiUnicode
            [mk 3%Z "buy milk"%string; mk 4%Z "milk buy"%string] = []) as Hnone
    by (vm_compute; reflexivity).
  apply Hclaim in Hnone; [| vm_compute; reflexivity | vm_compute; reflexivity].
  vm_compute in Hnone. discriminate Hnone.
Qed.

(** Case and spacing do not tell two descriptions apart, a further word
    does. *)
Lemma duplicates_by_normalized_description_witness :
  let mk := λ id description due,
          {| taskdata.ID := id; taskdata.Description := description;
             taskdata.DueDate := due; taskdata.Priority := "normal";
             taskdata.Completed := false |} in
  @cmd.findDuplicateTasks strings.asciiUnicode
     [mk 1%Z " Buy  milk"%string ""%string; mk 2%Z "buy milk"%string "2024-01-31"%string]
  = [mk 1%Z " Buy  milk"%string ""%string]
  ∧ @cmd.findDuplicateTasks strings.asciiUnicode
     [mk 1%Z "buy milk"%string ""%string; mk 2%Z "buy milk today"%string ""%string]
  = [].
Proof.
  intros mk.
  pose proof (@duplicates_by_normalized_description strings.asciiUnicode) as [Hpair _].
  split.
  - rewrite Hpair by reflexivity. vm_compute. reflexivity.
  - rewrite Hpair by reflexivity. vm_compute. reflexivity.
Defined.

(** ** Sorting *)
Section StringOrder.
Import strings.

Lemma lt_irrefl a : lt a a = false.
Proof.
  induction a as [|x a IH]; simpl; [reflexivity|].
  rewrite N.ltb_irrefl. assumption.
Qed.

Lemma lt_trans a : ∀ b c, lt a b = true → lt b c = true → lt a c = true.
Proof.
  induction a as [|x a IH]; intros [|y b] [|z c]; simpl; try congruence.
  destruct (N.ltb_spec (N_of_ascii x) (N_of_ascii y)),
    (N.ltb_spec (N_of_ascii y) (N_of_ascii x)),
    (N.ltb_spec (N_of_ascii y) (N_of_ascii z)),
    (N.ltb_spec (N_of_ascii z) (N_of_ascii y)),
    (N.ltb_spec (N_of_ascii x) (N_of_ascii z)),
    (N.ltb_spec (N_of_ascii z) (N_of_ascii x));
    try congruence; try lia.
  apply IH.
Qed.

Lemma lt_neg_trans a : ∀ b c, lt a b = false → lt b c = false → lt a c = false.
Proof.
  induction a as [|x a IH]; intros [|y b] [|z c]; simpl; try congruence.
  destruct (N.ltb_spec (N_of_ascii x) (N_of_ascii y)),
    (N.ltb_spec (N_of_ascii y) (N_of_ascii x)),
    (N.ltb_spec (N_of_ascii y) (N_of_ascii z)),
    (N.ltb_spec (N_of_ascii z) (N_of_ascii y)),
    (N.ltb_spec (N_of_ascii x) (N_of_ascii z)),
    (N.ltb_spec (N_of_ascii z) (N_of_ascii x));
    try congruence; try lia.
  apply IH.
Qed.

End StringOrder.

Section SortFacts.
Import sort.
Context {A : Type} (less : A → A → bool).

Lemma insertBack_permutation x sorted : Permutation (insertBack less x sorted) (x :: sorted).
Proof.
  induction sorted as [|y sorted IH]; simpl; [reflexivity|].
  destruct (less x y); [|reflexivity].
  rewrite IH. apply perm_swap.
Qed.

Lemma insertionSort_permutation l : Permutation (insertionSort less l) l.
Proof.
  unfold insertionSort.
  assert (∀ sorted, Permutation (fold_left (λ s x, insertBack less x s) l sorted)
                      (rev l ++ sorted)) as Hfold.
  { induction l as [|x l IH]; intros sorted; simpl; [reflexivity|].
    rewrite IH, insertBack_permutation, <- app_assoc. simpl.
    apply Permutation_app_head. reflexivity. }
  rewrite <- Permutation_rev, Hfold, app_nil_r, <- Permutation_rev. reflexivity.
Qed.

Hypothesis Hless : StrictWeakOrder less.

Lemma insertBack_descending x sorted : Descending less sorted → Descending less (insertBack less x sorted).
Proof.
  unfold Descending. induction sorted as [|y sorted IH]; intros Hsorted; simpl.
  - repeat constructor.
  - apply StronglySorted_inv in Hsorted as [Htail Hy].
    destruct (less x y) eqn:Hxy.
    + constructor; [apply IH; assumption|].
      apply Forall_forall. intros z Hz.
      apply list_elem_of_In in Hz.
      apply (Permutation_in _ (insertBack_permutation x sorted)) in Hz as [<-|Hz].
      * destruct (less y x) eqn:Hyx; [|reflexivity].
        pose proof (less_trans _ Hless _ _ _ Hxy Hyx) as Hxx.
        rewrite (less_irrefl _ Hless) in Hxx. discriminate.
      * rewrite Forall_forall in Hy. apply Hy, list_elem_of_In. assumption.
    + constructor; [constructor; assumption|].
      constructor; [assumption|].
      eapply Forall_impl; [exact Hy|]. simpl. intros z Hyz.
      eapply less_neg_trans; eassumption.
Qed.

Lemma StronglySorted_snoc (R : A → A → Prop) l x :
  StronglySorted R l → Forall (λ y, R y x) l → StronglySorted R (l ++ [x]).
Proof.
  induction 1 as [|y l Hl IH Hy]; intros Hall; simpl.
  - repeat constructor.
  - apply Forall_cons in Hall as [Hyx Hall].
    constructor; [apply IH; assumption|].
    apply Forall_app. split; [assumption|]. repeat constructor. assumption.
Qed.

Lemma StronglySorted_rev (R : A → A → Prop) l :
  StronglySorted R l → StronglySorted (λ x y, R y x) (rev l).
Proof.
  induction 1 as [|x l Hl IH Hx]; simpl; [constructor|].
  apply StronglySorted_snoc; [assumption|].
  apply Forall_forall. intros z Hz. rewrite Forall_forall in Hx. apply Hx.
  apply list_elem_of_In, in_rev. apply list_elem_of_In in Hz. assumption.
Qed.

Lemma insertionSort_ordered l : Ordered less (insertionSort less l).
Proof.
  unfold Ordered, insertionSort.
  apply (StronglySorted_rev (λ x y, less x y = false)).
  assert (∀ sorted, Descending less sorted →
            Descending less (fold_left (λ s x, insertBack less x s) l sorted)) as Hfold.
  { induction l as [|x l IH]; intros sorted Hsorted; simpl; [assumption|].
    apply IH, insertBack_descending. assumption. }
  apply Hfold. constructor.
Qed.

End SortFacts.

(** The insertion sort honours the contract of [sort.Slice]. *)
Lemma insertionSorter_contract : sort.SorterContract sort.insertionSorter.
Proof.
  split.
  - intros A less l. apply insertionSort_permutation.
  - intros A less l Hless. apply insertionSort_ordered. assumption.
Qed.

Section FilterTasks.
Import strings taskdata cmd.
Local Open Scope Z_scope.

Lemma filterLess_strict_weak_order : sort.StrictWeakOrder filterLess.
Proof.
  split.
  - intros x. unfold filterLess.
    rewrite Bool.eqb_reflx, Z.eqb_refl. cbn [negb].
    destruct (isEmpty (DueDate x)); cbn [negb andb]; [reflexivity|apply lt_irrefl].
  - intros x y z. unfold filterLess.
    generalize (lt_trans (DueDate x) (DueDate y) (DueDate z)).
    generalize (lt (DueDate x) (DueDate y)), (lt (DueDate y) (DueDate z)),
      (lt (DueDate x) (DueDate z)).
    generalize (priorityRank (Priority x)), (priorityRank (Priority y)),
      (priorityRank (Priority z)).
    intros rx ry rz lxy lyz lxz Hlt.
    destruct (Completed x), (Completed y), (Completed z); cbn; try congruence;
      destruct (Z.eqb_spec rx ry), (Z.eqb_spec ry rz), (Z.eqb_spec rx rz); cbn;
      rewrite ?Z.ltb_lt; try lia; try congruence;
      destruct (isEmpty (DueDate x)), (isEmpty (DueDate y)), (isEmpty (DueDate z)); cbn;
      try congruence; auto.
  - intros x y z. unfold filterLess.
    generalize (lt_neg_trans (DueDate x) (DueDate y) (DueDate z)).
    generalize (lt (DueDate x) (DueDate y)), (lt (DueDate y) (DueDate z)),
      (lt (DueDate x) (DueDate z)).
    generalize (priorityRank (Priority x)), (priorityRank (Priority y)),
      (priorityRank (Priority z)).
    intros rx ry rz lxy lyz lxz Hlt.
    destruct (Completed x), (Completed y), (Completed z); cbn; try congruence;
      destruct (Z.eqb_spec rx ry), (Z.eqb_spec ry rz), (Z.eqb_spec rx rz); cbn;
      rewrite ?Z.ltb_ge; try lia; try congruence;
      destruct (isEmpty (DueDate x)), (isEmpty (DueDate y)), (isEmpty (DueDate z)); cbn;
      try congruence; auto.
Qed.

Lemma StronglySorted_lookup {A : Type} (R : A → A → Prop) (l : list A) :
  StronglySorted R l →
  ∀ i j a b, (i < j)%nat → l !! i = Some a → l !! j = Some b → R a b.
Proof.
  induction 1 as [|x l Hl IH Hx]; intros i j a b Hij Ha Hb.
  - rewrite lookup_nil in Ha. discriminate.
  - destruct j as [|j]; [lia|]. destruct i as [|i]; simpl in Ha, Hb.
    + injection Ha as <-. rewrite Forall_forall in Hx. apply Hx.
      eapply list_elem_of_lookup_2. eassumption.
    + apply (IH i j); [lia|assumption|assumption].
Qed.

Context `{!Unicode} `{!sort.Sorter} `{!sort.SorterContract _}.

Lemma filterLoop_filter opts now tasks : ∀ filtered,
  filterLoop opts now tasks filtered = filtered ++ List.filter (passesFilters opts now) tasks.
Proof.
  induction tasks as [|task tasks IH]; intros filtered; simpl.
  - rewrite app_nil_r. reflexivity.
  - destruct (passesFilters opts now task); rewrite IH; [|reflexivity].
    rewrite <- app_assoc. reflexivity.
Qed.

Lemma isSameDay_dates date1 date2 :
  isSameDay date1 date2 = true
  ↔ (time.Year date1, time.Month date1, time.Day date1)
    = (time.Year date2, time.Month date2, time.Day date2).
Proof.
  unfold isSameDay. rewrite !andb_true_iff, !Z.eqb_eq. split.
  - intros [[-> ->] ->]. reflexivity.
  - intros [= -> -> ->]. auto.
Qed.

Lemma isSameMonth_dates date1 date2 :
  isSameMonth date1 date2 = true
  ↔ (time.Year date1, time.Month date1) = (time.Year date2, time.Month date2).
Proof.
  unfold isSameMonth. rewrite !andb_true_iff, !Z.eqb_eq. split.
  - intros [-> ->]. reflexivity.
  - intros [= -> ->]. auto.
Qed.

Lemma matchesTimeFilter_requested task timeFilter now :
  matchesTimeFilter task timeFilter now = true
  ↔ timeFilter = "all"%string ∨ DueDate task = EmptyString
    ∨ ∃ dueDate,
        time.Parse (DueDate task) = Some dueDate
        ∧ (timeFilter = "today"%string →
           (time.Year dueDate, time.Month dueDate, time.Day dueDate)
           = (time.Year now, time.Month now, time.Day now))
        ∧ (timeFilter = "week"%string → isInWeekRange dueDate now = true)
        ∧ (timeFilter = "month"%string →
           (time.Year dueDate, time.Month dueDate) = (time.Year now, time.Month now)).
Proof.
  unfold matchesTimeFilter.
  destruct (String.eqb_spec timeFilter "all") as [Hall|Hall]; [tauto|].
  destruct (isEmpty (DueDate task)) eqn:Hempty.
  { apply isEmpty_true in Hempty. tauto. }
  assert (DueDate task ≠ EmptyString) as Hdue.
  { intros Hd. apply isEmpty_true in Hd. congruence. }
  destruct (time.Parse (DueDate task)) as [dueDate|].
  2: { split; [discriminate|]. intros [?|[?|(dueDate & Hparse & _)]]; congruence. }
  setoid_rewrite <- isSameDay_dates. setoid_rewrite <- isSameMonth_dates.
  destruct (String.eqb_spec timeFilter "today") as [->|Htoday].
  { split.
    - intros Hday. right. right. exists dueDate.
      split; [reflexivity|]. split; [intros _; exact Hday|]. split; discriminate.
    - intros [?|[?|(d & [= <-] & Hday & _)]]; [congruence..|]. apply Hday. reflexivity. }
  destruct (String.eqb_spec timeFilter "week") as [->|Hweek].
  { split.
    - intros Hday. right. right. exists dueDate.
      split; [reflexivity|]. split; [discriminate|]. split; [intros _; exact Hday|discriminate].
    - intros [?|[?|(d & [= <-] & _ & Hday & _)]]; [congruence..|]. apply Hday. reflexivity. }
  destruct (String.eqb_spec timeFilter "month") as [->|Hmonth].
  { split.
    - intros Hday. right. right. exists dueDate.
      split; [reflexivity|]. split; [discriminate|]. split; [discriminate|intros _; exact Hday].
    - intros [?|[?|(d & [= <-] & _ & _ & Hday)]]; [congruence..|]. apply Hday. reflexivity. }
  split; [|reflexivity]. intros _. right. right. exists dueDate.
  split; [reflexivity|]. repeat split; intros; congruence.
Qed.

Lemma matchesPriority_requested task priority :
  matchesPriority task priority = true
  ↔ Priority task
    = (if String.eqb (ToLower priority) "h" then "high"
       else if String.eqb (ToLower priority) "n" then "normal"
       else if String.eqb (ToLower priority) "l" then "low"
       else ToLower priority)%string.
Proof. unfold matchesPriority. apply String.eqb_eq. Qed.

Lemma passesFilters_requested opts now task :
  passesFilters opts now task = true
  ↔ (showOverdue opts = true → isOverdue task now = true)
    ∧ (showDueSoon opts = true → isDueSoon task now = true)
    ∧ (showNoDate opts = true → DueDate task = EmptyString)
    ∧ (showOverdue opts = false → showDueSoon opts = false → showNoDate opts = false →
       matchesTimeFilter task (timeFilter opts) now = true)
    ∧ (priority opts ≠ EmptyString → matchesPriority task (priority opts) = true)
    ∧ (showCompleted opts = true → showPending opts = false → Completed task = true)
    ∧ (showPending opts = true → showCompleted opts = false → Completed task = false).
Proof.
  unfold passesFilters.
  rewrite <- (isEmpty_true (DueDate task)).
  assert (priority opts ≠ EmptyString ↔ isEmpty (priority opts) = false) as ->.
  { rewrite <- isEmpty_true. destruct (isEmpty (priority opts)); split; congruence. }
  destruct (showOverdue opts), (showDueSoon opts), (showNoDate opts),
    (showCompleted opts), (showPending opts), (isOverdue task now), (isDueSoon task now),
    (isEmpty (DueDate task)), (isEmpty (priority opts)),
    (matchesTimeFilter task (timeFilter opts) now), (matchesPriority task (priority opts)),
    (Completed task); cbn; intuition congruence.
Qed.

(** C4. [filterTasks] returns exactly the tasks of its input that satisfy
    the requested filters, as often as they occur there.  A task satisfies
    them when: with the overdue option it is overdue, with the due-soon
    option it is due soon, with the no-date option it has no due date; with
    none of these three, the time filter is [all], or the task has no due
    date, or its due date parses and is, for [today], the date the current
    time shows, for [week], in the week range, for [month], in its month;
    with a priority given, its priority is that one, in lower case, the
    letters h, n and l standing for high, normal and low; and with one of
    the completed and pending options but not the other, it is completed,
    or pending.  The tasks are arranged so that, for a task [a] placed
    before a task [b]: if [a] is completed so is [b]; with the same
    completion status, the priority of [a] ranks at least as high as that
    of [b], high above normal above low; with the same rank as well, if [a]
    has no due date neither has [b], and if both have one, that of [b] is
    not the earlier string. *)
Theorem filterTasks_ordered (tasks : list Task) (opts : filterOptions) (now : time.Time) :
  let inTime := λ task : Task,
    timeFilter opts = "all"%string ∨ DueDate task = EmptyString
    ∨ ∃ dueDate,
        time.Parse (DueDate task) = Some dueDate
        ∧ (timeFilter opts = "today"%string →
           (time.Year dueDate, time.Month dueDate, time.Day dueDate)
           = (time.Year now, time.Month now, time.Day now))
        ∧ (timeFilter opts = "week"%string → isInWeekRange dueDate now = true)
        ∧ (timeFilter opts = "month"%string →
           (time.Year dueDate, time.Month dueDate) = (time.Year now, time.Month now)) in
  let requested := λ task : Task,
    (showOverdue opts = true → isOverdue task now = true)
    ∧ (showDueSoon opts = true → isDueSoon task now = true)
    ∧ (showNoDate opts = true → DueDate task = EmptyString)
    ∧ (showOverdue opts = false → showDueSoon opts = false → showNoDate opts = false →
       inTime task)
    ∧ (priority opts ≠ EmptyString →
       Priority task
       = (if String.eqb (ToLower (priority opts)) "h" then "high"
          else if String.eqb (ToLower (priority opts)) "n" then "normal"
          else if String.eqb (ToLower (priority opts)) "l" then "low"
          else ToLower (priority opts))%string)
    ∧ (showCompleted opts = true → showPending opts = false → Completed task = true)
    ∧ (showPending opts = true → showCompleted opts = false → Completed task = false) in
  (∀ task, In task (filterTasks tasks opts now) ↔ In task tasks ∧ requested task)
  ∧ (∀ task, passesFilters opts now task = true ↔ requested task)
  ∧ Permutation (filterTasks tasks opts now) (List.filter (passesFilters opts now) tasks)
  ∧ (∀ i j a b,
       (i < j)%nat →
       filterTasks tasks opts now !! i = Some a →
       filterTasks tasks opts now !! j = Some b →
       (Completed a = true → Completed b = true)
       ∧ (Completed a = Completed b →
          priorityRank (Priority b) <= priorityRank (Priority a))
       ∧ (Completed a = Completed b →
          priorityRank (Priority a) = priorityRank (Priority b) →
          (DueDate a = EmptyString → DueDate b = EmptyString)
          ∧ (DueDate a ≠ EmptyString → DueDate b ≠ EmptyString →
             lt (DueDate b) (DueDate a) = false)))
  ∧ priorityRank "high" = 3 ∧ priorityRank "normal" = 2 ∧ priorityRank "low" = 1
  ∧ priorityRank "low" < priorityRank "normal" < priorityRank "high".
Proof.
  intros inTime requested.
  assert (∀ task, passesFilters opts now task = true ↔ requested task) as Hrequested.
  { intros task. rewrite passesFilters_requested.
    rewrite matchesTimeFilter_requested, matchesPriority_requested. reflexivity. }
  unfold filterTasks. rewrite filterLoop_filter, app_nil_l.
  pose proof (sort.Slice_permutation _ filterLess
                (List.filter (passesFilters opts now) tasks)) as Hperm.
  split.
  { intros task. rewrite <- Hrequested, <- filter_In. split; apply Permutation_in.
    - exact Hperm.
    - symmetry. exact Hperm. }
  split; [exact Hrequested|]. split; [exact Hperm|]. clear Hperm Hrequested.
  split; [|vm_compute; repeat split; reflexivity].
  intros i j a b Hij Ha Hb.
  pose proof (sort.Slice_ordered _ filterLess
                (List.filter (passesFilters opts now) tasks)
                filterLess_strict_weak_order) as Hsorted.
  pose proof (StronglySorted_lookup _ _ Hsorted i j a b Hij Ha Hb) as Hba.
  cbv beta in Hba. unfold filterLess in Hba. clear - Hba.
  assert (∀ s, isEmpty s = true ↔ s = EmptyString) as Hempty.
  { intros [|? ?]; simpl; split; congruence. }
  revert Hba.
  generalize (priorityRank (Priority a)), (priorityRank (Priority b)). intros ra rb Hba.
  assert (Completed a = true → Completed b = true) as Hdone.
  { intros Hc. rewrite Hc in Hba. destruct (Completed b); [reflexivity|discriminate]. }
  split; [exact Hdone|].
  assert (Completed a = Completed b →
          (if negb (rb =? ra) then ra <? rb
           else if negb (isEmpty (DueDate b)) && negb (isEmpty (DueDate a))
                then lt (DueDate b) (DueDate a)
                else if negb (isEmpty (DueDate b)) then true else false) = false) as Hrest.
  { intros Hc. rewrite Hc, Bool.eqb_reflx in Hba. exact Hba. }
  clear Hba Hdone. split.
  - intros Hc. specialize (Hrest Hc).
    destruct (Z.eqb_spec rb ra) as [Heq|Hne]; cbn [negb] in Hrest; [lia|].
    apply Z.ltb_ge in Hrest. exact Hrest.
  - intros Hc Hrank. specialize (Hrest Hc).
    destruct (Z.eqb_spec rb ra) as [_|Hne]; [|congruence]. cbn [negb] in Hrest.
    destruct (isEmpty (DueDate a)) eqn:Ea, (isEmpty (DueDate b)) eqn:Eb;
      cbn [negb andb] in Hrest; try discriminate.
    + apply Hempty in Ea, Eb. split; [intros _; exact Eb|intros Hna; contradiction].
    + apply Hempty in Eb. split; [intros _; exact Eb|intros _ Hnb; contradiction].
    + split; [|intros _ _; exact Hrest].
      intros Ha. apply Hempty in Ha. congruence.
Qed.

End FilterTasks.

(** Seven tasks through the insertion sort, on Monday 15 January 2024 at
    10:00 UTC: the pending high-priority tasks of the week, the overdue
    tasks, and all tasks. *)
Lemma filterTasks_ordered_witness :
  let mk := λ id due prio done,
          {| taskdata.ID := id; taskdata.Description := "task";
             taskdata.DueDate := due; taskdata.Priority := prio;
             taskdata.Completed := done |} in
  let options := λ time prio pending overdue,
          {| cmd.timeFilter := time; cmd.priority := prio; cmd.showCompleted := false;
             cmd.showPending := pending; cmd.showOverdue := overdue;
             cmd.showDueSoon := false; cmd.showNoDate := false |} in
  let now := {| time.sec := 1705312800; time.nsec := 0; time.loc := time.UTC |} in
  let tasks := [mk 1%Z "2024-01-20" "high" false; mk 2%Z "2024-01-25" "high" false;
                mk 3%Z "2024-01-16" "high" true; mk 4%Z "2024-01-16" "normal" false;
                mk 5%Z "" "high" false; mk 6%Z "2024-01-15" "high" false;
                mk 7%Z "2024-01-10" "low" false]%string in
  let filtered := λ opts,
          @cmd.filterTasks strings.asciiUnicode sort.insertionSorter tasks opts now in
  map taskdata.ID (filtered (options "week" "H" true false)) = [6; 1; 5]%Z
  ∧ (∀ task, In task (filtered (options "week" "H" true false)) →
       taskdata.Completed task = false ∧ taskdata.Priority task = "high"%string)
  ∧ map taskdata.ID (filtered (options "today" "" false true)) = [7]%Z
  ∧ (∀ task, In task (filtered (options "today" "" false true)) →
       cmd.isOverdue task now = true)
  ∧ map taskdata.ID (filtered (options "all" "" false false)) = [6; 1; 2; 5; 4; 7; 3]%Z
  ∧ Permutation (filtered (options "all" "" false false)) tasks.
Proof.
  intros mk options now tasks filtered. subst filtered. cbv beta.
  pose proof (λ opts, @filterTasks_ordered strings.asciiUnicode sort.insertionSorter
                        insertionSorter_contract tasks opts now) as Hfilter.
  split; [vm_compute; reflexivity|]. split.
  { intros task Hin.
    destruct (Hfilter (options "week" "H" true false)) as (Hmem & _).
    apply (proj1 (Hmem task)) in Hin.
    destruct Hin as (_ & _ & _ & _ & _ & Hpriority & _ & Hpending).
    split; [exact (Hpending eq_refl eq_refl)|].
    exact (Hpriority ltac:(discriminate)). }
  split; [vm_compute; reflexivity|]. split.
  { intros task Hin.
    destruct (Hfilter (options "today" "" false true)) as (Hmem & _).
    apply (proj1 (Hmem task)) in Hin.
    destruct Hin as (_ & Hoverdue & _). exact (Hoverdue eq_refl). }
  split; [vm_compute; reflexivity|].
  destruct (Hfilter (options "all" "" false false)) as (_ & _ & Hperm & _).
  exact Hperm.
Defined.

(** ** Deleting, marking and editing *)
Section StoreOperations.
Import strings taskdata cmd.
Local Open Scope Z_scope.

Lemma deleteTaskByID_found store id pre task post :
  Tasks store = pre ++ task :: post →
  ID task = id →
  Forall (λ t, ID t ≠ id) pre →
  deleteTaskByID store id = (true, {| Tasks := pre ++ post; NextID := NextID store |}).
Proof.
  intros Hstore Hid Hpre. unfold deleteTaskByID.
  pose proof (deleteTaskByIDFrom_found store id pre task post Hstore Hid [] pre eq_refl Hpre)
    as Hfound.
  simpl in Hfound. rewrite <- Hstore in Hfound at 1. exact Hfound.
Qed.

Lemma find_ID_found id pre (task : Task) post :
  ID task = id →
  Forall (λ t, ID t ≠ id) pre →
  List.find (λ t, ID t =? id) (pre ++ task :: post) = Some task.
Proof.
  intros Hid Hpre. induction Hpre as [|t pre Ht Hpre IH]; simpl.
  - rewrite (proj2 (Z.eqb_eq _ _) Hid). reflexivity.
  - rewrite (proj2 (Z.eqb_neq _ _) Ht). exact IH.
Qed.

Lemma find_ID_missing id (l : list Task) :
  Forall (λ t, ID t ≠ id) l → List.find (λ t, ID t =? id) l = None.
Proof.
  intros Hl. induction Hl as [|t l Ht Hl IH]; simpl; [reflexivity|].
  rewrite (proj2 (Z.eqb_neq _ _) Ht). exact IH.
Qed.

(** Distinct identifiers tell the tasks of a list apart. *)
Lemma NoDup_ID_inj (l : list Task) t u :
  NoDup (map ID l) → In t l → In u l → ID t = ID u → t = u.
Proof.
  induction l as [|x l IH]; simpl; intros Hnodup Ht Hu Heq; [contradiction|].
  apply NoDup_cons in Hnodup as [Hx Hnodup].
  assert (∀ v, In v l → ID v ≠ ID x) as Hfresh.
  { intros v Hv Hvx. apply Hx. rewrite <- Hvx.
    apply list_elem_of_In, in_map. exact Hv. }
  destruct Ht as [<-|Ht], Hu as [<-|Hu].
  - reflexivity.
  - exfalso. apply (Hfresh u Hu). symmetry. exact Heq.
  - exfalso. apply (Hfresh t Ht). exact Heq.
  - apply IH; assumption.
Qed.

Lemma NoDup_ID_filter (p : Task → bool) (l : list Task) :
  NoDup (map ID l) → NoDup (map ID (List.filter p l)).
Proof.
  induction l as [|x l IH]; simpl; intros Hnodup; [constructor|].
  apply NoDup_cons in Hnodup as [Hx Hnodup].
  destruct (p x); simpl; [|apply IH; exact Hnodup].
  apply NoDup_cons. split; [|apply IH; exact Hnodup].
  intros Hin. apply Hx.
  apply list_elem_of_In, in_map_iff in Hin as (v & Hv & Hin).
  apply filter_In in Hin as [Hin _].
  rewrite <- Hv. apply list_elem_of_In, in_map. exact Hin.
Qed.

Lemma filter_all (p : Task → bool) (l : list Task) :
  Forall (λ t, p t = true) l → List.filter p l = l.
Proof.
  intros Hl. induction Hl as [|t l Ht Hl IH]; simpl; [reflexivity|].
  rewrite Ht, IH. reflexivity.
Qed.

Lemma filter_filter (p q : Task → bool) (l : list Task) :
  List.filter p (List.filter q l) = List.filter (λ t, q t && p t) l.
Proof.
  induction l as [|t l IH]; simpl; [reflexivity|].
  destruct (q t); simpl; [destruct (p t)|]; rewrite IH; reflexivity.
Qed.

(** With distinct identifiers, [deleteTaskByID] removes the tasks that
    bear the identifier: there is at most one. *)
Lemma deleteTaskByID_filter store id :
  NoDup (map ID (Tasks store)) →
  deleteTaskByID store id
  = (existsb (λ t, ID t =? id) (Tasks store),
     {| Tasks := List.filter (λ t, negb (ID t =? id)) (Tasks store);
        NextID := NextID store |}).
Proof.
  intros Hnodup.
  destruct (first_with_ID id (Tasks store)) as [Hall|(pre & task & post & Hstore & Hid & Hpre)].
  - unfold deleteTaskByID. rewrite deleteTaskByIDFrom_missing by assumption.
    rewrite filter_all.
    + replace (existsb (λ t, ID t =? id) (Tasks store)) with false.
      * destruct store; reflexivity.
      * symmetry. apply not_true_is_false. intros Hex.
        apply existsb_exists in Hex as (t & Ht & Heq).
        rewrite Forall_forall in Hall. apply list_elem_of_In, Hall in Ht.
        apply Z.eqb_eq in Heq. contradiction.
    + eapply Forall_impl; [exact Hall|]. simpl. intros t Ht.
      apply negb_true_iff, Z.eqb_neq. exact Ht.
  - rewrite (deleteTaskByID_found store id pre task post Hstore Hid Hpre).
    rewrite Hstore in Hnodup |- *.
    assert (Forall (λ t, ID t ≠ id) post) as Hpost.
    { rewrite map_app in Hnodup. simpl in Hnodup.
      apply NoDup_app in Hnodup as (_ & _ & Hnodup).
      apply NoDup_cons in Hnodup as [Hfresh _].
      apply Forall_forall. intros t Ht Heq. apply Hfresh.
      rewrite Hid, <- Heq. apply list_elem_of_In, in_map, list_elem_of_In. exact Ht. }
    f_equal.
    + symmetry. apply existsb_exists. exists task. split.
      * apply in_or_app. right. left. reflexivity.
      * apply Z.eqb_eq. exact Hid.
    + f_equal. rewrite List.filter_app. simpl.
      rewrite (proj2 (Z.eqb_eq _ _) Hid). simpl.
      rewrite !filter_all; [reflexivity| |].
      * eapply Forall_impl; [exact Hpost|]. simpl. intros t Ht.
        apply negb_true_iff, Z.eqb_neq. exact Ht.
      * eapply Forall_impl; [exact Hpre|]. simpl. intros t Ht.
        apply negb_true_iff, Z.eqb_neq. exact Ht.
Qed.

(** X1. [deleteTaskByID] and [findTaskByID] agree on the task an
    identifier names: the first one of the store that bears it.  That task
    is what [findTaskByID] returns and what [deleteTaskByID] cuts out, the
    other tasks keeping their order and the counter its value; when no task
    bears the identifier, nothing is found and the store is unchanged. *)
Theorem deleteTaskByID_first (store : TaskStore) (id : Z) :
  (∀ pre task post,
     Tasks store = pre ++ task :: post →
     ID task = id →
     Forall (λ t, ID t ≠ id) pre →
     findTaskByID (Tasks store) id = Some task
     ∧ deleteTaskByID store id
       = (true, {| Tasks := pre ++ post; NextID := NextID store |}))
  ∧ (Forall (λ t, ID t ≠ id) (Tasks store) →
     findTaskByID (Tasks store) id = None
     ∧ deleteTaskByID store id = (false, store))
  ∧ (fst (deleteTaskByID store id) = true ↔ is_Some (findTaskByID (Tasks store) id)).
Proof.
  assert (∀ pre task post,
     Tasks store = pre ++ task :: post → ID task = id → Forall (λ t, ID t ≠ id) pre →
     findTaskByID (Tasks store) id = Some task
     ∧ deleteTaskByID store id
       = (true, {| Tasks := pre ++ post; NextID := NextID store |})) as Hfound.
  { intros pre task post Hstore Hid Hpre. split.
    - unfold findTaskByID. rewrite Hstore. apply find_ID_found; assumption.
    - eapply deleteTaskByID_found; eassumption. }
  assert (Forall (λ t, ID t ≠ id) (Tasks store) →
     findTaskByID (Tasks store) id = None
     ∧ deleteTaskByID store id = (false, store)) as Hmissing.
  { intros Hall. split.
    - apply find_ID_missing. exact Hall.
    - apply deleteTaskByIDFrom_missing. exact Hall. }
  split; [exact Hfound|]. split; [exact Hmissing|].
  destruct (first_with_ID id (Tasks store)) as [Hall|(pre & task & post & Hstore & Hid & Hpre)].
  - destruct (Hmissing Hall) as [-> ->]. simpl. split; [discriminate|].
    intros [? ?]. discriminate.
  - destruct (Hfound pre task post Hstore Hid Hpre) as [-> ->]. simpl.
    split; [eauto|reflexivity].
Qed.

(** X2. In a store whose identifiers are pairwise distinct,
    [deleteTaskByID] leaves exactly the tasks that do not bear the
    identifier, so that afterwards no task bears it and deleting it again
    changes nothing. *)
Theorem deleteTaskByID_distinct (store : TaskStore) (id : Z) :
  NoDup (map ID (Tasks store)) →
  let store' := snd (deleteTaskByID store id) in
  Tasks store' = List.filter (λ t, negb (ID t =? id)) (Tasks store)
  ∧ NextID store' = NextID store
  ∧ NoDup (map ID (Tasks store'))
  ∧ findTaskByID (Tasks store') id = None
  ∧ deleteTaskByID store' id = (false, store').
Proof.
  intros Hnodup store'. subst store'. rewrite deleteTaskByID_filter by assumption.
  simpl.
  assert (Forall (λ t, ID t ≠ id) (List.filter (λ t, negb (ID t =? id)) (Tasks store)))
    as Hgone.
  { apply Forall_forall. intros t Ht.
    apply list_elem_of_In, filter_In in Ht as [_ Ht].
    apply negb_true_iff, Z.eqb_neq in Ht. exact Ht. }
  split; [reflexivity|]. split; [reflexivity|].
  split; [apply NoDup_ID_filter; assumption|].
  split; [apply find_ID_missing; exact Hgone|].
  apply deleteTaskByIDFrom_missing. exact Hgone.
Qed.

Lemma deleteTaskByID_distinct_witness :
  let store := {| Tasks := [ {| ID := 1; Description := "pay rent"; DueDate := "";
                                Priority := "high"; Completed := false |};
                             {| ID := 2; Description := "call mum"; DueDate := "";
                                Priority := "low"; Completed := false |} ];
                  NextID := 3 |} in
  NoDup (map ID (Tasks store))
  ∧ Tasks (snd (deleteTaskByID store 1))
    = [ {| ID := 2; Description := "call mum"; DueDate := "";
           Priority := "low"; Completed := false |} ].
Proof.
  intros store.
  assert (NoDup (map ID (Tasks store))) as Hnodup.
  { simpl. apply NoDup_cons. split.
    - intros Hin. apply list_elem_of_singleton in Hin. discriminate.
    - apply NoDup_singleton. }
  split; [exact Hnodup|].
  exact (proj1 (deleteTaskByID_distinct store 1 Hnodup)).
Defined.

(** X3. Adding a task and deleting the identifier it got gives back the
    tasks there were, when the identifiers of the store lie below the
    counter; only the counter has moved on. *)
Theorem add_then_delete `{!Unicode} (store : TaskStore)
    (description dueDate priority : string) (task : Task) (store' : TaskStore) :
  Forall (λ t, ID t < NextID store) (Tasks store) →
  AddTask store description dueDate priority = (inr task, store') →
  ID task = NextID store
  ∧ deleteTaskByID store' (ID task)
    = (true, {| Tasks := Tasks store; NextID := NextID store' |}).
Proof.
  intros Hlt Hadd. unfold AddTask in Hadd.
  destruct (ValidateDate dueDate); [discriminate|].
  destruct (ValidatePriority priority); [discriminate|].
  injection Hadd as <- <-. simpl. split; [reflexivity|].
  erewrite deleteTaskByID_found; [| simpl; reflexivity | reflexivity |].
  - simpl. rewrite app_nil_r. reflexivity.
  - eapply Forall_impl; [exact Hlt|]. simpl. intros t Ht. lia.
Qed.

Lemma add_then_delete_witness :
  ∃ task store',
    @AddTask asciiUnicode emptyStore "pay rent" "2024-01-15" "High" = (inr task, store')
    ∧ deleteTaskByID store' (ID task) = (true, {| Tasks := []; NextID := 2 |}).
Proof.
  eexists _, _. split; [reflexivity|].
  refine (proj2 (@add_then_delete asciiUnicode emptyStore "pay rent" "2024-01-15" "High"
                   _ _ _ eq_refl)).
  constructor.
Defined.

Lemma deleteTaskByID_length store id :
  (length (Tasks (snd (deleteTaskByID store id)))
   + (if fst (deleteTaskByID store id) then 1 else 0))%nat
  = length (Tasks store).
Proof.
  destruct (first_with_ID id (Tasks store)) as [Hall|(pre & task & post & Hstore & Hid & Hpre)].
  - unfold deleteTaskByID. rewrite deleteTaskByIDFrom_missing by assumption. simpl. lia.
  - rewrite (deleteTaskByID_found store id pre task post Hstore Hid Hpre). simpl.
    rewrite Hstore, !length_app. simpl. lia.
Qed.

Lemma fold_deleteTasks tasks : ∀ deleted store,
  NoDup (map ID (Tasks store)) →
  0 <= deleted →
  deleted + Z.of_nat (length (Tasks store)) <= GoInt.maxInt →
  let kept := List.filter (λ t, negb (existsb (λ u, ID u =? ID t) tasks)) (Tasks store) in
  fold_left
    (λ '(deleted, store) task,
       match deleteTaskByID store (ID task) with
       | (true, store) => (GoInt.incr deleted, store)
       | (false, store) => (deleted, store)
       end)
    tasks (deleted, store)
  = (deleted + Z.of_nat (length (Tasks store)) - Z.of_nat (length kept),
     {| Tasks := kept; NextID := NextID store |}).
Proof.
  induction tasks as [|u tasks IH]; intros deleted store Hnodup Hdel Hmax kept; subst kept.
  - simpl. rewrite filter_all by (apply Forall_forall; reflexivity).
    destruct store; simpl. f_equal. lia.
  - simpl fold_left.
    pose proof (deleteTaskByID_length store (ID u)) as Hlen.
    rewrite deleteTaskByID_filter in Hlen |- * by assumption.
    set (store1 := {| Tasks := List.filter (λ t, negb (ID t =? ID u)) (Tasks store);
                      NextID := NextID store |}) in *.
    assert (NoDup (map ID (Tasks store1))) as Hnodup1
      by (apply NoDup_ID_filter; assumption).
    assert (List.filter (λ t, negb (existsb (λ u0, ID u0 =? ID t) tasks)) (Tasks store1)
            = List.filter (λ t, negb (existsb (λ u0, ID u0 =? ID t) (u :: tasks)))
                (Tasks store)) as Hkept.
    { simpl. rewrite filter_filter. apply List.filter_ext. intros t.
      rewrite negb_orb. rewrite (Z.eqb_sym (ID u) (ID t)). reflexivity. }
    cbn [fst snd] in Hlen.
    destruct (existsb (λ t, ID t =? ID u) (Tasks store)).
    + rewrite incr_below_max by (unfold GoInt.minInt; lia).
      rewrite (IH (deleted + 1) store1 Hnodup1) by lia.
      rewrite Hkept. f_equal. lia.
    + rewrite (IH deleted store1 Hnodup1) by lia.
      rewrite Hkept. f_equal. lia.
Qed.

Lemma shared_deleteTaskByIDFrom (m : shared.Memory) (id : Z) : ∀ rest i,
  (i + length rest = shared.len m)%nat →
  (shared.len m <= length (shared.array m))%nat →
  fst (shared.deleteTaskByIDFrom m id i rest)
  = fst (deleteTaskByIDFrom (shared.store m) id i rest)
  ∧ shared.store (snd (shared.deleteTaskByIDFrom m id i rest))
    = snd (deleteTaskByIDFrom (shared.store m) id i rest)
  ∧ (shared.len (snd (shared.deleteTaskByIDFrom m id i rest))
     <= length (shared.array (snd (shared.deleteTaskByIDFrom m id i rest))))%nat.
Proof.
  induction rest as [|task rest IH]; intros i Hi Hlen.
  - simpl. auto.
  - simpl in Hi. cbn [shared.deleteTaskByIDFrom deleteTaskByIDFrom].
    destruct (ID task =? id).
    + cbn [fst snd]. split; [reflexivity|].
      assert (length (take i (shared.array m)
                      ++ drop (S i) (take (shared.len m) (shared.array m)))
              = (shared.len m - 1)%nat) as Hfront.
      { rewrite length_app, length_drop, !length_take. lia. }
      split.
      * unfold shared.store. cbn [shared.array shared.len shared.nextID Tasks NextID].
        rewrite app_assoc, (take_app_length' _ _ _ (eq_sym Hfront)).
        rewrite take_take, Nat.min_l by lia. reflexivity.
      * cbn [shared.array shared.len]. rewrite app_assoc, length_app, Hfront, length_drop.
        lia.
    + apply IH; [lia|assumption].
Qed.

Lemma shared_deleteTaskByID (m : shared.Memory) (id : Z) :
  (shared.len m <= length (shared.array m))%nat →
  fst (shared.deleteTaskByID m id) = fst (deleteTaskByID (shared.store m) id)
  ∧ shared.store (snd (shared.deleteTaskByID m id))
    = snd (deleteTaskByID (shared.store m) id)
  ∧ (shared.len (snd (shared.deleteTaskByID m id))
     <= length (shared.array (snd (shared.deleteTaskByID m id))))%nat.
Proof.
  intros Hlen. unfold shared.deleteTaskByID, deleteTaskByID.
  apply shared_deleteTaskByIDFrom; [|assumption].
  rewrite length_take. lia.
Qed.

Lemma shared_deleteTasks_from (tasks : list Task) : ∀ rest read deleted m,
  tasks = read ++ rest →
  (shared.len m <= length (shared.array m))%nat →
  prod_map id shared.store
    (fold_left
       (λ '(deleted, m) k,
          match shared.index m (shared.Apart tasks) k with
          | Some task =>
              match shared.deleteTaskByID m (ID task) with
              | (true, m) => (GoInt.incr deleted, m)
              | (false, m) => (deleted, m)
              end
          | None => (deleted, m)
          end)
       (seq (length read) (length rest)) (deleted, m))
  = fold_left
      (λ '(deleted, store) task,
         match deleteTaskByID store (ID task) with
         | (true, store) => (GoInt.incr deleted, store)
         | (false, store) => (deleted, store)
         end)
      rest (deleted, shared.store m).
Proof.
  induction rest as [|task rest IH]; intros read deleted m Htasks Hlen.
  - reflexivity.
  - cbn [length seq fold_left].
    change (shared.index m (shared.Apart tasks) (length read))
      with (tasks !! length read).
    assert (tasks !! length read = Some task) as ->
      by (rewrite Htasks; apply list_lookup_middle; reflexivity).
    destruct (shared_deleteTaskByID m (ID task) Hlen) as (Hfound & Hstore & Hlen').
    destruct (shared.deleteTaskByID m (ID task)) as [found m'].
    destruct (deleteTaskByID (shared.store m) (ID task)) as [found' store'].
    cbn [fst snd] in Hfound, Hstore, Hlen'. subst found' store'.
    assert (tasks = (read ++ [task]) ++ rest) as Htasks'
      by (rewrite <- app_assoc; exact Htasks).
    assert (S (length read) = length (read ++ [task])) as ->
      by (rewrite length_app; simpl; lia).
    destruct found; apply (IH (read ++ [task])); assumption.
Qed.

Lemma shared_deleteTasks_apart (m : shared.Memory) (tasks : list Task) :
  (shared.len m <= length (shared.array m))%nat →
  (fst (shared.deleteTasks m (shared.Apart tasks)),
   shared.store (snd (shared.deleteTasks m (shared.Apart tasks))))
  = deleteTasks (shared.store m) tasks.
Proof.
  intros Hlen. exact (shared_deleteTasks_from tasks tasks [] 0 m eq_refl Hlen).
Qed.

(** X4. [deleteTasks], handed a slice whose array is apart from the
    store's, in a store whose identifiers are pairwise distinct: it leaves
    exactly the tasks whose identifier none of the given tasks bears, in
    their order, and counts the tasks that went.  Called with the completed
    tasks of the store, which [getCompletedTasks] collects in a slice of
    their own, as the delete command does, it leaves exactly the pending
    tasks.  Being apart matters: handed [store.Tasks] itself, the function
    reads the tasks while they move down the array and passes some over. *)
Theorem deleteTasks_distinct (m : shared.Memory) (tasks : list Task) :
  (shared.len m <= length (shared.array m))%nat →
  NoDup (map ID (Tasks (shared.store m))) →
  Z.of_nat (length (Tasks (shared.store m))) <= GoInt.maxInt →
  let store := shared.store m in
  let kept := List.filter (λ t, negb (existsb (λ u, ID u =? ID t) tasks)) (Tasks store) in
  let after := (Z.of_nat (length (Tasks store)) - Z.of_nat (length kept),
                {| Tasks := kept; NextID := NextID store |}) in
  (fst (shared.deleteTasks m (shared.Apart tasks)),
   shared.store (snd (shared.deleteTasks m (shared.Apart tasks)))) = after
  ∧ deleteTasks store tasks = after
  ∧ (tasks = getCompletedTasks (Tasks store) →
     kept = List.filter (λ t, negb (Completed t)) (Tasks store)).
Proof.
  intros Hlen Hnodup Hmax store kept after.
  assert (deleteTasks store tasks = after) as Hafter.
  { unfold deleteTasks. rewrite fold_deleteTasks by (assumption || lia). reflexivity. }
  split; [rewrite shared_deleteTasks_apart by assumption; exact Hafter|].
  split; [exact Hafter|].
  intros ->. subst kept. apply List.filter_ext_in. intros t Ht. f_equal.
  destruct (Completed t) eqn:Hc.
  + apply existsb_exists. exists t. split; [|apply Z.eqb_refl].
    apply filter_In. split; assumption.
  + apply not_true_is_false. intros Hex.
    apply existsb_exists in Hex as (u & Hu & Heq).
    apply filter_In in Hu as [Hu Huc]. apply Z.eqb_eq in Heq.
    assert (u = t) as -> by (eapply NoDup_ID_inj; eassumption).
    rewrite Hc in Huc. discriminate.
Qed.

(** Four completed tasks in an array of four: the slice [getCompletedTasks]
    builds deletes them all; the slice [store.Tasks] itself reads the tasks
    1, 3, 4 and 4 again, deletes three and leaves task 2. *)
Lemma deleteTasks_distinct_witness :
  let mk := λ id, {| ID := id; Description := "task"; DueDate := "";
                     Priority := "normal"; Completed := true |} in
  let m := {| shared.array := [mk 1; mk 2; mk 3; mk 4]; shared.len := 4;
              shared.nextID := 5 |} in
  let run := λ tasks, (fst (shared.deleteTasks m tasks),
                       shared.store (snd (shared.deleteTasks m tasks))) in
  run (shared.Apart (getCompletedTasks (Tasks (shared.store m))))
  = (4, {| Tasks := []; NextID := 5 |})
  ∧ run (shared.Window 0 4) = (3, {| Tasks := [mk 2]; NextID := 5 |}).
Proof.
  intros mk m run. split; [|vm_compute; reflexivity].
  assert (NoDup (map ID (Tasks (shared.store m)))) as Hnodup.
  { apply (bool_decide_unpack _). vm_compute. exact I. }
  assert (Z.of_nat (length (Tasks (shared.store m))) <= GoInt.maxInt) as Hmax
    by (vm_compute; discriminate).
  assert (shared.len m <= length (shared.array m))%nat as Hlen by (simpl; lia).
  exact (proj1 (deleteTasks_distinct m (getCompletedTasks (Tasks (shared.store m)))
                  Hlen Hnodup Hmax)).
Defined.

End StoreOperations.

Section MarkingAndEditing.
Import strings taskdata cmd.
Local Open Scope Z_scope.

Lemma map_where_missing (f : Task → Task) id (l : list Task) :
  Forall (λ t, ID t ≠ id) l →
  map (λ t, if ID t =? id then f t else t) l = l.
Proof.
  intros Hl. induction Hl as [|t l Ht Hl IH]; simpl; [reflexivity|].
  rewrite (proj2 (Z.eqb_neq _ _) Ht), IH. reflexivity.
Qed.

Lemma NoDup_ID_after id pre (task : Task) post :
  NoDup (map ID (pre ++ task :: post)) → ID task = id → Forall (λ t, ID t ≠ id) post.
Proof.
  intros Hnodup Hid. rewrite map_app in Hnodup. simpl in Hnodup.
  apply NoDup_app in Hnodup as (_ & _ & Hnodup).
  apply NoDup_cons in Hnodup as [Hfresh _].
  apply Forall_forall. intros t Ht Heq. apply Hfresh.
  rewrite Hid, <- Heq. apply list_elem_of_In, in_map, list_elem_of_In. exact Ht.
Qed.

(** With distinct identifiers, [updateTaskCompletion] sets the flag of the
    tasks that bear the identifier: there is at most one. *)
Lemma updateTaskCompletion_map store id c :
  NoDup (map ID (Tasks store)) →
  updateTaskCompletion store id c
  = (if existsb (λ t, ID t =? id) (Tasks store) then None else Some (ErrTaskNotFound id),
     {| Tasks := map (λ t, if ID t =? id then withCompleted c t else t) (Tasks store);
        NextID := NextID store |}).
Proof.
  intros Hnodup. unfold updateTaskCompletion.
  destruct (first_with_ID id (Tasks store)) as [Hall|(pre & task & post & Hstore & Hid & Hpre)].
  - rewrite updateTaskCompletionFrom_missing by assumption.
    rewrite map_where_missing by assumption.
    replace (existsb (λ t, ID t =? id) (Tasks store)) with false.
    + destruct store; reflexivity.
    + symmetry. apply not_true_is_false. intros Hex.
      apply existsb_exists in Hex as (t & Ht & Heq).
      rewrite Forall_forall in Hall. apply list_elem_of_In, Hall in Ht.
      apply Z.eqb_eq in Heq. contradiction.
  - pose proof (updateTaskCompletionFrom_found store id c pre task post Hstore Hid [] pre
                  eq_refl Hpre) as Hfound.
    simpl in Hfound. rewrite <- Hstore in Hfound at 1. rewrite Hfound.
    rewrite Hstore in Hnodup |- *.
    pose proof (NoDup_ID_after id pre task post Hnodup Hid) as Hpost.
    f_equal.
    + replace (existsb (λ t, ID t =? id) (pre ++ task :: post)) with true; [reflexivity|].
      symmetry. apply existsb_exists. exists task. split.
      * apply in_or_app. right. left. reflexivity.
      * apply Z.eqb_eq. exact Hid.
    + f_equal. rewrite map_app. simpl.
      rewrite (proj2 (Z.eqb_eq _ _) Hid), !map_where_missing by assumption. reflexivity.
Qed.

Lemma existsb_ID_map (f : Task → Task) id (l : list Task) :
  (∀ t, ID (f t) = ID t) →
  existsb (λ t, ID t =? id) (map f l) = existsb (λ t, ID t =? id) l.
Proof.
  intros Hf. induction l as [|t l IH]; simpl; [reflexivity|].
  rewrite Hf, IH. reflexivity.
Qed.

Lemma fold_markAllTasks c tasks : ∀ count store,
  NoDup (map ID (Tasks store)) →
  0 <= count →
  count + Z.of_nat (length tasks) <= GoInt.maxInt →
  fold_left
    (λ '(count, store) task,
       match updateTaskCompletion store (ID task) c with
       | (None, store) => (GoInt.incr count, store)
       | (Some _, store) => (count, store)
       end)
    tasks (count, store)
  = (count
     + Z.of_nat (length (List.filter (λ u, existsb (λ t, ID t =? ID u) (Tasks store)) tasks)),
     {| Tasks := map (λ t, if existsb (λ u, ID u =? ID t) tasks then withCompleted c t else t)
                   (Tasks store);
        NextID := NextID store |}).
Proof.
  induction tasks as [|u tasks IH]; intros count store Hnodup Hcount Hmax.
  - simpl. rewrite map_id. destruct store; simpl. f_equal. lia.
  - simpl fold_left. rewrite updateTaskCompletion_map by assumption.
    set (store1 := {| Tasks := map (λ t, if ID t =? ID u then withCompleted c t else t)
                                 (Tasks store);
                      NextID := NextID store |}).
    assert (map ID (Tasks store1) = map ID (Tasks store)) as Hids.
    { simpl. rewrite map_map. apply map_ext. intros t.
      destruct (ID t =? ID u); reflexivity. }
    assert (NoDup (map ID (Tasks store1))) as Hnodup1 by (rewrite Hids; assumption).
    assert (∀ id, existsb (λ t, ID t =? id) (Tasks store1)
                  = existsb (λ t, ID t =? id) (Tasks store)) as Hex.
    { intros id. simpl. apply existsb_ID_map. intros t.
      destruct (ID t =? ID u); reflexivity. }
    assert (map (λ t, if existsb (λ u0, ID u0 =? ID t) tasks then withCompleted c t else t)
              (Tasks store1)
            = map (λ t, if existsb (λ u0, ID u0 =? ID t) (u :: tasks)
                        then withCompleted c t else t) (Tasks store)) as Hmap.
    { simpl. rewrite map_map. apply map_ext. intros t.
      rewrite (Z.eqb_sym (ID u) (ID t)).
      destruct (ID t =? ID u) eqn:Htu; simpl; [|reflexivity].
      destruct (existsb (λ u0, ID u0 =? ID t) tasks); reflexivity. }
    assert (List.filter (λ u0, existsb (λ t, ID t =? ID u0) (Tasks store1)) tasks
            = List.filter (λ u0, existsb (λ t, ID t =? ID u0) (Tasks store)) tasks) as Hfilter.
    { apply List.filter_ext. intros u0. apply Hex. }
    simpl length in Hmax. simpl List.filter.
    destruct (existsb (λ t, ID t =? ID u) (Tasks store)).
    + rewrite incr_below_max by (unfold GoInt.minInt; lia).
      rewrite (IH (count + 1) store1 Hnodup1) by lia.
      rewrite Hmap, Hfilter. f_equal. simpl length. lia.
    + rewrite (IH count store1 Hnodup1) by lia.
      rewrite Hmap, Hfilter. reflexivity.
Qed.

Lemma withCompleted_same (t : Task) : withCompleted (Completed t) t = t.
Proof. destruct t; reflexivity. Qed.

(** Marking a task that is in the store with the flag it has changes
    nothing. *)
Lemma updateTaskCompletion_same store task :
  NoDup (map ID (Tasks store)) →
  In task (Tasks store) →
  updateTaskCompletion store (ID task) (Completed task) = (None, store).
Proof.
  intros Hnodup Hin. rewrite updateTaskCompletion_map by assumption. f_equal.
  - replace (existsb (λ t, ID t =? ID task) (Tasks store)) with true; [reflexivity|].
    symmetry. apply existsb_exists. exists task. split; [assumption|apply Z.eqb_refl].
  - replace (map (λ t, if ID t =? ID task then withCompleted (Completed task) t else t)
               (Tasks store)) with (Tasks store); [destruct store; reflexivity|].
    rewrite <- (map_id (Tasks store)) at 1. apply map_ext_in. intros t Ht.
    destruct (ID t =? ID task) eqn:Heq; [|reflexivity].
    apply Z.eqb_eq in Heq.
    assert (t = task) as -> by (eapply NoDup_ID_inj; eassumption).
    symmetry. apply withCompleted_same.
Qed.

Lemma markSelectedTasks_undone `{!Unicode} store tasks input :
  NoDup (map ID (Tasks store)) →
  (∀ task, In task tasks → In task (Tasks store) ∧ Completed task = false) →
  snd (markSelectedTasks store tasks input true) = store.
Proof.
  intros Hnodup Htasks. unfold markSelectedTasks.
  match goal with |- snd (fold_left ?f _ _) = _ => set (step := f) end.
  generalize (Split input ",") as selections. generalize 0 as count.
  intros count selections. revert count.
  induction selections as [|sel selections IH]; intros count; [reflexivity|].
  cbn [fold_left]. unfold step at 2. cbv beta iota.
  destruct (strconv.Atoi (TrimSpace sel)) as [idx|]; [|apply IH].
  destruct ((0 <? idx) && (idx <=? Z.of_nat (length tasks))); [|apply IH].
  destruct (tasks !! Z.to_nat (idx - 1)) as [task|] eqn:Hlookup; [|apply IH].
  apply list_elem_of_lookup_2, list_elem_of_In, Htasks in Hlookup as [Hin Hpending].
  pose proof (updateTaskCompletion_same store task Hnodup Hin) as Hsame.
  rewrite Hpending in Hsame. simpl negb. rewrite Hsame. apply IH.
Qed.

(** X5. In a store whose identifiers are pairwise distinct, marking all
    pending tasks completes every task of the store and counts the pending
    ones, while the batch operation with the undone flag never changes the
    store, whatever is entered: it works on the pending tasks, which are
    incomplete already. *)
Theorem batch_marking `{!Unicode} (store : TaskStore) :
  NoDup (map ID (Tasks store)) →
  Z.of_nat (length (Tasks store)) <= GoInt.maxInt →
  markAllTasks store (getPendingTasks store) false
  = (Z.of_nat (length (getPendingTasks store)),
     {| Tasks := map (withCompleted true) (Tasks store); NextID := NextID store |})
  ∧ (∀ force input,
       performBatchOperations store false force input ≠ None →
       force = true ∨ TrimSpace input = "all"%string →
       performBatchOperations store false force input
       = Some {| Tasks := map (withCompleted true) (Tasks store); NextID := NextID store |})
  ∧ (∀ force input,
       performBatchOperations store true force input = None
       ∨ performBatchOperations store true force input = Some store)
  ∧ (∀ undone force input,
       performBatchOperations store undone force input = None ↔ getPendingTasks store = []).
Proof.
  intros Hnodup Hmax.
  assert (∀ task, In task (getPendingTasks store)
                  → In task (Tasks store) ∧ Completed task = false) as Hpending.
  { intros task Hin. apply filter_In in Hin as [Hin Hc].
    split; [assumption|]. apply negb_true_iff. exact Hc. }
  assert (Z.of_nat (length (getPendingTasks store)) <= GoInt.maxInt) as Hlen.
  { pose proof (List.filter_length_le (λ task, negb (Completed task)) (Tasks store)).
    unfold getPendingTasks. lia. }
  assert (List.filter (λ u, existsb (λ t, ID t =? ID u) (Tasks store)) (getPendingTasks store)
          = getPendingTasks store) as Hall.
  { apply filter_all. apply Forall_forall. intros u Hu.
    apply list_elem_of_In, Hpending in Hu as [Hu _].
    apply existsb_exists. exists u. split; [assumption|apply Z.eqb_refl]. }
  assert (markAllTasks store (getPendingTasks store) false
          = (Z.of_nat (length (getPendingTasks store)),
             {| Tasks := map (withCompleted true) (Tasks store); NextID := NextID store |}))
    as Hdone.
  { unfold markAllTasks. simpl negb. rewrite fold_markAllTasks by (assumption || lia).
    rewrite Hall. f_equal. f_equal. apply map_ext_in. intros t Ht.
    destruct (existsb (λ u, ID u =? ID t) (getPendingTasks store)) eqn:Hex; [reflexivity|].
    destruct (Completed t) eqn:Hc; [rewrite <- Hc; symmetry; apply withCompleted_same|].
    exfalso. apply not_true_iff_false in Hex. apply Hex.
    apply existsb_exists. exists t. split; [|apply Z.eqb_refl].
    apply filter_In. split; [assumption|]. rewrite Hc. reflexivity. }
  assert (snd (markAllTasks store (getPendingTasks store) true) = store) as Hundone.
  { unfold markAllTasks. simpl negb. rewrite fold_markAllTasks by (assumption || lia).
    simpl. replace (map _ (Tasks store)) with (Tasks store); [destruct store; reflexivity|].
    rewrite <- (map_id (Tasks store)) at 1. apply map_ext_in. intros t Ht.
    destruct (existsb (λ u, ID u =? ID t) (getPendingTasks store)) eqn:Hex; [|reflexivity].
    apply existsb_exists in Hex as (u & Hu & Heq). apply Z.eqb_eq in Heq.
    destruct (Hpending u Hu) as [Hin Hc].
    assert (u = t) as -> by (eapply NoDup_ID_inj; eassumption).
    rewrite <- Hc. symmetry. apply withCompleted_same. }
  split; [exact Hdone|]. split; [|split].
  - intros force input Hsome Hall'. unfold performBatchOperations in *.
    destruct (length (getPendingTasks store) =? 0)%nat; [contradiction|].
    destruct force; simpl; [rewrite Hdone; reflexivity|].
    destruct Hall' as [?| ->]; [discriminate|]. simpl. rewrite Hdone. reflexivity.
  - intros force input. unfold performBatchOperations.
    destruct (length (getPendingTasks store) =? 0)%nat; [left; reflexivity|]. right.
    destruct (negb force); [|rewrite Hundone; reflexivity].
    destruct (String.eqb (TrimSpace input) "all"); [rewrite Hundone; reflexivity|].
    rewrite markSelectedTasks_undone by assumption. reflexivity.
  - intros undone force input. unfold performBatchOperations.
    destruct (getPendingTasks store) as [|t l]; simpl; [tauto|].
    destruct (negb force); [destruct (String.eqb (TrimSpace input) "all")|];
      split; discriminate.
Qed.

Lemma batch_marking_witness :
  let open := {| ID := 2; Description := "call mum"; DueDate := "";
                 Priority := "low"; Completed := false |} in
  let store := {| Tasks := [withCompleted true open; open]; NextID := 3 |} in
  let store' := {| Tasks := [open]; NextID := 3 |} in
  @performBatchOperations asciiUnicode store true true "" = Some {| Tasks := [open; open]; NextID := 3 |}
  ∧ (@performBatchOperations asciiUnicode store' true true "" = None
     ∨ @performBatchOperations asciiUnicode store' true true "" = Some store').
Proof.
  intros open store store'. split; [reflexivity|].
  assert (NoDup (map ID (Tasks store'))) as Hnodup by (simpl; apply NoDup_singleton).
  assert (Z.of_nat (length (Tasks store')) <= GoInt.maxInt) as Hmax
    by (simpl; unfold GoInt.maxInt; lia).
  exact (proj1 (proj2 (proj2 (@batch_marking asciiUnicode store' Hnodup Hmax))) true ""%string).
Defined.

Lemma updateTaskFieldFrom_found assign store id pre task post :
  Tasks store = pre ++ task :: post →
  ID task = id →
  ∀ visited rest, pre = visited ++ rest →
    Forall (λ t, ID t ≠ id) rest →
    updateTaskFieldFrom assign store id (length visited) (rest ++ task :: post)
    = (None, {| Tasks := pre ++ assign task :: post; NextID := NextID store |}).
Proof.
  intros Hstore Hid visited rest. revert visited.
  induction rest as [|t rest IH]; intros visited Hpre Hrest; simpl.
  - rewrite app_nil_r in Hpre. subst visited.
    rewrite (proj2 (Z.eqb_eq _ _) Hid). do 2 f_equal.
    rewrite Hstore. clear. induction pre as [|p pre IH]; simpl; [reflexivity|].
    f_equal. apply IH.
  - inversion Hrest as [|? ? Ht Hrest']; subst.
    rewrite (proj2 (Z.eqb_neq _ _) Ht).
    specialize (IH (visited ++ [t])). rewrite length_app in IH. simpl in IH.
    replace (length visited + 1)%nat with (S (length visited)) in IH by lia.
    apply IH; [|assumption]. rewrite <- app_assoc. reflexivity.
Qed.

Lemma updateTaskFieldFrom_missing assign store id i rest :
  Forall (λ t, ID t ≠ id) rest →
  updateTaskFieldFrom assign store id i rest = (Some TaskNotFound, store).
Proof.
  revert i. induction rest as [|t rest IH]; intros i Hrest; simpl; [reflexivity|].
  inversion Hrest as [|? ? Ht Hrest']; subst.
  rewrite (proj2 (Z.eqb_neq _ _) Ht). apply IH. assumption.
Qed.

Lemma updateTaskField_found assign store id pre task post :
  Tasks store = pre ++ task :: post →
  ID task = id →
  Forall (λ t, ID t ≠ id) pre →
  updateTaskFieldFrom assign store id 0 (Tasks store)
  = (None, {| Tasks := pre ++ assign task :: post; NextID := NextID store |}).
Proof.
  intros Hstore Hid Hpre.
  pose proof (updateTaskFieldFrom_found assign store id pre task post Hstore Hid [] pre
                eq_refl Hpre) as Hfound.
  simpl in Hfound. rewrite <- Hstore in Hfound at 1. exact Hfound.
Qed.

(** X6. The three field updates of the mark view assign the field of the
    first task that bears the identifier and touch nothing else; when no
    task bears it they report that and leave the store unchanged.  They
    take any value: nothing is validated at this point. *)
Theorem field_update_frame (store : TaskStore) (id : Z) (value : string) :
  (∀ pre task post,
     Tasks store = pre ++ task :: post →
     ID task = id →
     Forall (λ t, ID t ≠ id) pre →
     updateTaskDueDate store id value
     = (None, {| Tasks := pre ++ withDueDate value task :: post; NextID := NextID store |})
     ∧ updateTaskPriority store id value
       = (None, {| Tasks := pre ++ withPriority value task :: post; NextID := NextID store |})
     ∧ updateTaskDescription store id value
       = (None, {| Tasks := pre ++ withDescription value task :: post;
                   NextID := NextID store |}))
  ∧ (Forall (λ t, ID t ≠ id) (Tasks store) →
     updateTaskDueDate store id value = (Some TaskNotFound, store)
     ∧ updateTaskPriority store id value = (Some TaskNotFound, store)
     ∧ updateTaskDescription store id value = (Some TaskNotFound, store)).
Proof.
  split.
  - intros pre task post Hstore Hid Hpre.
    unfold updateTaskDueDate, updateTaskPriority, updateTaskDescription.
    rewrite !(updateTaskField_found _ store id pre task post Hstore Hid Hpre).
    repeat split.
  - intros Hall.
    unfold updateTaskDueDate, updateTaskPriority, updateTaskDescription.
    rewrite !updateTaskFieldFrom_missing by assumption. repeat split.
Qed.

Section Editing.
Context `{!Unicode}.

Lemma findTaskByIDOrName_In store identifier found :
  findTaskByIDOrName store identifier = Some found → In found (Tasks store).
Proof.
  unfold findTaskByIDOrName. intros Hfind.
  destruct (strconv.Atoi identifier) as [id|].
  - destruct (List.find (λ task, ID task =? id) (Tasks store)) as [task|] eqn:Hbyid.
    + injection Hfind as <-. apply find_some in Hbyid as [Hin _]. exact Hin.
    + apply find_some in Hfind as [Hin _]. exact Hin.
  - apply find_some in Hfind as [Hin _]. exact Hin.
Qed.

Lemma first_with_ID_of (l : list Task) found :
  In found l →
  ∃ pre task post, l = pre ++ task :: post ∧ ID task = ID found
                   ∧ Forall (λ t, ID t ≠ ID found) pre.
Proof.
  intros Hin.
  destruct (first_with_ID (ID found) l) as [Hall|Hfound]; [|exact Hfound].
  rewrite Forall_forall in Hall. apply list_elem_of_In, Hall in Hin. contradiction.
Qed.

(** X7. [editTaskProperties] saves the store exactly when the task is
    found, the new due date and the new priority, where given, are valid
    and some field is given; the store it saves differs from the one it
    found in one task, the first that bears the identifier of the task
    found, which takes every field given (the priority in lower case).
    Otherwise nothing is saved, and the store in memory is untouched
    unless the call ends on an invalid priority. *)
Theorem editTaskProperties_saved (store : TaskStore)
    (identifier newDue newPriority newDesc : string) :
  let r := editTaskProperties store identifier newDue newPriority newDesc in
  (fst r = EditSaved ↔
     is_Some (findTaskByIDOrName store identifier)
     ∧ ValidateDate newDue = None
     ∧ (newPriority = EmptyString ∨ ValidatePriority newPriority = None)
     ∧ (newDue ≠ EmptyString ∨ newPriority ≠ EmptyString ∨ newDesc ≠ EmptyString))
  ∧ (fst r = EditSaved →
     ∃ found pre task post,
       findTaskByIDOrName store identifier = Some found
       ∧ Tasks store = pre ++ task :: post
       ∧ ID task = ID found
       ∧ Forall (λ t, ID t ≠ ID found) pre
       ∧ snd r = {| Tasks := pre ++ edited newDue newPriority newDesc task :: post;
                    NextID := NextID store |})
  ∧ ((∀ err, fst r ≠ EditInvalidPriority err) → fst r ≠ EditSaved → snd r = store).
Proof.
  intros r. subst r. unfold editTaskProperties.
  destruct (findTaskByIDOrName store identifier) as [found|] eqn:Hfind.
  2:{ simpl. split; [|split].
      - split; [discriminate|]. intros [[? ?] _]. discriminate.
      - discriminate.
      - reflexivity. }
  destruct (first_with_ID_of (Tasks store) found (findTaskByIDOrName_In _ _ _ Hfind))
    as (pre & task & post & Hstore & Hid & Hpre).
  destruct store as [tasks next]. cbn [Tasks NextID] in *. subst tasks.
  assert (∀ assign t, ID t = ID found →
            snd (updateTaskFieldFrom assign {| Tasks := pre ++ t :: post; NextID := next |}
                   (ID found) 0
                   (Tasks {| Tasks := pre ++ t :: post; NextID := next |}))
            = {| Tasks := pre ++ assign t :: post; NextID := next |}) as Hupdate.
  { intros assign t Ht.
    rewrite (updateTaskField_found assign {| Tasks := pre ++ t :: post; NextID := next |}
               (ID found) pre t post eq_refl Ht Hpre).
    reflexivity. }
  unfold updateTaskDueDate, updateTaskPriority, updateTaskDescription.
  assert (ValidateDate EmptyString = None) as Hvalid_empty by reflexivity.
  destruct newDue as [|d newDue]; cbn [isEmpty negb].
  - (* no due date given *)
    destruct newPriority as [|p newPriority]; cbn [isEmpty negb].
    + destruct newDesc as [|c newDesc]; cbn [isEmpty negb fst snd].
      * split; [|split].
        -- split; [discriminate|]. intros (_ & _ & _ & [Hn|[Hn|Hn]]); contradiction.
        -- discriminate.
        -- reflexivity.
      * rewrite (Hupdate _ task Hid). cbn [fst snd].
        split; [|split].
        -- split; [|reflexivity]. intros _.
           split; [eauto|]. split; [reflexivity|]. split; [left; reflexivity|].
           right. right. discriminate.
        -- intros _. exists found, pre, task, post.
           repeat (split; [assumption || reflexivity|]).
           destruct task; reflexivity.
        -- intros _ Hne. contradiction.
    + destruct (ValidatePriority (String p newPriority)) as [err|] eqn:Hprio.
      * cbn [fst snd]. split; [|split].
        -- split; [discriminate|]. intros (_ & _ & [Hp|Hp] & _); discriminate.
        -- discriminate.
        -- intros Hne. exfalso. apply (Hne err). reflexivity.
      * rewrite (Hupdate _ task Hid).
        destruct newDesc as [|c newDesc]; cbn [isEmpty negb fst snd].
        -- split; [|split].
           ++ split; [|reflexivity]. intros _.
              split; [eauto|]. split; [reflexivity|]. split; [right; reflexivity|].
              right. left. discriminate.
           ++ intros _. exists found, pre, task, post.
              repeat (split; [assumption || reflexivity|]).
              destruct task; reflexivity.
           ++ intros _ Hne. contradiction.
        -- rewrite (Hupdate _ (withPriority (ToLower (String p newPriority)) task) Hid).
           cbn [fst snd]. split; [|split].
           ++ split; [|reflexivity]. intros _.
              split; [eauto|]. split; [reflexivity|]. split; [right; reflexivity|].
              right. left. discriminate.
           ++ intros _. exists found, pre, task, post.
              repeat (split; [assumption || reflexivity|]).
              destruct task; reflexivity.
           ++ intros _ Hne. contradiction.
  - (* a due date is given *)
    destruct (ValidateDate (String d newDue)) as [err|] eqn:Hdate.
    + cbn [fst snd]. split; [|split].
      * split; [discriminate|]. intros (_ & Hd & _); discriminate.
      * discriminate.
      * reflexivity.
    + rewrite (Hupdate _ task Hid).
      destruct newPriority as [|p newPriority]; cbn [isEmpty negb].
      * destruct newDesc as [|c newDesc]; cbn [isEmpty negb fst snd].
        -- split; [|split].
           ++ split; [|reflexivity]. intros _.
              split; [eauto|]. split; [reflexivity|]. split; [left; reflexivity|].
              left. discriminate.
           ++ intros _. exists found, pre, task, post.
              repeat (split; [assumption || reflexivity|]).
              destruct task; reflexivity.
           ++ intros _ Hne. contradiction.
        -- rewrite (Hupdate _ (withDueDate (String d newDue) task) Hid).
           cbn [fst snd]. split; [|split].
           ++ split; [|reflexivity]. intros _.
              split; [eauto|]. split; [reflexivity|]. split; [left; reflexivity|].
              left. discriminate.
           ++ intros _. exists found, pre, task, post.
              repeat (split; [assumption || reflexivity|]).
              destruct task; reflexivity.
           ++ intros _ Hne. contradiction.
      * destruct (ValidatePriority (String p newPriority)) as [err|] eqn:Hprio.
        -- cbn [fst snd]. split; [|split].
           ++ split; [discriminate|]. intros (_ & _ & [Hp|Hp] & _); discriminate.
           ++ discriminate.
           ++ intros Hne. exfalso. apply (Hne err). reflexivity.
        -- rewrite (Hupdate _ (withDueDate (String d newDue) task) Hid).
           destruct newDesc as [|c newDesc]; cbn [isEmpty negb fst snd].
           ++ split; [|split].
              ** split; [|reflexivity]. intros _.
                 split; [eauto|]. split; [reflexivity|]. split; [right; reflexivity|].
                 left. discriminate.
              ** intros _. exists found, pre, task, post.
                 repeat (split; [assumption || reflexivity|]).
                 destruct task; reflexivity.
              ** intros _ Hne. contradiction.
           ++ rewrite (Hupdate _ (withPriority (ToLower (String p newPriority))
                                    (withDueDate (String d newDue) task)) Hid).
              cbn [fst snd]. split; [|split].
              ** split; [|reflexivity]. intros _.
                 split; [eauto|]. split; [reflexivity|]. split; [right; reflexivity|].
                 left. discriminate.
              ** intros _. exists found, pre, task, post.
                 repeat (split; [assumption || reflexivity|]).
                 destruct task; reflexivity.
              ** intros _ Hne. contradiction.
Qed.
End Editing.

Section Adding.
Context `{!Unicode}.

Lemma fold_addLoop_invalid dueDate priority args : ∀ count store,
  ValidateDate dueDate ≠ None ∨ ValidatePriority priority ≠ None →
  fold_left (addLoop dueDate priority) args (count, store) = (count, store).
Proof.
  induction args as [|taskDesc args IH]; intros count store Hinvalid; [reflexivity|].
  cbn [fold_left]. unfold addLoop at 2.
  destruct (isEmpty taskDesc); [apply IH; exact Hinvalid|].
  unfold AddTask.
  destruct (ValidateDate dueDate); [apply IH; exact Hinvalid|].
  destruct (ValidatePriority priority); [apply IH; exact Hinvalid|].
  destruct Hinvalid as [Hp|Hp]; contradiction.
Qed.

Lemma added_cons dueDate priority next description descs :
  added dueDate priority next (description :: descs)
  = {| ID := next; Description := description; DueDate := dueDate;
       Priority := ToLower priority; Completed := false |}
    :: added dueDate priority (next + 1) descs.
Proof.
  unfold added. simpl. f_equal; [f_equal; lia|].
  apply imap_ext. intros i description' _. simpl. f_equal. lia.
Qed.

Lemma fold_addLoop_valid dueDate priority args : ∀ count store,
  ValidateDate dueDate = None →
  ValidatePriority priority = None →
  0 <= count → 0 <= NextID store →
  count + Z.of_nat (length args) <= GoInt.maxInt →
  NextID store + Z.of_nat (length args) <= GoInt.maxInt →
  let descs := List.filter (λ d, negb (isEmpty d)) args in
  fold_left (addLoop dueDate priority) args (count, store)
  = (count + Z.of_nat (length descs),
     {| Tasks := Tasks store ++ added dueDate priority (NextID store) descs;
        NextID := NextID store + Z.of_nat (length descs) |}).
Proof.
  induction args as [|taskDesc args IH];
    intros count store Hdate Hprio Hcount Hnext Hmaxc Hmaxn descs; subst descs.
  - simpl. rewrite app_nil_r, !Z.add_0_r. destruct store; reflexivity.
  - simpl length in *. cbn [fold_left]. unfold addLoop at 2. simpl List.filter.
    destruct (isEmpty taskDesc); simpl negb; cbv iota.
    + apply IH; assumption || lia.
    + unfold AddTask. rewrite Hdate, Hprio.
      rewrite !incr_below_max by (unfold GoInt.minInt; lia).
      rewrite IH by (assumption || (simpl; lia)).
      simpl length. rewrite added_cons. simpl Tasks. simpl NextID.
      rewrite <- app_assoc. simpl. f_equal; [lia|]. f_equal. lia.
Qed.

(** X8. The add command treats its descriptions alike: when the due date
    and the priority are valid it appends one pending task for each
    non-empty description, in order, with consecutive identifiers from the
    counter on, and counts them; when one of the two is invalid it adds
    nothing and the count is 0.  The first part is for a counter that is not
    negative and has room for the descriptions. *)
Theorem addRun_all_or_nothing (store : TaskStore) (args : list string)
    (dueDate priority : string) :
  (ValidateDate dueDate ≠ None ∨ ValidatePriority priority ≠ None →
   addRun store args dueDate priority = (0, store))
  ∧ (ValidateDate dueDate = None →
     ValidatePriority priority = None →
     0 <= NextID store →
     NextID store + Z.of_nat (length args) <= GoInt.maxInt →
     let descs := List.filter (λ d, negb (isEmpty d)) args in
     addRun store args dueDate priority
     = (Z.of_nat (length descs),
        {| Tasks := Tasks store ++ added dueDate priority (NextID store) descs;
           NextID := NextID store + Z.of_nat (length descs) |})).
Proof.
  split.
  - intros Hinvalid. apply fold_addLoop_invalid. exact Hinvalid.
  - intros Hdate Hprio Hnext Hmax descs. unfold addRun.
    rewrite fold_addLoop_valid by (assumption || lia). reflexivity.
Qed.
End Adding.

End MarkingAndEditing.

(** ** Calendar days in the views *)
Section CalendarViews.
Import strings taskdata cmd.
Local Open Scope Z_scope.

Lemma absDate_absYear a y m d yd :
  time.absDate a = (y, m, d, yd) → time.absYear (a / time.secondsPerDay) = (y, yd).
Proof.
  unfold time.absDate. destruct (time.absYear (a / time.secondsPerDay)) as [year yday].
  destruct (time.isLeap year && (yday =? 31 + 29 - 1)).
  - intros [= <- _ _ <-]. reflexivity.
  - cbv zeta. destruct (_ <=? _); intros [= <- _ _ <-]; reflexivity.
Qed.

Lemma absYear_inj n n' : time.absYear n = time.absYear n' → n = n'.
Proof.
  destruct (absYear_spec n) as (a & b & c & e & yd & Hb & Hc & He & -> & Hn & _).
  destruct (absYear_spec n') as (a' & b' & c' & e' & yd' & Hb' & Hc' & He' & -> & Hn' & _).
  intros [= Hy Hyd]. lia.
Qed.

(** Two times show the same date exactly when their wall clocks are in
    the same day. *)
Lemma isSameDay_iff t u :
  isSameDay t u = true ↔ time.abs t / time.secondsPerDay = time.abs u / time.secondsPerDay.
Proof.
  unfold isSameDay, time.Year, time.Month, time.Day. split.
  - destruct (absDate_spec (time.abs t)) as (y & m & d & yd & -> & _ & _ & <-).
    destruct (absDate_spec (time.abs u)) as (y' & m' & d' & yd' & -> & _ & _ & <-).
    cbn [fst snd]. rewrite !andb_true_iff, !Z.eqb_eq. intros [[-> ->] ->]. reflexivity.
  - intros Heq.
    assert (time.absDate (time.abs t) = time.absDate (time.abs u)) as ->
      by (unfold time.absDate; rewrite Heq; reflexivity).
    rewrite !Z.eqb_refl. reflexivity.
Qed.

(** The same for the year and the day of the year. *)
Lemma sameYearDay_iff t u :
  (time.Year t =? time.Year u) && (time.YearDay t =? time.YearDay u) = true
  ↔ time.abs t / time.secondsPerDay = time.abs u / time.secondsPerDay.
Proof.
  unfold time.Year, time.YearDay. split.
  - destruct (time.absDate (time.abs t)) as [[[y m] d] yd] eqn:Ht.
    destruct (time.absDate (time.abs u)) as [[[y' m'] d'] yd'] eqn:Hu.
    apply absDate_absYear in Ht, Hu.
    cbn [fst snd]. rewrite andb_true_iff, !Z.eqb_eq. intros [-> Hyd].
    apply absYear_inj. rewrite Ht, Hu. f_equal. lia.
  - intros Heq.
    assert (time.absDate (time.abs t) = time.absDate (time.abs u)) as ->
      by (unfold time.absDate; rewrite Heq; reflexivity).
    rewrite !Z.eqb_refl. reflexivity.
Qed.

Lemma parseFields_empty : time.parseFields EmptyString = None.
Proof. reflexivity. Qed.

Lemma Parse_fields value year month day :
  time.parseFields value = Some (year, month, day) →
  ∃ dueDate, time.Parse value = Some dueDate
             ∧ time.Year dueDate = year ∧ time.Month dueDate = month
             ∧ time.Day dueDate = day.
Proof.
  intros Hfields.
  assert (time.Parse value = Some (time.Date year month day 0 0 0 0 time.UTC)) as Hparse
    by (unfold time.Parse; rewrite Hfields; reflexivity).
  eexists. split; [exact Hparse|].
  destruct (Parse_date _ _ Hparse) as (y & m & d & Hf & _ & Hy & Hm & Hd & _).
  rewrite Hfields in Hf. injection Hf as <- <- <-. auto.
Qed.

(** The test each view makes on a due date that parses. *)
Lemma isSameDay_fields value dueDate now year month day :
  time.Parse value = Some dueDate →
  time.parseFields value = Some (year, month, day) →
  (isSameDay dueDate now = true
   ↔ (year, month, day) = (time.Year now, time.Month now, time.Day now)).
Proof.
  intros Hparse Hfields.
  destruct (Parse_date _ _ Hparse) as (y & m & d & Hf & _ & Hy & Hm & Hd & _).
  rewrite Hfields in Hf. injection Hf as <- <- <-.
  unfold isSameDay. rewrite Hy, Hm, Hd, !andb_true_iff, !Z.eqb_eq.
  split; [intros [[-> ->] ->]; reflexivity|intros [= -> -> ->]; auto].
Qed.

Lemma isTaskDueToday_isSameDay task now :
  isTaskDueToday task now
  = negb (isEmpty (DueDate task))
    && match time.Parse (DueDate task) with
       | Some dueDate => isSameDay dueDate now
       | None => false
       end.
Proof.
  unfold isTaskDueToday. destruct (isEmpty (DueDate task)); [reflexivity|].
  destruct (time.Parse (DueDate task)) as [dueDate|]; [|reflexivity].
  cbn [negb andb]. apply eq_true_iff_eq.
  rewrite sameYearDay_iff, isSameDay_iff. reflexivity.
Qed.

(** X9. The mark view and the list view agree on the tasks due today, at
    every time and in every location: a task is due today exactly when its
    due date reads as the date the current time shows.  The mark view
    compares the year and the day of the year, the list view the year, the
    month and the day. *)
Theorem due_today_agree (task : Task) (now : time.Time) :
  (isTaskDueToday task now = true
   ↔ time.parseFields (DueDate task)
     = Some (time.Year now, time.Month now, time.Day now))
  ∧ (∀ store, getTodayTasksForCompletion store now = getTodayTasks (Tasks store) now)
  ∧ (∀ tasks, In task (getTodayTasks tasks now)
              ↔ In task tasks ∧ Completed task = false
                ∧ time.parseFields (DueDate task)
                  = Some (time.Year now, time.Month now, time.Day now)).
Proof.
  assert (∀ t, isTaskDueToday t now = true
               ↔ time.parseFields (DueDate t)
                 = Some (time.Year now, time.Month now, time.Day now)) as Hiff.
  { intros t. rewrite isTaskDueToday_isSameDay. split.
    - intros Htoday. apply andb_true_iff in Htoday as [_ Htoday].
      destruct (time.Parse (DueDate t)) as [dueDate|] eqn:Hparse; [|discriminate].
      destruct (Parse_date _ _ Hparse) as (y & m & d & Hf & _).
      rewrite Hf. f_equal.
      apply (isSameDay_fields _ _ now _ _ _ Hparse Hf). exact Htoday.
    - intros Hf. destruct (Parse_fields _ _ _ _ Hf) as (dueDate & Hparse & _).
      rewrite Hparse.
      replace (isEmpty (DueDate t)) with false.
      + apply (isSameDay_fields _ _ now _ _ _ Hparse Hf). reflexivity.
      + symmetry. apply not_true_is_false. intros Hempty.
        apply isEmpty_true in Hempty. rewrite Hempty in Hf. discriminate. }
  assert (∀ tasks, getTodayTasks tasks now
                   = List.filter (λ t, negb (Completed t) && isTaskDueToday t now) tasks)
    as Hfilter.
  { intros tasks. unfold getTodayTasks. apply List.filter_ext. intros t.
    rewrite isTaskDueToday_isSameDay, andb_assoc. reflexivity. }
  split; [apply Hiff|]. split.
  - intros store. rewrite Hfilter. reflexivity.
  - intros tasks. rewrite Hfilter, filter_In, andb_true_iff, negb_true_iff, Hiff.
    reflexivity.
Qed.

(** The week test between the local midnights, in locations with fixed
    offsets from UTC: the midnight of the date is not before the midnight of
    today and not after the midnight six days later. *)
Lemma isInWeekRange_FixedZone (date now : time.Time) (dateOffset offset : Z) :
  time.loc date = time.FixedZone dateOffset →
  time.loc now = time.FixedZone offset →
  isInWeekRange date now = true
  ↔ time.secondsPerDay * ((time.sec now + offset) / time.secondsPerDay) - offset
    <= time.secondsPerDay * ((time.sec date + dateOffset) / time.secondsPerDay) - dateOffset
    <= time.secondsPerDay * ((time.sec now + offset) / time.secondsPerDay) - offset
       + time.secondsPerDay * 6.
Proof.
  intros Hdloc Hloc. unfold isInWeekRange.
  rewrite (startOfDay_FixedZone now offset Hloc), (startOfDay_FixedZone date dateOffset Hdloc).
  rewrite (AddDate_days_FixedZone _ offset 6) by (cbn [time.loc time.nsec]; (reflexivity || lia)).
  unfold time.Before, time.After. cbn [time.sec time.nsec].
  rewrite Z.ltb_irrefl, !andb_false_r, !orb_false_r.
  rewrite andb_true_iff, !negb_true_iff, !Z.ltb_ge. reflexivity.
Qed.

(** X10. The week of the list view, in a location with a fixed offset
    from UTC of less than a day.  The due date is a midnight in UTC and the
    week runs from the local midnight of today to the local midnight six
    days later, so the due days shown are today and the next six days at
    UTC, today and the next five east of UTC, and the next six days without
    today west of UTC.  Days are counted from the Unix epoch. *)
Theorem week_range_days (value : string) (dueDate now : time.Time) (offset : Z) :
  time.loc now = time.FixedZone offset →
  - time.secondsPerDay < offset < time.secondsPerDay →
  time.Parse value = Some dueDate →
  let today := (time.sec now + offset) / time.secondsPerDay in
  let dueDay := time.sec dueDate / time.secondsPerDay in
  isInWeekRange dueDate now = true
  ↔ if offset =? 0 then today <= dueDay <= today + 6
    else if 0 <? offset then today <= dueDay <= today + 5
    else today + 1 <= dueDay <= today + 6.
Proof.
  intros Hloc Hoffset Hparse today dueDay.
  destruct (Parse_midnight_UTC _ _ Hparse) as (Hdloc & _ & Hdsec).
  rewrite (isInWeekRange_FixedZone dueDate now 0 offset Hdloc Hloc).
  pose proof (Z.div_mod (time.sec dueDate) time.secondsPerDay ltac:(discriminate)) as Hd.
  rewrite Hdsec in Hd. rewrite Z.add_0_r. fold dueDay in Hd |- *. fold today.
  clearbody dueDay today. unfold time.secondsPerDay in *.
  destruct (Z.eqb_spec offset 0); [lia|]. destruct (Z.ltb_spec 0 offset); lia.
Qed.

Lemma week_range_days_witness :
  let now := {| time.sec := 1705330800; time.nsec := 0; time.loc := time.FixedZone (-18000) |} in
  (time.Year now, time.Month now, time.Day now) = (2024, 1, 15)
  ∧ (∃ dueDate, time.Parse "2024-01-15" = Some dueDate ∧ isInWeekRange dueDate now = false)
  ∧ (∃ dueDate, time.Parse "2024-01-21" = Some dueDate ∧ isInWeekRange dueDate now = true).
Proof.
  intros now. apply conj; [vm_compute; reflexivity|]. apply conj.
  - exists {| time.sec := 1705276800; time.nsec := 0; time.loc := time.UTC |}.
    apply conj; [vm_compute; reflexivity|].
    apply not_true_is_false. intros Hin.
    apply (proj1 (week_range_days "2024-01-15" _ now (-18000) eq_refl
                    ltac:(vm_compute; split; reflexivity) ltac:(vm_compute; reflexivity))) in Hin.
    vm_compute in Hin. destruct Hin as [Hin _]. apply Hin. reflexivity.
  - exists {| time.sec := 1705795200; time.nsec := 0; time.loc := time.UTC |}.
    apply conj; [vm_compute; reflexivity|].
    apply (proj2 (week_range_days "2024-01-21" _ now (-18000) eq_refl
                    ltac:(vm_compute; split; reflexivity) ltac:(vm_compute; reflexivity))).
    vm_compute. split; discriminate.
Defined.

(** X11. The time filters of the list view read the due date as a
    calendar date: a task without a due date passes every filter, the
    filter [all] passes every task, a due date that does not parse passes
    no other filter, and a due date that parses passes [today] exactly when
    it is the date the current time shows and [month] exactly when it has
    its year and month; any other filter but [week] passes it. *)
Theorem time_filter_by_date (task : Task) (now : time.Time) :
  (∀ timeFilter, DueDate task = EmptyString → matchesTimeFilter task timeFilter now = true)
  ∧ matchesTimeFilter task "all" now = true
  ∧ (∀ timeFilter,
       timeFilter ≠ "all"%string → DueDate task ≠ EmptyString →
       time.Parse (DueDate task) = None →
       matchesTimeFilter task timeFilter now = false)
  ∧ (∀ year month day,
       time.parseFields (DueDate task) = Some (year, month, day) →
       (matchesTimeFilter task "today" now = true
        ↔ (year, month, day) = (time.Year now, time.Month now, time.Day now))
       ∧ (matchesTimeFilter task "month" now = true
          ↔ (year, month) = (time.Year now, time.Month now))
       ∧ (∀ timeFilter,
            timeFilter ≠ "today"%string → timeFilter ≠ "week"%string →
            timeFilter ≠ "month"%string →
            matchesTimeFilter task timeFilter now = true)).
Proof.
  split; [|split; [|split]].
  - intros timeFilter Hempty. unfold matchesTimeFilter. rewrite Hempty.
    destruct (String.eqb timeFilter "all"); reflexivity.
  - reflexivity.
  - intros timeFilter Hall Hdate Hparse. unfold matchesTimeFilter.
    rewrite (proj2 (String.eqb_neq _ _) Hall), Hparse.
    destruct (isEmpty (DueDate task)) eqn:Hempty; [|reflexivity].
    apply isEmpty_true in Hempty. contradiction.
  - intros year month day Hfields.
    destruct (Parse_fields _ _ _ _ Hfields) as (dueDate & Hparse & Hy & Hm & Hd).
    assert (isEmpty (DueDate task) = false) as Hempty.
    { apply not_true_is_false. intros Hempty. apply isEmpty_true in Hempty.
      rewrite Hempty in Hfields. discriminate. }
    unfold matchesTimeFilter. rewrite Hempty, Hparse.
    split; [|split].
    + replace (String.eqb "today" "all") with false by reflexivity.
      replace (String.eqb "today" "today") with true by reflexivity.
      apply (isSameDay_fields _ _ now _ _ _ Hparse Hfields).
    + replace (String.eqb "month" "all") with false by reflexivity.
      replace (String.eqb "month" "today") with false by reflexivity.
      replace (String.eqb "month" "week") with false by reflexivity.
      replace (String.eqb "month" "month") with true by reflexivity.
      unfold isSameMonth. rewrite Hy, Hm, andb_true_iff, !Z.eqb_eq.
      split; [intros [-> ->]; reflexivity|intros [= -> ->]; auto].
    + intros timeFilter Htoday Hweek Hmonth.
      rewrite (proj2 (String.eqb_neq _ _) Htoday), (proj2 (String.eqb_neq _ _) Hweek),
        (proj2 (String.eqb_neq _ _) Hmonth).
      destruct (String.eqb timeFilter "all"); reflexivity.
Qed.

Lemma startOfDay_le now offset :
  time.loc now = time.FixedZone offset →
  time.sec (startOfDay now) <= time.sec now.
Proof.
  intros Hloc. rewrite (startOfDay_FixedZone now offset Hloc). cbn [time.sec].
  pose proof (Z.div_mod (time.sec now + offset) time.secondsPerDay ltac:(discriminate)) as Hd.
  pose proof (Z.mod_pos_bound (time.sec now + offset) time.secondsPerDay eq_refl) as Hm.
  set (q := (time.sec now + offset) / time.secondsPerDay) in *.
  set (r := (time.sec now + offset) mod time.secondsPerDay) in *.
  clearbody q r. lia.
Qed.

Lemma isOverdue_not_isDueSoon task now offset :
  time.loc now = time.FixedZone offset →
  isOverdue task now = true → isDueSoon task now = false.
Proof.
  intros Hloc Hoverdue.
  apply (isOverdue_FixedZone task now offset Hloc) in Hoverdue
    as [Hc (dueDate & Hparse & Hlt)].
  pose proof (startOfDay_le now offset Hloc) as Hle.
  rewrite (startOfDay_FixedZone now offset Hloc) in Hle. cbn [time.sec] in Hle.
  unfold isDueSoon. rewrite Hc, Hparse. cbn [orb].
  destruct (isEmpty (DueDate task)); [reflexivity|].
  replace (time.Before dueDate now) with true; [reflexivity|].
  symmetry. unfold time.Before. apply orb_true_iff. left. apply Z.ltb_lt. lia.
Qed.

Section Listing.
Context `{!Unicode} `{!sort.Sorter} `{!sort.SorterContract _}.

(** X12. In a location with a fixed offset from UTC no task is both
    overdue and due soon: an overdue task is due before the local midnight
    of today, a task due soon not before the current time.  So the list
    view shows nothing when asked for the tasks that are overdue and due
    soon. *)
Theorem overdue_excludes_due_soon (now : time.Time) (offset : Z) :
  time.loc now = time.FixedZone offset →
  (∀ task, isOverdue task now = true → isDueSoon task now = false)
  ∧ (∀ tasks opts,
       showOverdue opts = true → showDueSoon opts = true →
       filterTasks tasks opts now = []).
Proof.
  intros Hloc. split.
  - intros task. apply isOverdue_not_isDueSoon with offset. exact Hloc.
  - intros tasks opts Hoverdue Hsoon. unfold filterTasks.
    apply Permutation_nil. symmetry.
    etransitivity; [apply sort.Slice_permutation|].
    rewrite (filterLoop_filter opts now tasks []). simpl.
    replace (List.filter (passesFilters opts now) tasks) with (@nil Task); [reflexivity|].
    symmetry. induction tasks as [|t tasks IH]; [reflexivity|]. simpl.
    replace (passesFilters opts now t) with false; [exact IH|].
    symmetry. unfold passesFilters. rewrite Hoverdue, Hsoon. cbn [andb].
    destruct (isOverdue t now) eqn:Ho; cbn [negb]; [|reflexivity].
    rewrite (isOverdue_not_isDueSoon t now offset Hloc Ho). reflexivity.
Qed.
End Listing.

Lemma Date_month_0 year day hour min sec nsec l :
  time.Date year 0 day hour min sec nsec l
  = time.Date (year - 1) 12 day hour min sec nsec l.
Proof.
  unfold time.Date, time.norm.
  change ((0 - 1) / 12) with (-1). change ((0 - 1) mod 12) with 11.
  change ((12 - 1) / 12) with 0. change ((12 - 1) mod 12) with 11.
  replace (year - 1 + 0) with (year + -1) by lia. reflexivity.
Qed.

(** The days between the first of a month and the first of the month
    before it, within a year. *)
Lemma month_before_days m (leap : bool) :
  2 <= m <= 12 →
  28 <= (time.daysBefore (m - 1) + (if leap && (3 <=? m) then 1 else 0))
        - (time.daysBefore (m - 1 - 1) + (if leap && (3 <=? m - 1) then 1 else 0)) <= 31.
Proof.
  intros Hm.
  assert (m = 2 ∨ m = 3 ∨ m = 4 ∨ m = 5 ∨ m = 6 ∨ m = 7 ∨ m = 8 ∨ m = 9 ∨ m = 10
          ∨ m = 11 ∨ m = 12) as Hcases by lia.
  destruct leap;
    repeat (destruct Hcases as [->|Hcases]; [vm_compute; split; discriminate|]);
    subst m; vm_compute; split; discriminate.
Qed.

(** [AddDate] by one month back keeps the time of day, so in a location
    with a fixed offset it goes back by the days of the month before the
    one shown: 28 to 31 whole days. *)
Lemma AddDate_month_ago_FixedZone now offset :
  time.loc now = time.FixedZone offset →
  0 <= time.nsec now < 1000000000 →
  ∃ days, 28 <= days <= 31
    ∧ time.AddDate now 0 (-1) 0
      = {| time.sec := time.sec now - time.secondsPerDay * days;
           time.nsec := time.nsec now;
           time.loc := time.FixedZone offset |}.
Proof.
  intros Hloc Hnsec. unfold time.AddDate, time.Clock, time.Year, time.Month, time.Day.
  destruct (absDate_spec (time.abs now)) as (y & m & d & yd & -> & Hm & Hd & Hday).
  cbn [fst snd]. rewrite Hloc, !Z.add_0_r.
  pose proof (Z.mod_pos_bound (time.abs now) time.secondsPerDay eq_refl) as Hs.
  pose proof (Z.div_mod (time.abs now) time.secondsPerDay ltac:(discriminate)) as Habs.
  set (s := time.abs now mod time.secondsPerDay) in *.
  unfold time.secondsPerDay in Hs.
  assert (s / 3600 * 3600 + s mod 3600 / 60 * 60 + s mod 60 = s) as Hclock.
  { pose proof (Z.div_mod s 3600 ltac:(lia)).
    pose proof (Z.div_mod (s mod 3600) 60 ltac:(lia)).
    pose proof (Z.mod_mod_divide s 3600 60 ltac:(exists 60; reflexivity)) as Hmm.
    rewrite <- Hmm. lia. }
  assert (0 <= s / 3600 < 24) as Hhour
    by (split; [apply Z.div_pos; lia|apply Z.div_lt_upper_bound; lia]).
  assert (0 <= s mod 3600 / 60 < 60) as Hmin.
  { pose proof (Z.mod_pos_bound s 3600 ltac:(lia)).
    split; [apply Z.div_pos; lia|apply Z.div_lt_upper_bound; lia]. }
  assert (0 <= s mod 60 < 60) as Hsec by (apply Z.mod_pos_bound; lia).
  set (h := s / 3600) in *. set (mi := s mod 3600 / 60) in *. set (se := s mod 60) in *.
  set (q := time.abs now / time.secondsPerDay) in *.
  rewrite (abs_FixedZone now offset Hloc) in Habs.
  clearbody h mi se q s.
  assert (∀ year month,
            1 <= month <= 12 →
            28 <= q - time.dayNumber year month d <= 31 →
            ∃ days, 28 <= days <= 31
              ∧ time.Date year month d h mi se (time.nsec now) (time.FixedZone offset)
                = {| time.sec := time.sec now - time.secondsPerDay * days;
                     time.nsec := time.nsec now;
                     time.loc := time.FixedZone offset |}) as Hback.
  { intros year month Hmonth Hdays. exists (q - time.dayNumber year month d).
    split; [exact Hdays|]. rewrite Date_FixedZone by lia. f_equal.
    unfold time.secondsPerDay in *. lia. }
  destruct (Z.eq_dec m 1) as [->|Hm1].
  - change (1 + -1) with 0. rewrite Date_month_0. apply Hback; [lia|].
    rewrite <- Hday. unfold time.dayNumber.
    pose proof (daysSinceEpoch_next (y - 1)) as Hnext.
    replace (y - 1 + 1) with y in Hnext by lia.
    change (time.daysBefore (12 - 1)) with 334. change (time.daysBefore (1 - 1)) with 0.
    change (3 <=? 12) with true. change (3 <=? 1) with false.
    rewrite andb_true_r, andb_false_r.
    destruct (time.isLeap (y - 1)); lia.
  - replace (m + -1) with (m - 1) by lia.
    apply Hback; [lia|]. rewrite <- Hday. unfold time.dayNumber.
    pose proof (month_before_days m (time.isLeap y) ltac:(lia)). lia.
Qed.

(** X13. In a location with a fixed offset from UTC, the ancient
    low-priority tasks of the delete view are pending low-priority tasks
    due at least 28 days before the current time: the month the view goes
    back is the month before the one shown, 28 to 31 days.  They are
    overdue for the delete view as well. *)
Theorem ancient_tasks_overdue (tasks : list Task) (now : time.Time) (offset : Z) (task : Task) :
  time.loc now = time.FixedZone offset →
  0 <= time.nsec now < 1000000000 →
  In task (getAncientLowPriorityTasks tasks now) →
  Completed task = false ∧ Priority task = "low"%string
  ∧ (∃ dueDate, time.Parse (DueDate task) = Some dueDate
                ∧ time.sec dueDate <= time.sec now - 28 * time.secondsPerDay)
  ∧ In task (getOverdueTasks tasks now).
Proof.
  intros Hloc Hnsec Hin. unfold getAncientLowPriorityTasks in Hin.
  destruct (AddDate_month_ago_FixedZone now offset Hloc Hnsec) as (days & Hdays & Hago).
  rewrite Hago in Hin. apply filter_In in Hin as [Hin Htest].
  rewrite !andb_true_iff, !negb_true_iff in Htest.
  destruct Htest as [[[Hc Hlow] Hempty] Hbefore].
  destruct (time.Parse (DueDate task)) as [dueDate|] eqn:Hparse; [|discriminate].
  unfold time.Before in Hbefore. cbn [time.sec time.nsec] in Hbefore.
  assert (time.sec dueDate <= time.sec now - 28 * time.secondsPerDay) as Hdue.
  { unfold time.secondsPerDay in *.
    apply orb_true_iff in Hbefore as [Hlt|Heq].
    - apply Z.ltb_lt in Hlt. lia.
    - apply andb_true_iff in Heq as [Heq _]. apply Z.eqb_eq in Heq. lia. }
  split; [exact Hc|]. split; [apply String.eqb_eq; exact Hlow|].
  split; [exists dueDate; split; [reflexivity|exact Hdue]|].
  apply filter_In. split; [exact Hin|].
  unfold overdueForDeletion. rewrite Hc, Hempty, Hparse. cbn [orb].
  unfold time.Before. apply orb_true_iff. left. apply Z.ltb_lt.
  unfold time.secondsPerDay in Hdue. lia.
Qed.

Lemma ancient_tasks_overdue_witness :
  let task := {| ID := 1; Description := "sort the attic"; DueDate := "2024-02-01";
                 Priority := "low"; Completed := false |} in
  let now := {| time.sec := 1711879200; time.nsec := 0; time.loc := time.UTC |} in
  (time.Year now, time.Month now, time.Day now) = (2024, 3, 31)
  ∧ In task (getOverdueTasks [task] now).
Proof.
  intros task now. apply conj; [vm_compute; reflexivity|].
  refine (proj2 (proj2 (proj2 (ancient_tasks_overdue [task] now 0 task eq_refl _ _)))).
  - vm_compute. split; [discriminate|reflexivity].
  - vm_compute. left. reflexivity.
Defined.

End CalendarViews.

(** A task due the day before, asked for as overdue and due soon. *)
Lemma overdue_excludes_due_soon_witness :
  let task := {| taskdata.ID := 1; taskdata.Description := "pay rent";
                 taskdata.DueDate := "2024-01-14"; taskdata.Priority := "normal";
                 taskdata.Completed := false |} in
  let opts := {| cmd.timeFilter := "all"; cmd.priority := ""; cmd.showCompleted := false;
                 cmd.showPending := false; cmd.showOverdue := true;
                 cmd.showDueSoon := true; cmd.showNoDate := false |} in
  let now := {| time.sec := 1705312800; time.nsec := 0; time.loc := time.UTC |} in
  cmd.isOverdue task now = true
  ∧ @cmd.filterTasks strings.asciiUnicode sort.insertionSorter [task] opts now = [].
Proof.
  intros task opts now. apply conj; [vm_compute; reflexivity|].
  exact (proj2 (@overdue_excludes_due_soon strings.asciiUnicode sort.insertionSorter
                  insertionSorter_contract now 0%Z eq_refl) [task] opts eq_refl eq_refl).
Defined.

(** ** Validation *)
Section DateText.
Import strings taskdata cmd.
Local Open Scope Z_scope.

Lemma digitChar_digit k :
  0 <= k <= 9 → time.isDigit (time.digitChar k) = true ∧ time.digit (time.digitChar k) = k.
Proof.
  intros Hk.
  assert (k = 0 ∨ k = 1 ∨ k = 2 ∨ k = 3 ∨ k = 4 ∨ k = 5 ∨ k = 6 ∨ k = 7 ∨ k = 8 ∨ k = 9)
    as Hcases by lia.
  repeat (destruct Hcases as [->|Hcases]; [split; reflexivity|]).
  subst k. split; reflexivity.
Qed.

Lemma digit_digitChar c : time.isDigit c = true → time.digitChar (time.digit c) = c.
Proof.
  intros _. unfold time.digitChar, time.digit.
  replace (48 + (Z.of_N (N_of_ascii c) - 48)) with (Z.of_N (N_of_ascii c)) by lia.
  rewrite N2Z.id. apply ascii_N_embedding.
Qed.

Lemma div_mod_digits base a b :
  0 <= b < base → (a * base + b) / base = a ∧ (a * base + b) mod base = b.
Proof.
  intros Hb. split.
  - symmetry. apply Z.div_unique with b; lia.
  - symmetry. apply Z.mod_unique with a; lia.
Qed.

Lemma div_bound n base top :
  0 < base → 0 <= n < base * (top + 1) → 0 <= n / base <= top.
Proof.
  intros Hbase Hn. split; [apply Z.div_pos; lia|].
  assert (n / base < top + 1) by (apply Z.div_lt_upper_bound; lia). lia.
Qed.

Lemma twoDigits_digits a b :
  time.isDigit a = true → time.isDigit b = true →
  time.twoDigits (time.digit a * 10 + time.digit b) = String a (String b EmptyString).
Proof.
  intros Ha Hb. unfold time.twoDigits.
  destruct (div_mod_digits 10 (time.digit a) (time.digit b)) as [-> ->].
  - apply isDigit_digit in Hb. lia.
  - rewrite !digit_digitChar by assumption. reflexivity.
Qed.

Lemma getnum2_twoDigits n rest :
  0 <= n <= 99 →
  time.getnum2 (String.append (time.twoDigits n) rest) = Some (n, rest).
Proof.
  intros Hn. unfold time.twoDigits. cbv beta iota delta [String.append]. unfold time.getnum2.
  assert (0 <= n / 10 <= 9) as Hq by (apply div_bound; lia).
  pose proof (Z.mod_pos_bound n 10 ltac:(lia)) as Hr.
  destruct (digitChar_digit (n / 10) Hq) as [-> ->].
  destruct (digitChar_digit (n mod 10) ltac:(lia)) as [-> ->].
  cbn [andb]. do 2 f_equal.
  pose proof (Z.div_mod n 10 ltac:(lia)). lia.
Qed.

Lemma getnum4_twoDigits year rest :
  0 <= year <= 9999 →
  time.getnum4
    (String.append (time.twoDigits (year / 100))
       (String.append (time.twoDigits (year mod 100)) rest))
  = Some (year, rest).
Proof.
  intros Hyear. unfold time.twoDigits. cbv beta iota delta [String.append]. unfold time.getnum4.
  assert (0 <= year / 100 <= 99) as Hhi by (apply div_bound; lia).
  pose proof (Z.mod_pos_bound year 100 ltac:(lia)) as Hlo.
  pose proof (Z.div_mod year 100 ltac:(lia)) as Hy.
  set (hi := year / 100) in *. set (lo := year mod 100) in *. clearbody hi lo.
  assert (0 <= hi / 10 <= 9) as Hq1 by (apply div_bound; lia).
  assert (0 <= lo / 10 <= 9) as Hq2 by (apply div_bound; lia).
  pose proof (Z.mod_pos_bound hi 10 ltac:(lia)) as Hr1.
  pose proof (Z.mod_pos_bound lo 10 ltac:(lia)) as Hr2.
  destruct (digitChar_digit (hi / 10) Hq1) as [-> ->].
  destruct (digitChar_digit (hi mod 10) ltac:(lia)) as [-> ->].
  destruct (digitChar_digit (lo / 10) Hq2) as [-> ->].
  destruct (digitChar_digit (lo mod 10) ltac:(lia)) as [-> ->].
  cbn [andb]. do 2 f_equal.
  pose proof (Z.div_mod hi 10 ltac:(lia)). pose proof (Z.div_mod lo 10 ltac:(lia)). lia.
Qed.

Lemma daysIn_le_31 month year : 1 <= month <= 12 → time.daysIn month year <= 31.
Proof.
  intros Hm. unfold time.daysIn.
  assert (month = 1 ∨ month = 2 ∨ month = 3 ∨ month = 4 ∨ month = 5 ∨ month = 6
          ∨ month = 7 ∨ month = 8 ∨ month = 9 ∨ month = 10 ∨ month = 11 ∨ month = 12)
    as Hcases by lia.
  destruct (time.isLeap year);
    repeat (destruct Hcases as [->|Hcases]; [vm_compute; discriminate|]);
    subst month; vm_compute; discriminate.
Qed.

(** Reading the text of a date gives the date back. *)
Lemma parseFields_dateText year month day :
  0 <= year <= 9999 → 1 <= month <= 12 → 1 <= day <= time.daysIn month year →
  time.parseFields (time.dateText year month day) = Some (year, month, day).
Proof.
  intros Hyear Hmonth Hday. pose proof (daysIn_le_31 month year Hmonth) as Hdays.
  unfold time.parseFields, time.dateText.
  rewrite getnum4_twoDigits by assumption. cbn [mbind option_bind].
  cbn [time.skipDash]. replace (Ascii.eqb "-" "-") with true by reflexivity.
  cbn [mbind option_bind].
  rewrite getnum2_twoDigits by lia. cbn [mbind option_bind].
  destruct (Z.leb_spec month 0); [lia|]. destruct (Z.ltb_spec 12 month); [lia|].
  cbn [orb time.skipDash]. replace (Ascii.eqb "-" "-") with true by reflexivity.
  cbn [mbind option_bind].
  replace (time.twoDigits day) with (String.append (time.twoDigits day) EmptyString)
    by (unfold time.twoDigits; reflexivity).
  rewrite getnum2_twoDigits by lia. cbn [mbind option_bind isEmpty negb].
  destruct (Z.ltb_spec day 1); [lia|].
  destruct (Z.ltb_spec (time.daysIn month year) day); [lia|]. reflexivity.
Qed.

(** A text that reads as a date is the text of that date. *)
Lemma dateText_parseFields value year month day :
  time.parseFields value = Some (year, month, day) →
  value = time.dateText year month day.
Proof.
  unfold time.parseFields. intros Hparse.
  destruct (time.getnum4 value) as [[y v1]|] eqn:Hyear; [|discriminate].
  cbn [mbind option_bind] in Hparse.
  destruct (time.skipDash v1) as [v2|] eqn:Hdash1; [|discriminate].
  cbn [mbind option_bind] in Hparse.
  destruct (time.getnum2 v2) as [[m v3]|] eqn:Hmonth; [|discriminate].
  cbn [mbind option_bind] in Hparse.
  destruct ((m <=? 0) || (12 <? m)); [discriminate|].
  destruct (time.skipDash v3) as [v4|] eqn:Hdash2; [|discriminate].
  cbn [mbind option_bind] in Hparse.
  destruct (time.getnum2 v4) as [[d v5]|] eqn:Hday; [|discriminate].
  cbn [mbind option_bind] in Hparse.
  destruct (isEmpty v5) eqn:Hend; [|discriminate]. cbn [negb] in Hparse.
  destruct ((d <? 1) || (time.daysIn m y <? d)); [discriminate|].
  injection Hparse as <- <- <-. apply isEmpty_true in Hend. subst v5.
  unfold time.getnum4 in Hyear.
  destruct value as [|c1 [|c2 [|c3 [|c4 rest]]]]; try discriminate.
  destruct (time.isDigit c1) eqn:Hc1; [|discriminate].
  destruct (time.isDigit c2) eqn:Hc2; [|discriminate].
  destruct (time.isDigit c3) eqn:Hc3; [|discriminate].
  destruct (time.isDigit c4) eqn:Hc4; [|discriminate].
  cbn [andb] in Hyear. injection Hyear as <- <-.
  unfold time.skipDash in Hdash1. destruct rest as [|s1 v2']; [discriminate|].
  destruct (Ascii.eqb_spec s1 "-") as [->|]; [|discriminate]. injection Hdash1 as <-.
  unfold time.getnum2 in Hmonth. destruct v2' as [|m1 [|m2 v3']]; try discriminate.
  destruct (time.isDigit m1) eqn:Hm1; [|discriminate].
  destruct (time.isDigit m2) eqn:Hm2; [|discriminate].
  cbn [andb] in Hmonth. injection Hmonth as <- <-.
  unfold time.skipDash in Hdash2. destruct v3' as [|s2 v4']; [discriminate|].
  destruct (Ascii.eqb_spec s2 "-") as [->|]; [|discriminate]. injection Hdash2 as <-.
  unfold time.getnum2 in Hday. destruct v4' as [|d1 [|d2 v5']]; try discriminate.
  destruct (time.isDigit d1) eqn:Hd1; [|discriminate].
  destruct (time.isDigit d2) eqn:Hd2; [|discriminate].
  cbn [andb] in Hday. injection Hday as <- ->.
  unfold time.dateText.
  pose proof (isDigit_digit _ Hc1). pose proof (isDigit_digit _ Hc2).
  pose proof (isDigit_digit _ Hc3). pose proof (isDigit_digit _ Hc4).
  replace (((time.digit c1 * 10 + time.digit c2) * 10 + time.digit c3) * 10 + time.digit c4)
    with ((time.digit c1 * 10 + time.digit c2) * 100 + (time.digit c3 * 10 + time.digit c4))
    by lia.
  destruct (div_mod_digits 100 (time.digit c1 * 10 + time.digit c2)
              (time.digit c3 * 10 + time.digit c4)) as [-> ->]; [lia|].
  rewrite !twoDigits_digits by assumption. reflexivity.
Qed.

Lemma dateRegex_dateText year month day :
  0 <= year <= 9999 → 1 <= month <= 12 → 1 <= day <= 31 →
  dateRegexMatchString (time.dateText year month day) = true.
Proof.
  intros Hyear Hmonth Hday. unfold dateRegexMatchString, time.dateText, time.twoDigits.
  cbv beta iota delta [String.append list_ascii_of_string].
  assert (∀ n, 0 <= n <= 99 →
            time.isDigit (time.digitChar (n / 10)) = true
            ∧ time.isDigit (time.digitChar (n mod 10)) = true) as Hdigits.
  { intros n Hn. pose proof (Z.mod_pos_bound n 10 ltac:(lia)).
    split; apply digitChar_digit; [apply div_bound; lia|lia]. }
  assert (0 <= year / 100 <= 99) as Hhi by (apply div_bound; lia).
  pose proof (Z.mod_pos_bound year 100 ltac:(lia)) as Hlo.
  destruct (Hdigits (year / 100) Hhi) as [-> ->].
  destruct (Hdigits (year mod 100) ltac:(lia)) as [-> ->].
  destruct (Hdigits month ltac:(lia)) as [-> ->].
  destruct (Hdigits day ltac:(lia)) as [-> ->].
  reflexivity.
Qed.

Lemma ValidateDate_None date :
  ValidateDate date = None → date = EmptyString ∨ is_Some (time.Parse date).
Proof.
  unfold ValidateDate. destruct (isEmpty date) eqn:Hempty.
  - intros _. left. apply isEmpty_true. exact Hempty.
  - destruct (negb (dateRegexMatchString date)); [discriminate|].
    destruct (time.Parse date); [eauto|discriminate].
Qed.

(** X14. [ValidateDate] accepts the empty string and the texts of the
    dates of the calendar in the years 0 to 9999, written as four digits
    for the year and two for the month and for the day of the month with
    dashes between, and nothing else; reading such a text gives the date
    back, at midnight in UTC. *)
Theorem ValidateDate_calendar_dates (date : string) :
  (ValidateDate date = None
   ↔ date = EmptyString
     ∨ ∃ year month day,
         0 <= year <= 9999 ∧ 1 <= month <= 12 ∧ 1 <= day <= time.daysIn month year
         ∧ date = time.dateText year month day)
  ∧ (∀ year month day,
       0 <= year <= 9999 → 1 <= month <= 12 → 1 <= day <= time.daysIn month year →
       ∃ dueDate,
         time.Parse (time.dateText year month day) = Some dueDate
         ∧ (time.Year dueDate, time.Month dueDate, time.Day dueDate) = (year, month, day)
         ∧ time.Clock dueDate = (0, 0, 0)
         ∧ time.loc dueDate = time.UTC).
Proof.
  split.
  - split.
    + intros Hvalid. destruct (ValidateDate_None date Hvalid) as [->|[dueDate Hparse]];
        [left; reflexivity|right].
      destruct (Parse_date _ _ Hparse) as (year & month & day & Hfields & _).
      destruct (parseFields_valid _ _ _ _ Hfields) as (Hyear & Hmonth & Hday).
      exists year, month, day. repeat (split; [assumption|]).
      apply dateText_parseFields. exact Hfields.
    + intros [->|(year & month & day & Hyear & Hmonth & Hday & ->)]; [reflexivity|].
      pose proof (daysIn_le_31 month year Hmonth) as Hdays.
      unfold ValidateDate.
      rewrite dateRegex_dateText by lia.
      unfold time.Parse. rewrite parseFields_dateText by assumption.
      unfold time.dateText, time.twoDigits. reflexivity.
  - intros year month day Hyear Hmonth Hday.
    destruct (Parse_fields _ _ _ _ (parseFields_dateText year month day Hyear Hmonth Hday))
      as (dueDate & Hparse & Hy & Hm & Hd).
    exists dueDate. split; [exact Hparse|].
    destruct (Parse_date _ _ Hparse) as (_ & _ & _ & _ & _ & _ & _ & _ & Hclock).
    destruct (Parse_midnight_UTC _ _ Hparse) as (Hloc & _).
    rewrite Hy, Hm, Hd. auto.
Qed.

End DateText.

Section Priorities.
Import strings taskdata cmd.
Local Open Scope Z_scope.

Lemma asciiLower_noUpper c : negb (isUpper (asciiLower c)) = true.
Proof. destruct c as [[] [] [] [] [] [] [] []]; reflexivity. Qed.

Lemma asciiUnicode_laws : UnicodeLaws asciiUnicode.
Proof.
  split.
  - reflexivity.
  - intros s. unfold noUpper. simpl ToLower.
    induction s as [|c s IH]; [reflexivity|].
    simpl. rewrite asciiLower_noUpper. exact IH.
Qed.

Context `{u : Unicode} `{!UnicodeLaws u}.

Lemma ToLower_not_upper priority letter :
  noUpper letter = false → String.eqb (ToLower priority) letter = false.
Proof.
  intros Hupper. apply String.eqb_neq. intros Heq.
  pose proof (ToLower_noUpper priority) as Hlower. rewrite Heq, Hupper in Hlower.
  discriminate.
Qed.

Lemma ValidatePriority_None priority :
  ValidatePriority priority = None
  ↔ (ToLower priority = "low" ∨ ToLower priority = "normal" ∨ ToLower priority = "high")%string.
Proof.
  unfold ValidatePriority, validPriorities. cbn [existsb].
  rewrite (ToLower_not_upper priority "L"), (ToLower_not_upper priority "N"),
    (ToLower_not_upper priority "H") by reflexivity.
  cbn [orb].
  rewrite orb_false_r.
  destruct (String.eqb_spec (ToLower priority) "low") as [->|Hlow];
    [split; [auto|reflexivity]|].
  destruct (String.eqb_spec (ToLower priority) "normal") as [->|Hnormal];
    [split; [auto|reflexivity]|].
  destruct (String.eqb_spec (ToLower priority) "high") as [->|Hhigh];
    [split; [auto|reflexivity]|].
  cbn [orb]. split; [discriminate|]. intros [?|[?|?]]; contradiction.
Qed.

(** X15. [ValidatePriority] accepts a priority exactly when its lower
    case is one of the names low, normal and high.  The one-letter entries
    of its list are never met, since the priority is compared in lower
    case: the letters l, n and h, which the list view takes as a filter, are
    refused, in either case.  So every task [AddTask] creates bears one of
    the three names, which the two orderings rank 1 to 3. *)
Theorem ValidatePriority_names (priority : string) :
  (ValidatePriority priority = None
   ↔ (ToLower priority = "low" ∨ ToLower priority = "normal" ∨ ToLower priority = "high")%string)
  ∧ (∀ letter, In letter ["L"; "N"; "H"; "l"; "n"; "h"]%string →
       ValidatePriority letter ≠ None
       ∧ ∀ task, matchesPriority task letter
                 = String.eqb (Priority task)
                     (if String.eqb (asciiToLower letter) "h" then "high"
                      else if String.eqb (asciiToLower letter) "n" then "normal" else "low"))
  ∧ (∀ store description dueDate task store',
       AddTask store description dueDate priority = (inr task, store') →
       (Priority task = "low" ∨ Priority task = "normal" ∨ Priority task = "high")%string
       ∧ 1 <= priorityRank (Priority task) <= 3).
Proof.
  split; [apply ValidatePriority_None|]. split.
  - intros letter Hletter.
    assert (ToLower letter = asciiToLower letter) as Hlower.
    { apply ToLower_ascii.
      repeat (destruct Hletter as [<-|Hletter]; [reflexivity|]). contradiction. }
    split.
    + rewrite ValidatePriority_None, Hlower.
      repeat (destruct Hletter as [<-|Hletter];
              [intros [?|[?|?]]; discriminate|]).
      contradiction.
    + intros task. unfold matchesPriority. rewrite Hlower.
      repeat (destruct Hletter as [<-|Hletter]; [reflexivity|]). contradiction.
  - intros store description dueDate task store' Hadd. unfold AddTask in Hadd.
    destruct (ValidateDate dueDate); [discriminate|].
    destruct (ValidatePriority priority) eqn:Hvalid; [discriminate|].
    injection Hadd as <- _. cbn [Priority].
    apply ValidatePriority_None in Hvalid.
    split; [exact Hvalid|].
    destruct Hvalid as [-> | [-> | ->]]; vm_compute; split; discriminate.
Qed.

(** X16. [findTaskByIDOrName] of the mark view returns a task of the
    store: the first that bears the identifier when the text is a number
    and some task bears it, and otherwise the first whose description, in
    lower case, contains the text in lower case.  So a number that no task
    bears is searched for in the descriptions, where [deleteByIDOrName]
    reports that the task is not found and deletes nothing; and the empty
    text finds the first task of the store. *)
Theorem findTaskByIDOrName_search (store : TaskStore) (identifier : string) :
  (∀ found, findTaskByIDOrName store identifier = Some found → In found (Tasks store))
  ∧ (∀ id pre task post,
       strconv.Atoi identifier = Some id →
       Tasks store = pre ++ task :: post →
       ID task = id →
       Forall (λ t, ID t ≠ id) pre →
       findTaskByIDOrName store identifier = Some task)
  ∧ (∀ id,
       strconv.Atoi identifier = Some id →
       Forall (λ t, ID t ≠ id) (Tasks store) →
       findTaskByIDOrName store identifier
       = List.find (λ task, Contains (ToLower (Description task)) (ToLower identifier))
           (Tasks store)
       ∧ ∀ force confirmed input,
           deleteByIDOrName store identifier force confirmed input = (false, store))
  ∧ (strconv.Atoi identifier = None →
     findTaskByIDOrName store identifier
     = List.find (λ task, Contains (ToLower (Description task)) (ToLower identifier))
         (Tasks store))
  ∧ findTaskByIDOrName store EmptyString = head (Tasks store).
Proof.
  split; [|split; [|split; [|split]]].
  - intros found. apply findTaskByIDOrName_In.
  - intros id pre task post Hatoi Hstore Hid Hpre. unfold findTaskByIDOrName.
    rewrite Hatoi, Hstore, (find_ID_found id pre task post Hid Hpre). reflexivity.
  - intros id Hatoi Hall. split.
    + unfold findTaskByIDOrName. rewrite Hatoi, (find_ID_missing id _ Hall). reflexivity.
    + intros force confirmed input. unfold deleteByIDOrName, findTaskByID.
      rewrite Hatoi, (find_ID_missing id _ Hall). reflexivity.
  - intros Hatoi. unfold findTaskByIDOrName. rewrite Hatoi. reflexivity.
  - unfold findTaskByIDOrName. cbn [strconv.Atoi].
    rewrite (ToLower_ascii EmptyString eq_refl). cbn [asciiToLower].
    destruct (Tasks store) as [|task tasks]; [reflexivity|]. cbn [List.find head].
    replace (Contains (ToLower (Description task)) EmptyString) with true; [reflexivity|].
    destruct (ToLower (Description task)); reflexivity.
Qed.

End Priorities.

Lemma ValidatePriority_names_witness :
  @taskdata.ValidatePriority strings.asciiUnicode "High" = None
  ∧ @taskdata.ValidatePriority strings.asciiUnicode "H"
    = Some (taskdata.ErrInvalidPriority "h")
  ∧ ∀ task, @cmd.matchesPriority strings.asciiUnicode task "H"
            = String.eqb (taskdata.Priority task) "high".
Proof.
  pose proof (@ValidatePriority_names strings.asciiUnicode asciiUnicode_laws "High")
    as (Hvalid & Hletters & _).
  split; [apply Hvalid; right; right; reflexivity|].
  split; [reflexivity|].
  intros task. apply (Hletters "H"%string). right. right. left. reflexivity.
Defined.

Lemma findTaskByIDOrName_search_witness :
  let task := {| taskdata.ID := 1; taskdata.Description := "Call 7 people";
                 taskdata.DueDate := ""; taskdata.Priority := "normal";
                 taskdata.Completed := false |} in
  let store := {| taskdata.Tasks := [task]; taskdata.NextID := 2 |} in
  @cmd.findTaskByIDOrName strings.asciiUnicode store "7" = Some task
  ∧ @cmd.deleteByIDOrName strings.asciiUnicode store "7" true true "" = (false, store)
  ∧ @cmd.findTaskByIDOrName strings.asciiUnicode store "" = Some task.
Proof.
  intros task store.
  pose proof (@findTaskByIDOrName_search strings.asciiUnicode asciiUnicode_laws store "7")
    as (_ & _ & Hfallback & _).
  assert (Forall (λ t, taskdata.ID t ≠ 7%Z) (taskdata.Tasks store)) as Hall
    by (repeat constructor; discriminate).
  destruct (Hfallback 7%Z eq_refl Hall) as [Hfind Hdelete].
  split; [rewrite Hfind; reflexivity|]. split; [apply Hdelete|].
  exact (proj2 (proj2 (proj2 (proj2
    (@findTaskByIDOrName_search strings.asciiUnicode asciiUnicode_laws store ""))))).
Defined.

(** ** What every run of the program keeps *)
Section ValidTasks.
Import strings taskdata cmd program.
Local Open Scope Z_scope.

Lemma deleteTaskByID_cases store id :
  deleteTaskByID store id = (false, store)
  ∨ ∃ pre task post, Tasks store = pre ++ task :: post
      ∧ deleteTaskByID store id
        = (true, {| Tasks := pre ++ post; NextID := NextID store |}).
Proof.
  destruct (first_with_ID id (Tasks store)) as [Hall|(pre & task & post & Hstore & Hid & Hpre)].
  - left. apply deleteTaskByIDFrom_missing. exact Hall.
  - right. exists pre, task, post. split; [exact Hstore|].
    eapply deleteTaskByID_found; eassumption.
Qed.

Lemma updateTaskCompletion_cases store id c :
  updateTaskCompletion store id c = (Some (ErrTaskNotFound id), store)
  ∨ ∃ pre task post, Tasks store = pre ++ task :: post
      ∧ updateTaskCompletion store id c
        = (None, {| Tasks := pre ++ withCompleted c task :: post; NextID := NextID store |}).
Proof.
  destruct (first_with_ID id (Tasks store)) as [Hall|(pre & task & post & Hstore & Hid & Hpre)].
  - left. apply updateTaskCompletionFrom_missing. exact Hall.
  - right. exists pre, task, post. split; [exact Hstore|].
    pose proof (updateTaskCompletionFrom_found store id c pre task post Hstore Hid [] pre
                  eq_refl Hpre) as Hfound.
    simpl in Hfound. rewrite <- Hstore in Hfound at 1. exact Hfound.
Qed.

Lemma updateTaskField_cases assign store id :
  updateTaskFieldFrom assign store id 0 (Tasks store) = (Some TaskNotFound, store)
  ∨ ∃ pre task post, Tasks store = pre ++ task :: post
      ∧ updateTaskFieldFrom assign store id 0 (Tasks store)
        = (None, {| Tasks := pre ++ assign task :: post; NextID := NextID store |}).
Proof.
  destruct (first_with_ID id (Tasks store)) as [Hall|(pre & task & post & Hstore & Hid & Hpre)].
  - left. apply updateTaskFieldFrom_missing. exact Hall.
  - right. exists pre, task, post. split; [exact Hstore|].
    eapply updateTaskField_found; eassumption.
Qed.

(** What a deletion and an assignment keep of a property of the tasks. *)
Lemma deleteTaskByID_kept (P : Task → Prop) store id :
  Forall P (Tasks store) → Forall P (Tasks (snd (deleteTaskByID store id))).
Proof.
  intros Hall.
  destruct (deleteTaskByID_cases store id) as [->|(pre & task & post & Hstore & ->)];
    [exact Hall|].
  simpl. rewrite Hstore in Hall. apply Forall_app in Hall as [Hpre Hpost].
  apply Forall_cons in Hpost as [_ Hpost]. apply Forall_app. split; assumption.
Qed.

Lemma updateTaskCompletion_kept (P : Task → Prop) store id c :
  (∀ t, P t → P (withCompleted c t)) →
  Forall P (Tasks store) → Forall P (Tasks (snd (updateTaskCompletion store id c))).
Proof.
  intros Hkeep Hall.
  destruct (updateTaskCompletion_cases store id c)
    as [->|(pre & task & post & Hstore & ->)]; [exact Hall|].
  simpl. rewrite Hstore in Hall. apply Forall_app in Hall as [Hpre Hpost].
  apply Forall_cons in Hpost as [Htask Hpost]. apply Forall_app. split; [assumption|].
  apply Forall_cons. split; [apply Hkeep; assumption|assumption].
Qed.

Lemma updateTaskField_kept (P : Task → Prop) assign store id :
  (∀ t, P t → P (assign t)) →
  Forall P (Tasks store) →
  Forall P (Tasks (snd (updateTaskFieldFrom assign store id 0 (Tasks store)))).
Proof.
  intros Hkeep Hall.
  destruct (updateTaskField_cases assign store id)
    as [->|(pre & task & post & Hstore & ->)]; [exact Hall|].
  simpl. rewrite Hstore in Hall. apply Forall_app in Hall as [Hpre Hpost].
  apply Forall_cons in Hpost as [Htask Hpost]. apply Forall_app. split; [assumption|].
  apply Forall_cons. split; [apply Hkeep; assumption|assumption].
Qed.

(** An invariant of the store that deleting a task, marking a task and
    the assignments of an edit keep is kept by every command but the
    addition. *)
Section Invariant.
Context `{!Unicode} `{!sort.Sorter} (Inv : TaskStore → Prop).
Hypothesis delete_keeps : ∀ store id, Inv store → Inv (snd (deleteTaskByID store id)).
Hypothesis mark_keeps : ∀ store id c, Inv store → Inv (snd (updateTaskCompletion store id c)).
Hypothesis due_keeps : ∀ store id newDue,
  ValidateDate newDue = None → newDue ≠ EmptyString →
  Inv store → Inv (snd (updateTaskDueDate store id newDue)).
Hypothesis priority_keeps : ∀ store id newPriority,
  ValidatePriority newPriority = None →
  Inv store → Inv (snd (updateTaskPriority store id (ToLower newPriority))).
Hypothesis description_keeps : ∀ store id newDesc,
  Inv store → Inv (snd (updateTaskDescription store id newDesc)).

Lemma deleteTasks_keeps tasks : ∀ deleted store,
  Inv store →
  Inv (snd (fold_left
    (λ '(deleted, store) task,
       match deleteTaskByID store (ID task) with
       | (true, store) => (GoInt.incr deleted, store)
       | (false, store) => (deleted, store)
       end)
    tasks (deleted, store))).
Proof.
  induction tasks as [|task tasks IH]; intros deleted store Hinv; [exact Hinv|].
  cbn [fold_left].
  pose proof (delete_keeps store (ID task) Hinv) as Hkept.
  destruct (deleteTaskByID store (ID task)) as [[] store']; apply IH; exact Hkept.
Qed.

Lemma markAllTasks_keeps c tasks : ∀ count store,
  Inv store →
  Inv (snd (fold_left
    (λ '(count, store) task,
       match updateTaskCompletion store (ID task) c with
       | (None, store) => (GoInt.incr count, store)
       | (Some _, store) => (count, store)
       end)
    tasks (count, store))).
Proof.
  induction tasks as [|task tasks IH]; intros count store Hinv; [exact Hinv|].
  cbn [fold_left].
  pose proof (mark_keeps store (ID task) c Hinv) as Hkept.
  destruct (updateTaskCompletion store (ID task) c) as [[] store']; apply IH; assumption.
Qed.

Lemma markSelectedTasks_keeps store tasks input undone :
  Inv store → Inv (snd (markSelectedTasks store tasks input undone)).
Proof.
  unfold markSelectedTasks.
  match goal with |- _ → Inv (snd (fold_left ?f _ _)) => set (step := f) end.
  generalize (Split input ",") as selections. generalize 0 as count.
  intros count selections. revert count store.
  induction selections as [|sel selections IH]; intros count store Hinv; [exact Hinv|].
  cbn [fold_left]. unfold step at 2. cbv beta iota.
  destruct (strconv.Atoi (TrimSpace sel)) as [idx|]; [|apply IH; exact Hinv].
  destruct ((0 <? idx) && (idx <=? Z.of_nat (length tasks))); [|apply IH; exact Hinv].
  destruct (tasks !! Z.to_nat (idx - 1)) as [task|]; [|apply IH; exact Hinv].
  pose proof (mark_keeps store (ID task) (negb undone) Hinv) as Hkept.
  destruct (updateTaskCompletion store (ID task) (negb undone)) as [[] store'];
    apply IH; exact Hkept.
Qed.

Lemma deleteByIDOrNameSmart_cases store identifier force confirmed input :
  deleteByIDOrNameSmart store identifier force confirmed input = (false, store)
  ∨ ∃ id, deleteByIDOrNameSmart store identifier force confirmed input
          = deleteTaskByID store id.
Proof.
  unfold deleteByIDOrNameSmart, deleteByIDOrName.
  destruct (strconv.Atoi identifier) as [id|].
  - destruct (findTaskByID (Tasks store) id); [|left; reflexivity].
    destruct (negb force && negb confirmed); [left; reflexivity|right; eauto].
  - destruct (findTasksByNameFuzzy (Tasks store) identifier) as [|task [|task' matches]].
    + left. reflexivity.
    + destruct (negb force && negb confirmed); [left; reflexivity|right; eauto].
    + destruct (strconv.Atoi (TrimSpace input)) as [choice|]; [|left; reflexivity].
      destruct ((choice <? 1) || _); [left; reflexivity|].
      destruct (_ !! _); [right; eauto|left; reflexivity].
Qed.

Lemma editTaskProperties_keeps store identifier newDue newPriority newDesc :
  Inv store → Inv (snd (editTaskProperties store identifier newDue newPriority newDesc)).
Proof.
  intros Hinv. unfold editTaskProperties.
  destruct (findTaskByIDOrName store identifier) as [found|]; [|exact Hinv].
  assert (∃ store1 updated1,
            (if negb (isEmpty newDue)
             then match ValidateDate newDue with
                  | Some err => inl err
                  | None => inr (snd (updateTaskDueDate store (ID found) newDue), true)
                  end
             else inr (store, false))
            = inr (store1, updated1) ∧ Inv store1
          ∨ ∃ err, (if negb (isEmpty newDue)
                    then match ValidateDate newDue with
                         | Some err => inl err
                         | None => inr (snd (updateTaskDueDate store (ID found) newDue), true)
                         end
                    else inr (store, false))
                   = @inl error (TaskStore * bool) err) as Hdue.
  { destruct (isEmpty newDue) eqn:Hempty; cbn [negb].
    - exists store, false. left. split; [reflexivity|exact Hinv].
    - destruct (ValidateDate newDue) as [err|] eqn:Hdate.
      + exists store, false. right. exists err. reflexivity.
      + eexists _, _. left. split; [reflexivity|].
        apply due_keeps; [exact Hdate| |exact Hinv].
        intros ->. discriminate. }
  destruct Hdue as (store1 & updated1 & [[-> Hinv1]|[err ->]]); [|exact Hinv].
  assert (∃ store2 updated2,
            (if negb (isEmpty newPriority)
             then match ValidatePriority newPriority with
                  | Some err => inl err
                  | None =>
                      inr (snd (updateTaskPriority store1 (ID found) (ToLower newPriority)),
                           true)
                  end
             else inr (store1, updated1))
            = inr (store2, updated2) ∧ Inv store2
          ∨ ∃ err, (if negb (isEmpty newPriority)
                    then match ValidatePriority newPriority with
                         | Some err => inl err
                         | None =>
                             inr (snd (updateTaskPriority store1 (ID found)
                                         (ToLower newPriority)), true)
                         end
                    else inr (store1, updated1))
                   = @inl error (TaskStore * bool) err) as Hprio.
  { destruct (isEmpty newPriority) eqn:Hempty; cbn [negb].
    - exists store1, updated1. left. split; [reflexivity|exact Hinv1].
    - destruct (ValidatePriority newPriority) as [err|] eqn:Hvalid.
      + exists store1, false. right. exists err. reflexivity.
      + eexists _, _. left. split; [reflexivity|].
        apply priority_keeps; [exact Hvalid|exact Hinv1]. }
  destruct Hprio as (store2 & updated2 & [[-> Hinv2]|[err ->]]); [|exact Hinv1].
  destruct (negb (isEmpty newDesc)).
  - cbn [snd]. apply description_keeps. exact Hinv2.
  - destruct updated2; exact Hinv2.
Qed.

Lemma exec_keeps store c :
  program.descriptions c = 0%nat → Inv store → Inv (exec store c).
Proof.
  intros Hadd Hinv.
  destruct c as [args dueDate priority|identifier undone force confirmed
                |identifier newDue newPriority newDesc|undone force input
                |identifier force confirmed input|]; cbn [exec].
  - destruct args; [exact Hinv|discriminate].
  - unfold markTask.
    destruct (findTaskByIDOrName store identifier) as [task|]; [|exact Hinv].
    destruct (negb force && negb confirmed); [exact Hinv|].
    pose proof (mark_keeps store (ID task) (negb undone) Hinv) as Hkept.
    destruct (updateTaskCompletion store (ID task) (negb undone)) as [[] store'];
      [exact Hinv|exact Hkept].
  - pose proof (editTaskProperties_keeps store identifier newDue newPriority newDesc Hinv)
      as Hedited.
    destruct (editTaskProperties _ _ _ _ _) as [[] store']; assumption.
  - unfold performBatchOperations.
    destruct (length (getPendingTasks store) =? 0)%nat; [exact Hinv|].
    destruct (negb force); [destruct (String.eqb (TrimSpace input) "all")|]; cbn [default].
    + apply markAllTasks_keeps. exact Hinv.
    + apply markSelectedTasks_keeps. exact Hinv.
    + apply markAllTasks_keeps. exact Hinv.
  - destruct (deleteByIDOrNameSmart_cases store identifier force confirmed input)
      as [->|[id ->]]; [exact Hinv|].
    pose proof (delete_keeps store id Hinv) as Hkept.
    destruct (deleteTaskByID store id) as [[] store']; [exact Hkept|exact Hinv].
  - pose proof (deleteTasks_keeps (getCompletedTasks (Tasks store)) 0 store Hinv) as Hkept.
    unfold deleteTasks. destruct (fold_left _ _ _) as [deleted store'].
    destruct (0 <? deleted); [exact Hkept|exact Hinv].
Qed.
End Invariant.

Section Runs.
Context `{u : Unicode} `{!UnicodeLaws u} `{!sort.Sorter}.

Lemma AddTask_valid store description dueDate priority :
  Forall validTask (Tasks store) →
  Forall validTask (Tasks (snd (AddTask store description dueDate priority))).
Proof.
  intros Hall. unfold AddTask.
  destruct (ValidateDate dueDate) eqn:Hdate; [exact Hall|].
  destruct (ValidatePriority priority) eqn:Hprio; [exact Hall|].
  simpl. apply Forall_app. split; [exact Hall|]. apply Forall_cons. split; [|constructor].
  split; simpl.
  - apply ValidateDate_None. exact Hdate.
  - apply ValidatePriority_None. exact Hprio.
Qed.

Lemma addRun_valid args dueDate priority : ∀ count store,
  Forall validTask (Tasks store) →
  Forall validTask (Tasks (snd (fold_left (addLoop dueDate priority) args (count, store)))).
Proof.
  induction args as [|taskDesc args IH]; intros count store Hall; [exact Hall|].
  cbn [fold_left]. unfold addLoop at 2.
  destruct (isEmpty taskDesc); [apply IH; exact Hall|].
  pose proof (AddTask_valid store taskDesc dueDate priority Hall) as Hadded.
  destruct (AddTask store taskDesc dueDate priority) as [[err|task] store'];
    apply IH; exact Hadded.
Qed.

Lemma exec_valid store c :
  Forall validTask (Tasks store) → Forall validTask (Tasks (exec store c)).
Proof.
  intros Hall.
  destruct (Nat.eq_dec (program.descriptions c) 0%nat) as [Hnone|Hsome].
  - apply (exec_keeps (λ store, Forall validTask (Tasks store))); try assumption.
    + intros s id. apply deleteTaskByID_kept.
    + intros s id c'. apply updateTaskCompletion_kept. intros t Ht. exact Ht.
    + intros s id newDue Hdate _. apply updateTaskField_kept.
      intros t [_ Hprio]. split; [|exact Hprio]. simpl.
      apply ValidateDate_None. exact Hdate.
    + intros s id newPriority Hvalid. apply updateTaskField_kept.
      intros t [Hdate _]. split; [exact Hdate|]. simpl.
      apply ValidatePriority_None. exact Hvalid.
    + intros s id newDesc. apply updateTaskField_kept. intros t Ht. exact Ht.
  - destruct c as [args dueDate priority| | | | |]; try (simpl in Hsome; congruence).
    cbn [exec].
    pose proof (addRun_valid args dueDate priority 0 store Hall) as Hadded.
    unfold addRun. destruct (fold_left _ _ _) as [successCount store'].
    destruct (0 <? successCount); [exact Hadded|exact Hall].
Qed.

(** X17. Every store the commands build from the empty one holds valid
    tasks only: the due date of each is empty or a date of the calendar,
    and its priority is one of low, normal and high.  The commands are
    adding, marking, editing, marking in a batch, deleting by identifier or
    name and deleting the completed tasks; an edit that is refused is not
    saved. *)
Theorem run_valid_tasks (commands : list command) (store : TaskStore) :
  Forall validTask (Tasks store) →
  Forall validTask (Tasks (run commands store))
  ∧ Forall validTask (Tasks (run commands emptyStore)).
Proof.
  assert (∀ store0, Forall validTask (Tasks store0)
                    → Forall validTask (Tasks (run commands store0))) as Hrun.
  { induction commands as [|c commands IH]; intros store0 Hall; [exact Hall|].
    cbn [run fold_left]. apply IH. apply exec_valid. exact Hall. }
  intros Hall. split; [apply Hrun; exact Hall|]. apply Hrun. constructor.
Qed.
End Runs.

End ValidTasks.

Lemma run_valid_tasks_witness :
  let commands :=
    [program.AddCmd ["pay rent"; "call mum"]%string "2024-01-15" "High";
     program.EditCmd "rent" "2024-02-30" "low" "";
     program.EditCmd "2" "" "Low" "call home";
     program.MarkCmd "1" false true false] in
  taskdata.Tasks (@program.run strings.asciiUnicode sort.insertionSorter commands
                    taskdata.emptyStore)
  = [ {| taskdata.ID := 1; taskdata.Description := "pay rent";
         taskdata.DueDate := "2024-01-15"; taskdata.Priority := "high";
         taskdata.Completed := true |};
      {| taskdata.ID := 2; taskdata.Description := "call home";
         taskdata.DueDate := "2024-01-15"; taskdata.Priority := "low";
         taskdata.Completed := false |} ]
  ∧ Forall program.validTask
      (taskdata.Tasks (@program.run strings.asciiUnicode sort.insertionSorter commands
                         taskdata.emptyStore)).
Proof.
  intros commands. split; [vm_compute; reflexivity|].
  exact (proj2 (@run_valid_tasks strings.asciiUnicode asciiUnicode_laws sort.insertionSorter
                  commands taskdata.emptyStore ltac:(constructor))).
Defined.

(** ** The health score and the counters *)
Section Counters.
Import strings taskdata cmd.
Local Open Scope Z_scope.

Lemma filter_length_all (p : Task → bool) (l : list Task) :
  length (List.filter p l) = length l → Forall (λ t, p t = true) l.
Proof.
  induction l as [|t l IH]; simpl; intros Hlen; [constructor|].
  pose proof (List.filter_length_le p l) as Hle.
  destruct (p t) eqn:Hp; simpl in Hlen; [|lia].
  constructor; [exact Hp|]. apply IH. lia.
Qed.

Lemma countWhere_none (p : Task → bool) (l : list Task) :
  Forall (λ t, p t = false) l → countWhere p l = 0.
Proof.
  intros Hl. unfold countWhere. induction Hl as [|t l Ht Hl IH]; simpl; [reflexivity|].
  rewrite Ht. exact IH.
Qed.

(** X18. The health score is 100 exactly when no task is pending: with a
    pending task the completion part is below 100, and nothing is added to
    it.  The collections are those whose length, times 100, an [int]
    holds. *)
Theorem health_score_perfect (store : TaskStore) (now : time.Time) :
  Z.of_nat (length (Tasks store)) * 100 <= GoInt.maxInt →
  (analyzeTaskPatterns store now = 100 ↔ getPendingTasks store = []).
Proof.
  intros Hlen. unfold analyzeTaskPatterns, countPatterns, getPendingTasks.
  assert (GoInt.maxInt = 9223372036854775807) as Emax by reflexivity.
  rewrite fold_countTask by (simpl; lia). simpl. rewrite !Z.add_0_l.
  revert Hlen. generalize (Tasks store) as tasks. intros tasks Hlen.
  assert (List.filter (λ task, negb (Completed task)) tasks = []
          ↔ Forall (λ t, Completed t = true) tasks) as Hpending.
  { clear. induction tasks as [|t tasks IH]; simpl; [split; [constructor|reflexivity]|].
    destruct (Completed t) eqn:Hc; simpl.
    - rewrite IH. split; [intros Hall; constructor; assumption|].
      intros Hall. inversion Hall. assumption.
    - split; [discriminate|]. intros Hall. inversion Hall. congruence. }
  rewrite Hpending.
  destruct (Z.eqb_spec (Z.of_nat (length tasks)) 0) as [E|E].
  - unfold calculateTaskHealthScore. rewrite E. simpl.
    destruct tasks; [split; [intros _; constructor|reflexivity]|discriminate].
  - pose proof (countWhere_bounds Completed tasks) as Hc.
    pose proof (countWhere_bounds (isPendingOverdue now) tasks) as Ho.
    pose proof (countWhere_bounds isPendingHigh tasks) as Hh.
    rewrite calculateTaskHealthScore_exact by lia.
    set (t := Z.of_nat (length tasks)) in *.
    assert (0 < t) as Ht by (unfold t; lia).
    split.
    + intros Hscore.
      assert (t <= countWhere Completed tasks) as Hall.
      { pose proof (Z.mul_div_le (countWhere Completed tasks * 100) t Ht) as Hdiv.
        set (q := countWhere Completed tasks * 100 / t) in *.
        assert (100 <= q) as Hq by lia.
        assert (t * 100 <= t * q) by (apply Z.mul_le_mono_nonneg_l; lia). lia. }
      apply (filter_length_all Completed). unfold countWhere, t in *. lia.
    + intros Hall.
      pose proof (filter_all Completed tasks Hall) as Hfilter.
      assert (countWhere Completed tasks = t) as -> by (unfold countWhere; rewrite Hfilter; reflexivity).
      rewrite (countWhere_none (isPendingOverdue now)), (countWhere_none isPendingHigh).
      * rewrite Z.mul_comm, Z.div_mul by lia. reflexivity.
      * eapply Forall_impl; [exact Hall|]. simpl. intros x Hx.
        unfold isPendingHigh. rewrite Hx. reflexivity.
      * eapply Forall_impl; [exact Hall|]. simpl. intros x Hx.
        unfold isPendingOverdue. rewrite Hx. reflexivity.
Qed.

Lemma health_score_perfect_witness :
  let task := {| ID := 1; Description := "pay rent"; DueDate := ""; Priority := "low";
                 Completed := false |} in
  let now := {| time.sec := 1705312800; time.nsec := 0; time.loc := time.UTC |} in
  analyzeTaskPatterns {| Tasks := [withCompleted true task]; NextID := 2 |} now = 100
  ∧ analyzeTaskPatterns {| Tasks := [withCompleted true task; task]; NextID := 2 |} now ≠ 100.
Proof.
  intros task now. split.
  - apply (health_score_perfect {| Tasks := [withCompleted true task]; NextID := 2 |} now).
    + vm_compute. discriminate.
    + reflexivity.
  - intros Hscore.
    apply (health_score_perfect {| Tasks := [withCompleted true task; task]; NextID := 2 |} now)
      in Hscore; [discriminate|].
    vm_compute. discriminate.
Defined.

Lemma fold_countInsight now tasks : ∀ acc,
  0 <= insights.completed acc → 0 <= insights.pending acc →
  0 <= insights.overdue acc → 0 <= insights.dueSoon acc → 0 <= insights.noDate acc →
  insights.completed acc + Z.of_nat (length tasks) <= GoInt.maxInt →
  insights.pending acc + Z.of_nat (length tasks) <= GoInt.maxInt →
  insights.overdue acc + Z.of_nat (length tasks) <= GoInt.maxInt →
  insights.dueSoon acc + Z.of_nat (length tasks) <= GoInt.maxInt →
  insights.noDate acc + Z.of_nat (length tasks) <= GoInt.maxInt →
  fold_left (countInsight now) tasks acc
  = {| insights.total := insights.total acc;
       insights.completed := insights.completed acc + countWhere Completed tasks;
       insights.pending := insights.pending acc + countWhere (λ t, negb (Completed t)) tasks;
       insights.overdue :=
         insights.overdue acc
         + countWhere (λ t, negb (Completed t) && isOverdue t now) tasks;
       insights.dueSoon :=
         insights.dueSoon acc
         + countWhere (λ t, negb (Completed t) && negb (isOverdue t now) && isDueSoon t now)
             tasks;
       insights.noDate :=
         insights.noDate acc
         + countWhere (λ t, negb (Completed t) && isEmpty (DueDate t)) tasks |}.
Proof.
  induction tasks as [|t tasks IH]; intros acc Hc Hp Ho Hs Hn Bc Bp Bo Bs Bn.
  - destruct acc. unfold countWhere. simpl. f_equal; lia.
  - simpl length in *. rewrite Nat2Z.inj_succ in *.
    cbn [fold_left]. rewrite !countWhere_cons.
    assert (∀ z, 0 <= z → z + Z.succ (Z.of_nat (length tasks)) <= GoInt.maxInt →
                 GoInt.incr z = z + 1) as Hincr.
    { intros z Hz Hb. apply incr_below_max. unfold GoInt.minInt. lia. }
    unfold countInsight at 2.
    destruct (Completed t); cbn [negb andb].
    + rewrite IH; cbn [insights.total insights.completed insights.pending insights.overdue
                         insights.dueSoon insights.noDate];
        rewrite ?Hincr by assumption; try lia.
      f_equal; lia.
    + rewrite IH; cbn [insights.total insights.completed insights.pending insights.overdue
                         insights.dueSoon insights.noDate];
        destruct (isOverdue t now), (isDueSoon t now), (isEmpty (DueDate t));
        cbn [negb andb]; rewrite ?Hincr by assumption; try lia; f_equal; lia.
Qed.

(** X19. The counters of the insights count what their names say, in a
    location with a fixed offset from UTC: completed and pending tasks add
    up to the total, and the overdue, due-soon and undated counters are the
    lengths of the lists the smart view shows.  Counting a task as due soon
    only when it is not overdue loses nothing, since no task is both.  The
    collections are those an [int] counts. *)
Theorem insights_counters (store : TaskStore) (now : time.Time) (offset : Z) :
  time.loc now = time.FixedZone offset →
  Z.of_nat (length (Tasks store)) <= GoInt.maxInt →
  let c := displayInsights store now in
  insights.total c = Z.of_nat (length (Tasks store))
  ∧ insights.completed c + insights.pending c = insights.total c
  ∧ insights.pending c = Z.of_nat (length (getPendingTasks store))
  ∧ insights.overdue c = Z.of_nat (length (getOverdueTasksWithTime (Tasks store) now))
  ∧ insights.dueSoon c = Z.of_nat (length (getDueSoonTasks (Tasks store) now))
  ∧ insights.noDate c = Z.of_nat (length (getNoDateTasks (Tasks store)))
  ∧ insights.overdue c + insights.dueSoon c <= insights.pending c.
Proof.
  intros Hloc Hlen c. subst c. unfold displayInsights.
  rewrite fold_countInsight by (simpl; lia).
  cbn [insights.total insights.completed insights.pending insights.overdue
         insights.dueSoon insights.noDate].
  rewrite !Z.add_0_l.
  assert (∀ p q : Task → bool, (∀ t, p t = q t) →
            countWhere p (Tasks store) = Z.of_nat (length (List.filter q (Tasks store))))
    as Hcount.
  { intros p q Hpq. unfold countWhere. rewrite (List.filter_ext p q Hpq). reflexivity. }
  assert (∀ t, negb (Completed t) && isOverdue t now = isOverdue t now) as Hoverdue.
  { intros t. unfold isOverdue. destruct (Completed t); reflexivity. }
  assert (∀ t, negb (Completed t) && negb (isOverdue t now) && isDueSoon t now
               = negb (Completed t) && isDueSoon t now) as Hsoon.
  { intros t. destruct (isOverdue t now) eqn:Ho; [|rewrite andb_true_r; reflexivity].
    rewrite (isOverdue_not_isDueSoon t now offset Hloc Ho), !andb_false_r. reflexivity. }
  split; [reflexivity|]. split.
  - unfold countWhere. generalize (Tasks store) as tasks.
    induction tasks as [|t tasks IH]; [reflexivity|]. simpl.
    destruct (Completed t); simpl length; lia.
  - split; [apply Hcount; reflexivity|].
    split; [apply Hcount; exact Hoverdue|].
    split; [apply Hcount; exact Hsoon|].
    split; [apply Hcount; reflexivity|].
    unfold countWhere. generalize (Tasks store) as tasks.
    induction tasks as [|t tasks IH]; [reflexivity|]. simpl.
    destruct (Completed t); cbn [negb andb]; [exact IH|].
    destruct (isOverdue t now); cbn [negb andb]; [simpl length; lia|].
    destruct (isDueSoon t now); simpl length; lia.
Qed.

Lemma insights_counters_witness :
  let mk := λ id due done,
          {| ID := id; Description := "task"; DueDate := due; Priority := "normal";
             Completed := done |} in
  let store := {| Tasks := [mk 1 "2024-01-14" false; mk 2 "2024-01-16" false;
                            mk 3 "" false; mk 4 "2024-01-01" true]%string;
                  NextID := 5 |} in
  let now := {| time.sec := 1705312800; time.nsec := 0; time.loc := time.UTC |} in
  let c := displayInsights store now in
  (insights.total c, insights.pending c, insights.overdue c, insights.dueSoon c,
   insights.noDate c) = (4, 3, 1, 1, 1).
Proof.
  intros mk store now c.
  destruct (insights_counters store now 0 eq_refl ltac:(vm_compute; discriminate))
    as (Ht & _ & Hp & Ho & Hs & Hn & _).
  fold c in Ht, Hp, Ho, Hs, Hn. rewrite Ht, Hp, Ho, Hs, Hn. vm_compute. reflexivity.
Defined.

End Counters.

(** ** Suggestions and searches of the delete view *)
Section Suggestions.
Import strings taskdata cmd.
Local Open Scope Z_scope.

Lemma suggestionLess_strict_weak_order : sort.StrictWeakOrder suggestionLess.
Proof.
  split; unfold suggestionLess.
  - intros x. apply Z.ltb_irrefl.
  - intros x y z. rewrite !Z.ltb_lt. lia.
  - intros x y z. rewrite !Z.ltb_ge. lia.
Qed.

Lemma Forall_append_if {A : Type} (Q : A → Prop) (c : bool) (x : A) (l : list A) :
  Forall Q l → (c = true → Q x) → Forall Q (if c then l ++ [x] else l).
Proof.
  intros Hl Hx. destruct c; [|exact Hl].
  apply Forall_app. split; [exact Hl|]. apply Forall_cons. split; [auto|constructor].
Qed.

Lemma length_append_if {A : Type} (c : bool) (x : A) (l : list A) (n : nat) :
  (length l <= n)%nat → (length (if c then l ++ [x] else l) <= S n)%nat.
Proof. intros Hl. destruct c; [rewrite length_app; simpl|]; lia. Qed.

Lemma map_lookup_Some {A B : Type} (f : A → B) (l : list A) (i : nat) (b : B) :
  map f l !! i = Some b → ∃ a, l !! i = Some a ∧ b = f a.
Proof.
  revert i. induction l as [|x l IH]; intros [|i]; simpl; try discriminate.
  - intros [= <-]. eauto.
  - apply IH.
Qed.

Lemma fold_filter_snoc {A B : Type} (p : A → bool) (f : A → B) (l : list A) : ∀ acc,
  fold_left (λ acc x, if p x then acc ++ [f x] else acc) l acc
  = acc ++ map f (List.filter p l).
Proof.
  induction l as [|x l IH]; intros acc; simpl; [rewrite app_nil_r; reflexivity|].
  rewrite IH. destruct (p x); [|reflexivity].
  rewrite <- app_assoc. reflexivity.
Qed.

Lemma topMatches_take candidates : ∀ matches,
  (length matches < 5)%nat →
  topMatches candidates matches
  = matches ++ take (5 - length matches) (map fst candidates).
Proof.
  induction candidates as [|candidate candidates IH]; intros matches Hlen.
  - cbn [topMatches map]. rewrite take_nil, app_nil_r. reflexivity.
  - cbn [topMatches map]. rewrite length_app. cbn [length].
    destruct (Nat.leb_spec 5 (length matches + 1)) as [Hfull|Hroom].
    + replace (5 - length matches)%nat with 1%nat by lia. reflexivity.
    + rewrite IH by (rewrite length_app; cbn [length]; lia).
      rewrite length_app. cbn [length]. rewrite <- app_assoc.
      replace (5 - length matches)%nat with (S (5 - (length matches + 1))) by lia.
      reflexivity.
Qed.

Section WithLibrary.
Context `{!Unicode} `{!sort.Sorter} `{!sort.SorterContract _}.

(** X20. The suggestions of the delete view come in the order of their
    scores, highest first; there are at most six, each with at least one
    task and a score from 60 to 95, and the low-impact one, made only when
    more than three tasks qualify, holds the first three of them.  The
    advanced suggestions are the same with each score raised by 10 and
    capped at 100, which keeps the order. *)
Theorem suggestions_by_score (store : TaskStore) (now : time.Time) :
  let suggestions := getUltraSmartSuggestions store now in
  let advanced := getAdvancedSmartSuggestions store now in
  (∀ i j a b, (i < j)%nat → suggestions !! i = Some a → suggestions !! j = Some b →
     SmartSuggestion.Score b <= SmartSuggestion.Score a)
  ∧ (length suggestions <= 6)%nat
  ∧ (∀ a, In a suggestions →
       SmartSuggestion.Tasks a ≠ []
       ∧ 60 <= SmartSuggestion.Score a <= 95
       ∧ (SmartSuggestion.Category a = "Low-Impact Tasks"%string →
          SmartSuggestion.Tasks a = take 3 (getLowImpactTasks (Tasks store))
          ∧ length (SmartSuggestion.Tasks a) = 3%nat))
  ∧ length advanced = length suggestions
  ∧ (∀ i a', advanced !! i = Some a' →
       ∃ a, suggestions !! i = Some a
            ∧ SmartSuggestion.Score a' = Z.min (SmartSuggestion.Score a + 10) 100
            ∧ SmartSuggestion.Tasks a' = SmartSuggestion.Tasks a
            ∧ SmartSuggestion.Category a' = SmartSuggestion.Category a)
  ∧ (∀ i j a b, (i < j)%nat → advanced !! i = Some a → advanced !! j = Some b →
       SmartSuggestion.Score b <= SmartSuggestion.Score a <= 100).
Proof.
  intros suggestions advanced.
  set (Q := λ a : SmartSuggestion.t,
         (0 < length (SmartSuggestion.Tasks a))%nat
         ∧ 60 <= SmartSuggestion.Score a <= 95
         ∧ (SmartSuggestion.Category a = "Low-Impact Tasks"%string →
            SmartSuggestion.Tasks a = take 3 (getLowImpactTasks (Tasks store))
            ∧ length (SmartSuggestion.Tasks a) = 3%nat)).
  assert (∃ built, suggestions = sort.Slice suggestionLess built
                   ∧ Forall Q built ∧ (length built <= 6)%nat)
    as (built & Hsorted & Hbuilt & Hlength).
  { subst suggestions. unfold getUltraSmartSuggestions. cbv zeta.
    eexists. split; [reflexivity|]. split.
    - repeat (apply Forall_append_if; [|intros Hc]); [constructor|..];
        (split; [|split; [cbn [SmartSuggestion.Score]; lia|]]);
        cbn [SmartSuggestion.Tasks SmartSuggestion.Category];
        try (apply Nat.ltb_lt in Hc; rewrite ?length_take; lia);
        try (intros Hcat; discriminate Hcat).
      intros _. split; [reflexivity|].
      apply Nat.ltb_lt in Hc. rewrite length_take. lia.
    - repeat apply length_append_if. simpl. lia. }
  assert (Permutation suggestions built) as Hperm
    by (rewrite Hsorted; apply sort.Slice_permutation).
  assert (Forall Q suggestions) as Hall.
  { apply Forall_forall. intros a Ha. rewrite Forall_forall in Hbuilt. apply Hbuilt.
    apply list_elem_of_In. apply (Permutation_in _ Hperm). apply list_elem_of_In. exact Ha. }
  assert (∀ i j a b, (i < j)%nat → suggestions !! i = Some a → suggestions !! j = Some b →
            SmartSuggestion.Score b <= SmartSuggestion.Score a) as Horder.
  { intros i j a b Hij Ha Hb.
    pose proof (sort.Slice_ordered _ suggestionLess built suggestionLess_strict_weak_order)
      as Hordered.
    rewrite <- Hsorted in Hordered.
    pose proof (StronglySorted_lookup _ _ Hordered i j a b Hij Ha Hb) as Hab.
    simpl in Hab. unfold suggestionLess in Hab. apply Z.ltb_ge in Hab. exact Hab. }
  assert (∀ i a', advanced !! i = Some a' →
            ∃ a, suggestions !! i = Some a
                 ∧ SmartSuggestion.Score a' = Z.min (SmartSuggestion.Score a + 10) 100
                 ∧ SmartSuggestion.Tasks a' = SmartSuggestion.Tasks a
                 ∧ SmartSuggestion.Category a' = SmartSuggestion.Category a) as Hboost.
  { intros i a' Ha'. subst advanced. unfold getAdvancedSmartSuggestions in Ha'.
    cbv zeta in Ha'. fold suggestions in Ha'.
    apply map_lookup_Some in Ha' as (a & Ha & ->). exists a. split; [exact Ha|].
    cbn [SmartSuggestion.Score SmartSuggestion.Tasks SmartSuggestion.Category].
    split; [|split; reflexivity].
    rewrite Forall_forall in Hall.
    destruct (Hall a (list_elem_of_lookup_2 _ _ _ Ha)) as (_ & Hscore & _).
    assert (GoInt.maxInt = 9223372036854775807) as Emax by reflexivity.
    assert (GoInt.minInt = -9223372036854775808) as Emin by reflexivity.
    unfold GoInt.add. rewrite wrap_inRange by (unfold GoInt.inRange; rewrite Emin, Emax; lia).
    unfold min. destruct (Z.ltb_spec (SmartSuggestion.Score a + 10) 100); lia. }
  split; [exact Horder|]. split.
  { rewrite (Permutation_length Hperm). exact Hlength. }
  split.
  { intros a Ha. rewrite Forall_forall in Hall.
    destruct (Hall a (proj2 (list_elem_of_In _ _) Ha)) as (Htasks & Hscore & Hlow).
    split; [|split; assumption].
    intros Hnil. rewrite Hnil in Htasks. simpl in Htasks. lia. }
  split.
  { subst advanced. unfold getAdvancedSmartSuggestions. cbv zeta.
    rewrite length_map. reflexivity. }
  split; [exact Hboost|].
  intros i j a' b' Hij Ha' Hb'.
  destruct (Hboost i a' Ha') as (a & Ha & -> & _).
  destruct (Hboost j b' Hb') as (b & Hb & -> & _).
  pose proof (Horder i j a b Hij Ha Hb). lia.
Qed.

(** X21. The fuzzy search of the delete view returns the tasks of the
    first five of its candidates, the candidates being the tasks whose
    similarity to the name, in lower case, is above 0.3, as [sort.Slice]
    arranges them: at most five tasks, each a task of the list with a
    score above 0.3, and a rearrangement of all such tasks when there are
    at most five. *)
#[warnings="-inexact-float"]
Theorem fuzzy_search_top_five (tasks : list Task) (name : string) :
  let score := λ task, calculateSimilarityScore (Description task) (ToLower name) in
  let above := λ task, PrimFloat.ltb 0.3%float (score task) in
  let found := findTasksByNameFuzzy tasks name in
  (length found <= 5)%nat
  ∧ (∀ task, In task found → In task tasks ∧ above task = true)
  ∧ ((length (List.filter above tasks) <= 5)%nat →
     Permutation found (List.filter above tasks))
  ∧ (found = [] ↔ List.filter above tasks = []).
Proof.
  intros score above found.
  pose proof (fold_filter_snoc above (λ task, (task, score task)) tasks []) as Hfold.
  set (candidates := sort.Slice matchLess
                       (map (λ task, (task, score task)) (List.filter above tasks))).
  assert (found = take 5 (map fst candidates)) as Hfound.
  { subst found. unfold findTasksByNameFuzzy. cbv zeta.
    change (fold_left _ tasks [])
      with (fold_left (λ acc task, if above task then acc ++ [(task, score task)] else acc)
              tasks []).
    rewrite Hfold. simpl app.
    rewrite topMatches_take by (simpl; lia). reflexivity. }
  assert (Permutation (map fst candidates) (List.filter above tasks)) as Hperm.
  { unfold candidates. etransitivity.
    - apply Permutation_map. apply sort.Slice_permutation.
    - rewrite map_map. simpl. rewrite map_id. reflexivity. }
  split; [rewrite Hfound, length_take; lia|]. split; [|split].
  - intros task Hin. rewrite Hfound in Hin.
    assert (In task (map fst candidates)) as Hin'.
    { rewrite <- (take_drop 5 (map fst candidates)). apply in_or_app. left. exact Hin. }
    apply (Permutation_in _ Hperm), filter_In in Hin'. exact Hin'.
  - intros Hfew. rewrite Hfound, take_ge; [exact Hperm|].
    rewrite (Permutation_length Hperm). exact Hfew.
  - rewrite Hfound. split.
    + intros Hnil. destruct (map fst candidates) as [|c cs] eqn:Hc; [|discriminate].
      apply Permutation_nil. exact Hperm.
    + intros Hnil. rewrite Hnil in Hperm. apply Permutation_sym, Permutation_nil in Hperm.
      rewrite Hperm. reflexivity.
Qed.

(** X22. Deleting by identifier or name, with or without the fuzzy
    search, deletes at most one task: either nothing is saved and the store
    is unchanged, or one task is cut out of the store and the rest keeps
    its order and the counter its value.  An identifier that is a number is
    never searched for as a name, and without the force flag a deletion by
    number that is not confirmed does nothing. *)
Theorem delete_at_most_one (store : TaskStore) (identifier : string)
    (force confirmed : bool) (input : string) :
  let outcome := λ r : bool * TaskStore,
    r = (false, store)
    ∨ ∃ pre task post, Tasks store = pre ++ task :: post
        ∧ r = (true, {| Tasks := pre ++ post; NextID := NextID store |}) in
  outcome (deleteByIDOrName store identifier force confirmed input)
  ∧ outcome (deleteByIDOrNameSmart store identifier force confirmed input)
  ∧ (∀ id, strconv.Atoi identifier = Some id →
       deleteByIDOrNameSmart store identifier force confirmed input
       = deleteByIDOrName store identifier force confirmed input
       ∧ deleteByIDOrName store identifier force confirmed input
         = if negb force && negb confirmed then (false, store) else deleteTaskByID store id).
Proof.
  intros outcome.
  assert (∀ id, outcome (deleteTaskByID store id)) as Hdelete.
  { intros id. destruct (deleteTaskByID_cases store id) as [->|(pre & task & post & Hs & ->)];
      [left; reflexivity|right; eauto]. }
  assert (outcome (false, store)) as Hnone by (left; reflexivity).
  assert (∀ matches : list Task,
            outcome match matches with
                    | [] => (false, store)
                    | [task] =>
                        if negb force && negb confirmed then (false, store)
                        else deleteTaskByID store (ID task)
                    | _ =>
                        match strconv.Atoi (TrimSpace input) with
                        | None => (false, store)
                        | Some choice =>
                            if (choice <? 1) || (Z.of_nat (length matches) <? choice)
                            then (false, store)
                            else match matches !! Z.to_nat (choice - 1) with
                                 | Some selectedTask => deleteTaskByID store (ID selectedTask)
                                 | None => (false, store)
                                 end
                        end
                    end) as Hmatches.
  { intros [|task [|task' matches]]; [exact Hnone| |].
    - destruct (negb force && negb confirmed); [exact Hnone|apply Hdelete].
    - destruct (strconv.Atoi (TrimSpace input)) as [choice|]; [|exact Hnone].
      destruct ((choice <? 1) || _); [exact Hnone|].
      destruct (_ !! _); [apply Hdelete|exact Hnone]. }
  assert (∀ id, strconv.Atoi identifier = Some id →
            deleteByIDOrName store identifier force confirmed input
            = if negb force && negb confirmed then (false, store) else deleteTaskByID store id)
    as Hnumber.
  { intros id Hatoi. unfold deleteByIDOrName, findTaskByID. rewrite Hatoi.
    destruct (List.find (λ task, ID task =? id) (Tasks store)) as [task|] eqn:Hfind;
      [reflexivity|].
    destruct (negb force && negb confirmed); [reflexivity|].
    symmetry. apply deleteTaskByIDFrom_missing.
    apply Forall_forall. intros t Ht.
    pose proof (find_none _ _ Hfind t (proj1 (list_elem_of_In _ _) Ht)) as Hne.
    apply Z.eqb_neq. exact Hne. }
  assert (outcome (deleteByIDOrName store identifier force confirmed input)) as Hplain.
  { destruct (strconv.Atoi identifier) as [id|] eqn:Hatoi.
    - rewrite (Hnumber id eq_refl).
      destruct (negb force && negb confirmed); [exact Hnone|apply Hdelete].
    - unfold deleteByIDOrName. rewrite Hatoi. apply Hmatches. }
  split; [exact Hplain|]. split.
  - unfold deleteByIDOrNameSmart.
    destruct (strconv.Atoi identifier) as [id|]; [exact Hplain|apply Hmatches].
  - intros id Hatoi. split; [|apply Hnumber; exact Hatoi].
    unfold deleteByIDOrNameSmart. rewrite Hatoi. reflexivity.
Qed.
End WithLibrary.

(** X23. The selections of the three views that bear different names
    but make the same test are the same lists: the quick wins, the stale
    tasks and the low-impact tasks are the pending low-priority tasks
    without due date; the old completed tasks of every view are all the
    completed tasks, whatever their age; and the two groups of the batch
    deletion are the completed tasks and the low-impact tasks, no task
    being in both and no other group being made. *)
Theorem selections_agree (store : TaskStore) (now : time.Time) :
  (getQuickWinTasks store = getQuickWins (Tasks store)
   ∧ getStaleTasksForReview store now = getQuickWins (Tasks store)
   ∧ getLowImpactTasks (Tasks store) = getQuickWins (Tasks store))
  ∧ (getOldCompletedTasks (Tasks store) = getCompletedTasks (Tasks store)
     ∧ getOldCompletedTasksSmart (Tasks store) now = getCompletedTasks (Tasks store)
     ∧ getOldCompletedTasksForCleanup store = getCompletedTasks (Tasks store))
  ∧ (getOverdueTasksForRecovery store now = getOverdueTasksWithTime (Tasks store) now
     ∧ getHighImpactTasks store now = getHighPriorityPendingTasks store)
  ∧ (let groups := groupTasksForBatch (Tasks store) in
     default [] (groups !! "Completed Tasks"%string) = getCompletedTasks (Tasks store)
     ∧ default [] (groups !! "Low Priority Tasks Without Dates"%string)
       = getLowImpactTasks (Tasks store)
     ∧ (∀ name, name ≠ "Completed Tasks"%string →
                name ≠ "Low Priority Tasks Without Dates"%string →
                groups !! name = None)
     ∧ (∀ task, In task (getCompletedTasks (Tasks store)) →
                ¬ In task (getLowImpactTasks (Tasks store)))).
Proof.
  split; [|split; [|split]].
  - split; [reflexivity|]. split; [|reflexivity].
    apply List.filter_ext. intros task.
    destruct (negb (Completed task)), (isEmpty (DueDate task)),
      (String.eqb (Priority task) "low"); reflexivity.
  - repeat split.
  - split; reflexivity.
  - intros groups. subst groups. unfold groupTasksForBatch.
    assert (∀ tasks (acc : gmap string (list Task)),
              let groups :=
                fold_left
                  (λ groups task,
                     if Completed task
                     then <["Completed Tasks"%string :=
                              default [] (groups !! "Completed Tasks"%string) ++ [task]]>
                            groups
                     else if String.eqb (Priority task) "low" && isEmpty (DueDate task)
                     then <["Low Priority Tasks Without Dates"%string :=
                              default [] (groups !! "Low Priority Tasks Without Dates"%string)
                              ++ [task]]> groups
                     else groups)
                  tasks acc in
              default [] (groups !! "Completed Tasks"%string)
              = default [] (acc !! "Completed Tasks"%string) ++ getCompletedTasks tasks
              ∧ default [] (groups !! "Low Priority Tasks Without Dates"%string)
                = default [] (acc !! "Low Priority Tasks Without Dates"%string)
                  ++ getLowImpactTasks tasks
              ∧ (∀ name, name ≠ "Completed Tasks"%string →
                         name ≠ "Low Priority Tasks Without Dates"%string →
                         groups !! name = acc !! name)) as Hfold.
    { induction tasks as [|task tasks IH]; intros acc groups; subst groups.
      - simpl. rewrite !app_nil_r. auto.
      - cbn [fold_left]. unfold getCompletedTasks, getLowImpactTasks. cbn [List.filter].
        destruct (Completed task) eqn:Hc; cbn [negb andb].
        + destruct (IH (<["Completed Tasks"%string :=
                          default [] (acc !! "Completed Tasks"%string) ++ [task]]> acc))
            as (Hdone & Hlow & Hother).
          rewrite Hdone, Hlow. rewrite lookup_insert_eq, lookup_insert_ne by discriminate.
          simpl default. rewrite <- app_assoc. split; [reflexivity|]. split; [reflexivity|].
          intros name Hn1 Hn2. rewrite (Hother name Hn1 Hn2).
          apply lookup_insert_ne. congruence.
        + destruct (String.eqb (Priority task) "low" && isEmpty (DueDate task)) eqn:Hlowtask.
          * destruct (IH (<["Low Priority Tasks Without Dates"%string :=
                            default [] (acc !! "Low Priority Tasks Without Dates"%string)
                            ++ [task]]> acc)) as (Hdone & Hlow & Hother).
            rewrite Hdone, Hlow. rewrite lookup_insert_eq, lookup_insert_ne by discriminate.
            simpl default. rewrite <- app_assoc. split; [reflexivity|]. split; [reflexivity|].
            intros name Hn1 Hn2. rewrite (Hother name Hn1 Hn2).
            apply lookup_insert_ne. congruence.
          * apply IH. }
    destruct (Hfold (Tasks store) ∅) as (Hdone & Hlow & Hother).
    rewrite lookup_empty in Hdone, Hlow. simpl in Hdone, Hlow.
    split; [exact Hdone|]. split; [exact Hlow|]. split.
    + intros name Hn1 Hn2. rewrite (Hother name Hn1 Hn2). apply lookup_empty.
    + intros task Hdone' Hlow'.
      apply filter_In in Hdone' as [_ Hc]. apply filter_In in Hlow' as [_ Hl].
      rewrite Hc in Hl. discriminate.
Qed.

Lemma initial_distribution (name : string) :
  default 0 (({[ "high"%string := 0; "normal"%string := 0; "low"%string := 0 ]}
                : gmap string Z) !! name) = 0.
Proof.
  destruct (String.eqb_spec "high" name) as [<-|Hh]; [reflexivity|].
  rewrite lookup_insert_ne by assumption.
  destruct (String.eqb_spec "normal" name) as [<-|Hn]; [reflexivity|].
  rewrite lookup_insert_ne by assumption.
  destruct (String.eqb_spec "low" name) as [<-|Hl]; [reflexivity|].
  rewrite lookup_singleton_ne by assumption. reflexivity.
Qed.

(** X24. The priority counts of the views agree: for each priority the
    distribution of the mark view holds the number of pending tasks that
    bear it, which for high, normal and low is what the breakdown of the
    list view counts, and for high what the smart view counts.  When every
    task bears one of the three names, as the tasks the program stores do,
    the three counts add up to the number of pending tasks.  The
    collections are those an [int] counts. *)
Theorem priority_counts (store : TaskStore) :
  Z.of_nat (length (Tasks store)) <= GoInt.maxInt →
  let pendingWith := λ name,
    countWhere (λ t, negb (Completed t) && String.eqb (Priority t) name) (Tasks store) in
  (∀ name, default 0 (analyzePriorityDistribution store !! name) = pendingWith name)
  ∧ getPriorityBreakdown (Tasks store)
    = (pendingWith "high"%string, pendingWith "normal"%string, pendingWith "low"%string)
  ∧ getHighPriorityPendingCount (Tasks store) = pendingWith "high"%string
  ∧ (Forall program.validTask (Tasks store) →
     pendingWith "high"%string + pendingWith "normal"%string + pendingWith "low"%string
     = Z.of_nat (length (getPendingTasks store))).
Proof.
  intros Hlen pendingWith. subst pendingWith. cbv beta.
  assert (∀ z, 0 <= z → z + 1 <= GoInt.maxInt → GoInt.incr z = z + 1) as Hincr.
  { intros z Hz Hb. apply incr_below_max. unfold GoInt.minInt. lia. }
  split; [|split; [|split]].
  - intros name. unfold analyzePriorityDistribution.
    assert (∀ tasks (dist : gmap string Z),
              (∀ key, 0 <= default 0 (dist !! key)
                      ∧ default 0 (dist !! key) + Z.of_nat (length tasks) <= GoInt.maxInt) →
              default 0
                (fold_left
                   (λ dist task,
                      if Completed task then dist
                      else <[Priority task :=
                               GoInt.incr (default 0 (dist !! Priority task))]> dist)
                   tasks dist !! name)
              = default 0 (dist !! name)
                + countWhere (λ t, negb (Completed t) && String.eqb (Priority t) name) tasks)
      as Hfold.
    { induction tasks as [|task tasks IH]; intros dist Hdist.
      - unfold countWhere. simpl. lia.
      - cbn [fold_left]. rewrite countWhere_cons.
        destruct (Completed task); cbn [negb andb].
        + rewrite IH; [lia|]. intros key. specialize (Hdist key).
          cbn [length] in Hdist. lia.
        + pose proof (Hdist (Priority task)) as Hprio. cbn [length] in Hprio.
          rewrite IH.
          * destruct (String.eqb_spec (Priority task) name) as [Heq|Hne].
            -- rewrite Heq in Hprio |- *. rewrite lookup_insert_eq.
               match goal with
               | |- context [default 0 (Some ?x)] => change (default 0 (Some x)) with x
               end.
               rewrite Hincr by lia. lia.
            -- rewrite lookup_insert_ne by assumption. lia.
          * intros key. pose proof (Hdist key) as Hkey. cbn [length] in Hkey.
            destruct (String.eqb_spec (Priority task) key) as [Heq|Hne].
            -- rewrite Heq in Hprio |- *. rewrite lookup_insert_eq.
               match goal with
               | |- context [default 0 (Some ?x)] => change (default 0 (Some x)) with x
               end.
               rewrite Hincr by lia. lia.
            -- rewrite lookup_insert_ne by assumption. lia. }
    rewrite Hfold.
    + assert (default 0 (({[ "high"%string := 0; "normal"%string := 0; "low"%string := 0 ]}
                            : gmap string Z) !! name) = 0) as ->; [|lia].
      apply initial_distribution.
    + intros key.
      assert (default 0 (({[ "high"%string := 0; "normal"%string := 0; "low"%string := 0 ]}
                            : gmap string Z) !! key) = 0) as ->; [|lia].
      apply initial_distribution.
  - unfold getPriorityBreakdown.
    assert (∀ tasks high normal low,
              0 <= high → 0 <= normal → 0 <= low →
              high + Z.of_nat (length tasks) <= GoInt.maxInt →
              normal + Z.of_nat (length tasks) <= GoInt.maxInt →
              low + Z.of_nat (length tasks) <= GoInt.maxInt →
              fold_left
                (λ '(high, normal, low) task,
                   if Completed task then (high, normal, low)
                   else if String.eqb (Priority task) "high"
                   then (GoInt.incr high, normal, low)
                   else if String.eqb (Priority task) "normal"
                   then (high, GoInt.incr normal, low)
                   else if String.eqb (Priority task) "low"
                   then (high, normal, GoInt.incr low)
                   else (high, normal, low))
                tasks (high, normal, low)
              = (high + countWhere (λ t, negb (Completed t) && String.eqb (Priority t) "high")
                          tasks,
                 normal + countWhere (λ t, negb (Completed t)
                                           && String.eqb (Priority t) "normal") tasks,
                 low + countWhere (λ t, negb (Completed t) && String.eqb (Priority t) "low")
                         tasks)) as Hfold.
    { induction tasks as [|task tasks IH]; intros high normal low Hh Hn Hl Bh Bn Bl.
      - unfold countWhere. simpl. repeat (f_equal; try lia).
      - cbn [fold_left]. rewrite !countWhere_cons. cbn [length] in Bh, Bn, Bl.
        destruct (Completed task); cbn [negb andb].
        + rewrite IH by lia. repeat (f_equal; try lia).
        + destruct (String.eqb_spec (Priority task) "high") as [Heq|_].
          * rewrite Heq. cbn [String.eqb Ascii.eqb Bool.eqb andb].
            rewrite Hincr by lia.
            rewrite IH by lia. repeat (f_equal; try lia).
          * destruct (String.eqb_spec (Priority task) "normal") as [Heq|_].
            -- rewrite Heq. cbn [String.eqb Ascii.eqb Bool.eqb andb].
               rewrite Hincr by lia.
               rewrite IH by lia. repeat (f_equal; try lia).
            -- destruct (String.eqb_spec (Priority task) "low") as [Heq|_].
               ++ rewrite Hincr by lia.
                  rewrite IH by lia. repeat (f_equal; try lia).
               ++ rewrite IH by lia. repeat (f_equal; try lia). }
    rewrite Hfold by lia. reflexivity.
  - unfold getHighPriorityPendingCount.
    assert (∀ tasks count,
              0 <= count → count + Z.of_nat (length tasks) <= GoInt.maxInt →
              fold_left
                (λ count task,
                   if negb (Completed task) && String.eqb (Priority task) "high"
                   then GoInt.incr count else count)
                tasks count
              = count + countWhere (λ t, negb (Completed t) && String.eqb (Priority t) "high")
                          tasks) as Hfold.
    { induction tasks as [|task tasks IH]; intros count Hc Bc.
      - unfold countWhere. simpl. lia.
      - cbn [fold_left]. rewrite countWhere_cons. cbn [length] in Bc.
        destruct (negb (Completed task) && String.eqb (Priority task) "high").
        + rewrite Hincr by lia. rewrite IH by lia. lia.
        + rewrite IH by lia. lia. }
    rewrite Hfold by lia. reflexivity.
  - intros Hvalid. unfold getPendingTasks, countWhere.
    induction Hvalid as [|task tasks [_ Hprio] Hvalid IH]; [reflexivity|].
    simpl length in Hlen. cbn [List.filter].
    destruct (Completed task); cbn [negb andb]; [apply IH; lia|].
    specialize (IH ltac:(lia)).
    destruct Hprio as [-> | [-> | ->]]; cbn [String.eqb Ascii.eqb Bool.eqb andb];
      simpl length; lia.
Qed.

Lemma suggestions_by_score_witness :
  let mk := λ id description prio done,
          {| ID := id; Description := description; DueDate := ""; Priority := prio;
             Completed := done |} in
  let store := {| Tasks := [mk 1 "write the report" "normal" true; mk 2 "misc" "normal" false];
                  NextID := 3 |} in
  let now := {| time.sec := 1705312800; time.nsec := 0; time.loc := time.UTC |} in
  map SmartSuggestion.Score
    (@getUltraSmartSuggestions asciiUnicode sort.insertionSorter store now) = [90; 70]
  ∧ map SmartSuggestion.Score
      (@getAdvancedSmartSuggestions asciiUnicode sort.insertionSorter store now) = [100; 80]
  ∧ (length (@getUltraSmartSuggestions asciiUnicode sort.insertionSorter store now) <= 6)%nat.
Proof.
  intros mk store now. apply conj; [vm_compute; reflexivity|].
  apply conj; [vm_compute; reflexivity|].
  exact (proj1 (proj2 (@suggestions_by_score asciiUnicode sort.insertionSorter
                         insertionSorter_contract store now))).
Defined.

#[warnings="-inexact-float"]
Lemma fuzzy_search_top_five_witness :
  let mk := λ id description,
          {| ID := id; Description := description; DueDate := ""; Priority := "normal";
             Completed := false |} in
  let tasks := [mk 1 "buy milk"; mk 2 "Buy groceries"; mk 3 "call mum"]%string in
  map ID (@findTasksByNameFuzzy asciiUnicode sort.insertionSorter tasks "buy") = [1; 2]
  ∧ (length (@findTasksByNameFuzzy asciiUnicode sort.insertionSorter tasks "buy") <= 5)%nat.
Proof.
  intros mk tasks. apply conj; [vm_compute; reflexivity|].
  exact (proj1 (@fuzzy_search_top_five asciiUnicode sort.insertionSorter
                  insertionSorter_contract tasks "buy")).
Defined.

Lemma priority_counts_witness :
  let mk := λ id prio done,
          {| ID := id; Description := "task"; DueDate := ""; Priority := prio;
             Completed := done |} in
  let store := {| Tasks := [mk 1 "high" false; mk 2 "low" false; mk 3 "high" true;
                            mk 4 "high" false]%string;
                  NextID := 5 |} in
  getPriorityBreakdown (Tasks store) = (2, 0, 1)
  ∧ analyzePriorityDistribution store !! "high"%string = Some 2.
Proof.
  intros mk store.
  destruct (priority_counts store ltac:(vm_compute; discriminate)) as (_ & Hbreakdown & _).
  split; [rewrite Hbreakdown; vm_compute; reflexivity|vm_compute; reflexivity].
Defined.

End Suggestions.

(** ** Identifiers under the commands *)
Section CommandsFresh.
Import strings taskdata cmd session program.
Local Open Scope Z_scope.

Lemma boundedFresh_mono k k' store :
  k <= k' → boundedFresh k store → boundedFresh k' store.
Proof. intros Hk [Hfresh Hnext]. split; [exact Hfresh|lia]. Qed.

Lemma IDs_kept_boundedFresh k store store' :
  NextID store' = NextID store →
  map ID (Tasks store') = map ID (Tasks store) →
  boundedFresh k store → boundedFresh k store'.
Proof.
  intros Hnext Hids [Hfresh Hbound]. split.
  - eapply identifiersFresh_IDs; eassumption.
  - rewrite Hnext. exact Hbound.
Qed.

Lemma deleteTaskByID_boundedFresh k store id :
  boundedFresh k store → boundedFresh k (snd (deleteTaskByID store id)).
Proof.
  intros [[Hnodup Hlt] Hnext].
  destruct (deleteTaskByID_cases store id) as [->|(pre & task & post & Hstore & ->)];
    [split; [split|]; assumption|].
  rewrite Hstore in Hnodup, Hlt. split; [split|]; simpl; [| |exact Hnext].
  - rewrite map_app in *. simpl in Hnodup.
    apply NoDup_app in Hnodup as (Hpre & Hdisj & Hpost).
    apply NoDup_cons in Hpost as [_ Hpost].
    apply NoDup_app. split; [assumption|]. split; [|assumption].
    intros i Hi Hi'. apply (Hdisj i Hi). right. assumption.
  - apply Forall_app in Hlt as [Hpre Hpost].
    apply Forall_cons in Hpost as [_ Hpost].
    apply Forall_app. split; assumption.
Qed.

Lemma updateTaskCompletion_boundedFresh k store id c :
  boundedFresh k store → boundedFresh k (snd (updateTaskCompletion store id c)).
Proof.
  destruct (step_update_store store id c) as [Hnext Hids].
  apply IDs_kept_boundedFresh; assumption.
Qed.

Lemma updateTaskField_boundedFresh k assign store id :
  (∀ t, ID (assign t) = ID t) →
  boundedFresh k store →
  boundedFresh k (snd (updateTaskFieldFrom assign store id 0 (Tasks store))).
Proof.
  intros Hassign.
  destruct (updateTaskField_cases assign store id)
    as [->|(pre & task & post & Hstore & ->)]; [auto|].
  apply IDs_kept_boundedFresh; [reflexivity|].
  simpl. rewrite Hstore, !map_app. simpl. rewrite Hassign. reflexivity.
Qed.

Section WithLibrary.
Context `{!Unicode} `{!sort.Sorter}.

Lemma addRun_boundedFresh dueDate priority args : ∀ k count store,
  0 <= k → k + Z.of_nat (length args) < GoInt.maxInt →
  boundedFresh k store →
  boundedFresh (k + Z.of_nat (length args))
    (snd (fold_left (addLoop dueDate priority) args (count, store))).
Proof.
  induction args as [|taskDesc args IH]; intros k count store Hk Hmax Hfresh.
  - simpl. rewrite Z.add_0_r. exact Hfresh.
  - cbn [fold_left length] in *. unfold addLoop at 2.
    replace (k + Z.of_nat (S (length args))) with (k + 1 + Z.of_nat (length args)) in * by lia.
    destruct (isEmpty taskDesc).
    + apply IH; [lia|lia|]. apply (boundedFresh_mono k); [lia|exact Hfresh].
    + pose proof (step_boundedFresh k store (Add taskDesc dueDate priority) Hk ltac:(lia)
                    Hfresh) as Hadded.
      cbn [step] in Hadded.
      destruct (AddTask store taskDesc dueDate priority) as [[err|task] store'];
        apply IH; (lia || exact Hadded).
Qed.

Lemma exec_boundedFresh k store c :
  0 <= k → k + Z.of_nat (descriptions c) < GoInt.maxInt →
  boundedFresh k store →
  boundedFresh (k + Z.of_nat (descriptions c)) (exec store c).
Proof.
  intros Hk Hmax Hfresh.
  destruct (Nat.eq_dec (descriptions c) 0%nat) as [Hnone|Hsome].
  - rewrite Hnone, Z.add_0_r.
    apply (exec_keeps (boundedFresh k)); try assumption.
    + intros s id. apply deleteTaskByID_boundedFresh.
    + intros s id c'. apply updateTaskCompletion_boundedFresh.
    + intros s id newDue _ _. apply updateTaskField_boundedFresh. reflexivity.
    + intros s id newPriority _. apply updateTaskField_boundedFresh. reflexivity.
    + intros s id newDesc. apply updateTaskField_boundedFresh. reflexivity.
  - destruct c as [args dueDate priority| | | | |]; try (simpl in Hsome; congruence).
    cbn [exec descriptions] in *.
    pose proof (addRun_boundedFresh dueDate priority args k 0 store Hk Hmax Hfresh) as Hadded.
    unfold addRun. destruct (fold_left _ _ _) as [successCount store'].
    destruct (0 <? successCount); [exact Hadded|].
    apply (boundedFresh_mono k); [lia|exact Hfresh].
Qed.

Lemma run_commands_boundedFresh commands : ∀ k store,
  0 <= k →
  k + Z.of_nat (list_sum (map descriptions commands)) < GoInt.maxInt →
  boundedFresh k store →
  boundedFresh (k + Z.of_nat (list_sum (map descriptions commands)))
    (program.run commands store).
Proof.
  induction commands as [|c commands IH]; intros k store Hk Hmax Hfresh.
  - simpl. rewrite Z.add_0_r. exact Hfresh.
  - change (list_sum (map descriptions (c :: commands)))
      with (descriptions c + list_sum (map descriptions commands))%nat in *.
    cbn [program.run fold_left]. rewrite Nat2Z.inj_add in *.
    rewrite Z.add_assoc. apply IH; [lia|lia|].
    apply exec_boundedFresh; [lia|lia|exact Hfresh].
Qed.

(** X25. From the empty store, every sequence of commands keeps the
    identifiers of the store pairwise distinct and below the counter: the
    add command with several descriptions, marking, editing, marking in a
    batch, deleting by identifier or name and deleting the completed tasks.
    The sequences are those that fit the counter, an [int]: fewer
    descriptions to add than its largest value. *)
Theorem commands_identifiers_fresh (commands : list command) :
  Z.of_nat (list_sum (map descriptions commands)) < GoInt.maxInt →
  identifiersFresh (program.run commands emptyStore)
  ∧ 1 <= NextID (program.run commands emptyStore)
    <= 1 + Z.of_nat (list_sum (map descriptions commands)).
Proof.
  intros Hmax.
  apply (run_commands_boundedFresh commands 0 emptyStore); [lia|lia|].
  split; [split; simpl; constructor|simpl; lia].
Qed.

(** X26. Marking a task by its number and marking it undone again gives
    the store back: the first task that bears the number is completed, then
    set back to pending, and nothing else changes; marking it completed
    twice is the same as once.  Without the force flag a marking that is
    not confirmed does nothing. *)
Theorem mark_round_trip (store : TaskStore) (identifier : string) (id : Z)
    (pre post : list Task) (task : Task) (confirmed : bool) :
  strconv.Atoi identifier = Some id →
  Tasks store = pre ++ task :: post →
  ID task = id →
  Forall (λ t, ID t ≠ id) pre →
  Completed task = false →
  let marked := {| Tasks := pre ++ withCompleted true task :: post;
                   NextID := NextID store |} in
  markTask store identifier false true confirmed = (true, marked)
  ∧ markTask marked identifier true true confirmed = (true, store)
  ∧ markTask marked identifier false true confirmed = (true, marked)
  ∧ markTask store identifier false false false = (false, store).
Proof.
  intros Hatoi Hstore Hid Hpre Hpending marked.
  assert (∀ s t c, Tasks s = pre ++ t :: post → ID t = id →
            markTask s identifier (negb c) true confirmed
            = (true, {| Tasks := pre ++ withCompleted c t :: post; NextID := NextID s |}))
    as Hmark.
  { intros s t c Hs Ht. unfold markTask, findTaskByIDOrName.
    rewrite Hatoi, Hs, (find_ID_found id pre t post Ht Hpre). cbn [negb andb].
    rewrite Bool.negb_involutive. unfold updateTaskCompletion.
    pose proof (updateTaskCompletionFrom_found s id c pre t post Hs Ht [] pre eq_refl Hpre)
      as Hfound.
    simpl in Hfound. rewrite <- Hs in Hfound at 1. rewrite Ht, Hfound. reflexivity. }
  split; [apply (Hmark store task true); assumption|]. split; [|split].
  - pose proof (Hmark marked (withCompleted true task) false eq_refl Hid) as Hundo.
    cbn [negb] in Hundo. rewrite Hundo.
    f_equal. destruct store as [tasks next]. simpl in *. subst tasks. f_equal.
    destruct task; simpl in *. subst. reflexivity.
  - pose proof (Hmark marked (withCompleted true task) true eq_refl Hid) as Hagain.
    cbn [negb] in Hagain. rewrite Hagain. reflexivity.
  - unfold markTask, findTaskByIDOrName.
    rewrite Hatoi, Hstore, (find_ID_found id pre task post Hid Hpre). reflexivity.
Qed.
End WithLibrary.

End CommandsFresh.

Lemma commands_identifiers_fresh_witness :
  let commands :=
    [program.AddCmd ["pay rent"; ""; "call mum"]%string "2024-01-15" "High";
     program.DeleteCmd "1" true false "";
     program.AddCmd ["water the plants"]%string "" "low";
     program.BatchCmd false true ""] in
  map taskdata.ID
    (taskdata.Tasks (@program.run strings.asciiUnicode sort.insertionSorter commands
                       taskdata.emptyStore)) = [2; 3]%Z
  ∧ session.identifiersFresh
      (@program.run strings.asciiUnicode sort.insertionSorter commands taskdata.emptyStore).
Proof.
  intros commands. split; [vm_compute; reflexivity|].
  refine (proj1 (@commands_identifiers_fresh strings.asciiUnicode sort.insertionSorter
                   commands _)).
  vm_compute. reflexivity.
Defined.

Lemma mark_round_trip_witness :
  let task := {| taskdata.ID := 1; taskdata.Description := "pay rent";
                 taskdata.DueDate := ""; taskdata.Priority := "high";
                 taskdata.Completed := false |} in
  let store := {| taskdata.Tasks := [task]; taskdata.NextID := 2 |} in
  let marked := {| taskdata.Tasks := [taskdata.withCompleted true task];
                   taskdata.NextID := 2 |} in
  @cmd.markTask strings.asciiUnicode store "1" false true false = (true, marked)
  ∧ @cmd.markTask strings.asciiUnicode marked "1" true true false = (true, store).
Proof.
  intros task store marked.
  destruct (@mark_round_trip strings.asciiUnicode store "1" 1%Z [] [] task false
              eq_refl eq_refl eq_refl ltac:(constructor) eq_refl) as (Hmark & Hundo & _).
  split; [exact Hmark|exact Hundo].
Defined.

(** ** Deadlines and statistics *)
Section Deadlines.
Import strings taskdata cmd.
Local Open Scope Z_scope.

(** X27. The upcoming deadlines of the mark view, in a location with a
    fixed offset from UTC: the pending tasks whose due midnight, in UTC,
    is after the current time and before the same time seven days later.
    Every task due soon for the list view is among them, unless it is due
    in the current second. *)
Theorem upcoming_deadlines (store : TaskStore) (now : time.Time) (offset : Z) (task : Task) :
  time.loc now = time.FixedZone offset →
  0 <= time.nsec now < 1000000000 →
  (In task (getUpcomingDeadlines store now)
   ↔ In task (Tasks store) ∧ Completed task = false
     ∧ ∃ dueDate,
         time.Parse (DueDate task) = Some dueDate
         ∧ time.sec now < time.sec dueDate
         ∧ (time.sec dueDate < time.sec now + 7 * time.secondsPerDay
            ∨ (time.sec dueDate = time.sec now + 7 * time.secondsPerDay
               ∧ 0 < time.nsec now)))
  ∧ (In task (Tasks store) → isDueSoon task now = true →
     (∀ dueDate, time.Parse (DueDate task) = Some dueDate → time.sec dueDate ≠ time.sec now) →
     In task (getUpcomingDeadlines store now)).
Proof.
  intros Hloc Hnsec.
  assert (In task (getUpcomingDeadlines store now)
          ↔ In task (Tasks store) ∧ Completed task = false
            ∧ ∃ dueDate,
                time.Parse (DueDate task) = Some dueDate
                ∧ time.sec now < time.sec dueDate
                ∧ (time.sec dueDate < time.sec now + 7 * time.secondsPerDay
                   ∨ (time.sec dueDate = time.sec now + 7 * time.secondsPerDay
                      ∧ 0 < time.nsec now))) as Hiff.
  { unfold getUpcomingDeadlines. cbv zeta.
    rewrite (AddDate_days_FixedZone now offset 7 Hloc Hnsec).
    rewrite filter_In, !andb_true_iff, !negb_true_iff.
    destruct (time.Parse (DueDate task)) as [dueDate|] eqn:Hparse.
    - destruct (Parse_midnight_UTC _ _ Hparse) as (_ & Hdnsec & _).
      unfold time.After, time.Before. cbn [time.sec time.nsec]. rewrite Hdnsec.
      rewrite !andb_true_iff, !orb_true_iff, !andb_true_iff, !Z.ltb_lt, !Z.eqb_eq.
      unfold time.secondsPerDay. split.
      + intros (Hin & [[Hc _] [Hafter Hbefore]]).
        split; [exact Hin|]. split; [exact Hc|]. exists dueDate.
        split; [reflexivity|]. split; [|]; lia.
      + intros (Hin & Hc & dueDate' & [= <-] & Hafter & Hbefore).
        split; [exact Hin|]. split; [split; [exact Hc|]|split; lia].
        destruct (isEmpty (DueDate task)) eqn:Hempty; [|reflexivity].
        apply isEmpty_true in Hempty. rewrite Hempty, Parse_empty in Hparse. discriminate.
    - split; [intros (_ & _ & Hfalse); discriminate|].
      intros (_ & _ & dueDate & Hsome & _). discriminate. }
  split; [exact Hiff|].
  intros Hin Hsoon Hnow. apply Hiff.
  apply (isDueSoon_FixedZone task now offset Hloc Hnsec) in Hsoon
    as (Hc & dueDate & Hparse & Hafter & Hbefore).
  split; [exact Hin|]. split; [exact Hc|]. exists dueDate. split; [exact Hparse|].
  specialize (Hnow dueDate Hparse). unfold time.secondsPerDay. lia.
Qed.

Lemma upcoming_deadlines_witness :
  let task := {| ID := 1; Description := "pay rent"; DueDate := "2024-01-17";
                 Priority := "normal"; Completed := false |} in
  let store := {| Tasks := [task]; NextID := 2 |} in
  let now := {| time.sec := 1705312800; time.nsec := 0; time.loc := time.UTC |} in
  isDueSoon task now = true ∧ In task (getUpcomingDeadlines store now).
Proof.
  intros task store now. apply conj; [vm_compute; reflexivity|].
  refine (proj2 (upcoming_deadlines store now 0 task eq_refl _) _ _ _).
  - vm_compute. split; [discriminate|reflexivity].
  - left. reflexivity.
  - vm_compute. reflexivity.
  - intros dueDate Hparse.
    assert (dueDate = {| time.sec := 1705449600; time.nsec := 0; time.loc := time.UTC |})
      as -> by (vm_compute in Hparse; injection Hparse as <-; reflexivity).
    vm_compute. discriminate.
Defined.

Lemma countWhere_le (p q : Task → bool) tasks :
  (∀ t, p t = true → q t = true) → countWhere p tasks <= countWhere q tasks.
Proof.
  intros Hpq. induction tasks as [|t tasks IH]; [reflexivity|].
  rewrite !countWhere_cons. specialize (Hpq t).
  destruct (p t); [rewrite Hpq by reflexivity; lia|destruct (q t); lia].
Qed.

(** The test of each counter of the statistics. *)
Lemma fold_countStatistics now tasks : ∀ todayCount thisWeekCount thisMonthCount,
  0 <= todayCount → 0 <= thisWeekCount → 0 <= thisMonthCount →
  todayCount + Z.of_nat (length tasks) <= GoInt.maxInt →
  thisWeekCount + Z.of_nat (length tasks) <= GoInt.maxInt →
  thisMonthCount + Z.of_nat (length tasks) <= GoInt.maxInt →
  let dated := λ (test : time.Time → time.Time → bool) (t : Task),
    negb (Completed t) && negb (isEmpty (DueDate t))
    && match time.Parse (DueDate t) with
       | Some dueDate => test dueDate now
       | None => false
       end in
  fold_left (countStatistics now) tasks (todayCount, thisWeekCount, thisMonthCount)
  = (todayCount + countWhere (dated isSameDay) tasks,
     thisWeekCount + countWhere (dated isInWeekRange) tasks,
     thisMonthCount + countWhere (dated isSameMonth) tasks).
Proof.
  induction tasks as [|t tasks IH]; intros a b c Ha Hb Hc Ba Bb Bc dated.
  - unfold countWhere. simpl. repeat (f_equal; try lia).
  - cbn [fold_left length] in *. rewrite !countWhere_cons.
    assert (∀ z, 0 <= z → z + Z.of_nat (S (length tasks)) <= GoInt.maxInt →
                 GoInt.incr z = z + 1) as Hincr.
    { intros z Hz Hb'. apply incr_below_max. unfold GoInt.minInt. lia. }
    unfold countStatistics at 2. subst dated. cbv beta.
    destruct (negb (Completed t) && negb (isEmpty (DueDate t))); cbn [andb].
    + destruct (time.Parse (DueDate t)) as [dueDate|].
      * destruct (isSameDay dueDate now), (isInWeekRange dueDate now),
          (isSameMonth dueDate now);
          rewrite ?Hincr by assumption; rewrite IH by lia; repeat (f_equal; try lia).
      * rewrite IH by lia. repeat (f_equal; try lia).
    + rewrite IH by lia. repeat (f_equal; try lia).
Qed.

(** X28. The three counters of the statistics count the pending tasks
    due today, in the week and in the month.  A task due today is due this
    month, so the first count is at most the third; in a location at UTC or
    east of it, by less than a day, a task due today is in the week, so the
    first count is at most the second; west of UTC a task due today is not
    in the week.  The collections are those an [int] counts. *)
Theorem statistics_counters (store : TaskStore) (now : time.Time) (offset : Z) :
  time.loc now = time.FixedZone offset →
  - time.secondsPerDay < offset < time.secondsPerDay →
  Z.of_nat (length (Tasks store)) <= GoInt.maxInt →
  ∃ todayCount thisWeekCount thisMonthCount,
    displayStatistics store now = (todayCount, thisWeekCount, thisMonthCount)
    ∧ todayCount = Z.of_nat (length (getTodayTasks (Tasks store) now))
    ∧ 0 <= todayCount <= thisMonthCount
    ∧ (0 <= offset → todayCount <= thisWeekCount)
    ∧ (offset < 0 →
       ∀ task dueDate,
         time.Parse (DueDate task) = Some dueDate →
         isSameDay dueDate now = true → isInWeekRange dueDate now = false).
Proof.
  intros Hloc Hoffset Hlen. unfold displayStatistics.
  rewrite fold_countStatistics by lia. cbv zeta. rewrite !Z.add_0_l.
  eexists _, _, _. split; [reflexivity|].
  assert (∀ value dueDate, time.Parse value = Some dueDate → isSameDay dueDate now = true →
            time.sec dueDate / time.secondsPerDay
            = (time.sec now + offset) / time.secondsPerDay) as Hsame.
  { intros value dueDate Hparse Hday. apply isSameDay_iff in Hday.
    destruct (Parse_midnight_UTC _ _ Hparse) as (Hdloc & _).
    rewrite (abs_FixedZone now offset Hloc), (abs_FixedZone dueDate 0 Hdloc) in Hday.
    rewrite !Z.div_add, Z.add_0_r in Hday by discriminate. lia. }
  split; [reflexivity|]. split; [split|split].
  - apply countWhere_bounds.
  - apply countWhere_le. intros t. rewrite !andb_true_iff.
    intros [Hpending Htest]. split; [exact Hpending|].
    destruct (time.Parse (DueDate t)) as [dueDate|]; [|discriminate].
    unfold isSameDay in Htest. unfold isSameMonth.
    apply andb_true_iff in Htest as [Htest _]. exact Htest.
  - intros Heast. apply countWhere_le. intros t. rewrite !andb_true_iff.
    intros [Hpending Htest]. split; [exact Hpending|].
    destruct (time.Parse (DueDate t)) as [dueDate|] eqn:Hparse; [|discriminate].
    destruct (Parse_midnight_UTC _ _ Hparse) as (Hdloc & _).
    apply (isInWeekRange_FixedZone dueDate now 0 offset Hdloc Hloc).
    rewrite Z.add_0_r, (Hsame _ _ Hparse Htest).
    unfold time.secondsPerDay in *. lia.
  - intros Hwest task dueDate Hparse Htest. apply not_true_is_false. intros Hweek.
    destruct (Parse_midnight_UTC _ _ Hparse) as (Hdloc & _).
    apply (isInWeekRange_FixedZone dueDate now 0 offset Hdloc Hloc) in Hweek.
    rewrite Z.add_0_r, (Hsame _ _ Hparse Htest) in Hweek.
    unfold time.secondsPerDay in *. lia.
Qed.

Lemma statistics_counters_witness :
  let mk := λ id due,
          {| ID := id; Description := "task"; DueDate := due; Priority := "normal";
             Completed := false |} in
  let store := {| Tasks := [mk 1 "2024-01-15"; mk 2 "2024-01-18"; mk 3 "2024-01-31";
                            mk 4 "2024-02-01"]%string;
                  NextID := 5 |} in
  displayStatistics store {| time.sec := 1705312800; time.nsec := 0; time.loc := time.UTC |}
  = (1, 2, 3)
  ∧ displayStatistics store
      {| time.sec := 1705330800; time.nsec := 0; time.loc := time.FixedZone (-18000) |}
    = (1, 1, 3).
Proof.
  intros mk store. split.
  - destruct (statistics_counters store
                {| time.sec := 1705312800; time.nsec := 0; time.loc := time.UTC |} 0
                eq_refl ltac:(vm_compute; split; reflexivity)
                ltac:(vm_compute; discriminate))
      as (a & b & c & Hcounts & _).
    rewrite Hcounts. vm_compute in Hcounts. congruence.
  - vm_compute. reflexivity.
Defined.

End Deadlines.
